(** * Point-in-time panel reconstruction of [jaqs/data/dataservice.py]

    A shallow embedding of the panel-producing methods of
    [RemoteDataService] (index weights, index membership, industry
    classification, adjustment factors) together with the pandas / numpy
    operations they are built from, followed by the properties of the
    written specification that were checked against them.

    Conventions.
    - A trading date is an integer [YYYYMMDD], a [Z].
    - A numeric DataFrame cell is an IEEE-754 binary64 value; pandas'
      "unfilled" marker is the NaN of that type, exactly as in numpy.
    - A DataFrame is kept column-wise: an index (row labels) and a list of
      named column vectors.
    - [print] is modelled by a log of the printed lines; a raised exception
      ends the computation.
    - The remote views and the trading calendar are collaborators: the
      operations take the outcome of the query (rows and status message) and
      the calendar as arguments.  Rows are typed as the [astype] calls of the
      fetching helpers leave them.
    - A series is keyed by its labels, and pandas re-aligns a series with
      a repeated label only onto its own labels.  Two factors for one
      entity and trade date: the series are joined when all of them have
      the same trade dates (a single entity always), and the assignment
      into the frame then leaves the last factor of a repeated date;
      otherwise the join raises.  An entity listed twice in one snapshot of
      index weights: the update of the frame has to re-align the repeated
      label and raises. *)

From Stdlib Require Import ZArith Floats SpecFloat FloatAxioms Ascii String.
From stdpp Require Import base option list strings gmap sorting.

Local Open Scope Z_scope.

(** ** Python values, exceptions and the print log *)

(** The dynamic types a raw field can have.  [PObj ty] stands for a value
    of any type other than text, integer or float ([None], a list, ...). *)
Inductive pyval : Type :=
  | PStr (s : string)
  | PInt (z : Z)
  | PFloat (f : float)
  | PObj (ty : string).

(** A number as numpy sees it after coercion. *)
Inductive num : Type :=
  | NInt (z : Z)
  | NFloat (f : float).

Inductive exn : Type :=
  | NotImplementedError (msg : string)
  | ValueError (msg : string)
  | KeyError (msg : string)
  | IndexError (msg : string).

Inductive result (A : Type) : Type :=
  | Ok (a : A)
  | Raise (e : exn).
Arguments Ok {A} a.
Arguments Raise {A} e.

Definition is_ok {A} (r : result A) : bool :=
  match r with Ok _ => true | Raise _ => false end.

(** A computation that may print and may raise: the lines printed so far
    and the outcome. *)
Definition io (A : Type) : Type := (list string * result A)%type.

Definition io_ret {A} (a : A) : io A := ([], Ok a).
Definition io_bind {A B} (m : io A) (k : A → io B) : io B :=
  match m with
  | (out, Ok a) => let '(out', r) := k a in (out ++ out', r)
  | (out, Raise e) => (out, Raise e)
  end.
Definition print (line : string) : io unit := ([line], Ok tt).
Definition raise {A} (e : exn) : io A := ([], Raise e).
Definition lift {A} (r : result A) : io A := ([], r).

Definition printed {A} (m : io A) : list string := m.1.
Definition returned {A} (m : io A) : result A := m.2.

Global Instance io_mret : MRet io := @io_ret.
Global Instance io_mbind : MBind io := λ A B k m, io_bind m k.

(** All elements of a list of results, or the first exception
    (a Python loop or [Series.apply] that stops at the first raise). *)
Fixpoint sequence {A} (l : list (result A)) : result (list A) :=
  match l with
  | [] => Ok []
  | Ok a :: t =>
      match sequence t with Ok t' => Ok (a :: t') | Raise e => Raise e end
  | Raise e :: _ => Raise e
  end.

(** The status check shared by the fetching helpers:
    [if msg != '0,': print msg]. *)
Definition check_msg (msg : string) : io unit :=
  if bool_decide (msg ≠ "0,") then print msg else mret tt.

(** What the status check leaves on the output. *)
Definition printed_of (msg : string) : list string :=
  if bool_decide (msg ≠ "0,") then [msg] else [].

(** ** Numbers *)

(** numpy's conversion of an [int64] to [float64] (rounding to nearest
    even; exact on every date). *)
Definition Z2float (z : Z) : float :=
  if z <? 0 then PrimFloat.opp (PrimFloat.of_uint63 (Uint63.of_Z (- z)))
  else PrimFloat.of_uint63 (Uint63.of_Z z).

Definition num2float (n : num) : float :=
  match n with NInt z => Z2float z | NFloat f => f end.

(** [a < b] on numbers: integer comparison when both are integers, the
    IEEE comparison otherwise (false as soon as one side is NaN). *)
Definition num_lt (a b : num) : bool :=
  match a, b with
  | NInt x, NInt y => bool_decide (x < y)
  | _, _ => PrimFloat.ltb (num2float a) (num2float b)
  end.

Global Arguments num_lt : simpl never.

(** ** [int(s)] on text *)

Definition is_space (a : ascii) : bool :=
  let n := N_of_ascii a in
  bool_decide (n = 32%N) || (bool_decide (9 ≤ n)%N && bool_decide (n ≤ 13)%N).

Definition digit_val (a : ascii) : option Z :=
  let n := Z.of_N (N_of_ascii a) in
  if bool_decide (48 ≤ n) && bool_decide (n ≤ 57) then Some (n - 48) else None.

Fixpoint lstrip (l : list ascii) : list ascii :=
  match l with
  | a :: t => if is_space a then lstrip t else l
  | [] => []
  end.

Definition strip (l : list ascii) : list ascii :=
  reverse (lstrip (reverse (lstrip l))).

Fixpoint parse_digits (acc : Z) (l : list ascii) : option Z :=
  match l with
  | [] => Some acc
  | a :: t =>
      match digit_val a with
      | Some d => parse_digits (10 * acc + d) t
      | None => None
      end
  end.

(** Python's [int(s)] in base ten: surrounding white space is dropped, one
    sign is allowed, at least one digit is required. *)
Definition py_int (s : string) : option Z :=
  match strip (list_ascii_of_string s) with
  | [] => None
  | a :: t =>
      if Ascii.eqb a "+" then
        match t with [] => None | _ => parse_digits 0 t end
      else if Ascii.eqb a "-" then
        match t with [] => None | _ => Z.opp <$> parse_digits 0 t end
      else parse_digits 0 (a :: t)
  end.

(** ** [get_index_comp_df]: the coercion helper [str2int] *)

(** The open-ended "far future" date. *)
Definition FAR_FUTURE : Z := 99999999.

Definition str2int (s : pyval) : result num :=
  match s with
  | PStr t =>
      if bool_decide (t = EmptyString) then Ok (NInt FAR_FUTURE)
      else match py_int t with
           | Some z => Ok (NInt z)
           | None => Raise (ValueError "invalid literal for int() with base 10")
           end
  | PInt z => Ok (NInt z)
  | PFloat f => Ok (NFloat f)
  | PObj ty => Raise (NotImplementedError ("type s = " ++ ty))
  end.

(** ** The trading calendar *)

(** Modelled from the spec: the calendar provider ([jaqs.data.calendar]) is
    not part of the file; per the interface section it returns the ordered
    trading dates between two dates, both ends included, and nothing when
    the range holds no trading day.  [cal] is the exchange calendar. *)
Definition get_trade_date_range (cal : list Z) (start_date end_date : Z) : list Z :=
  filter (λ d, start_date ≤ d ∧ d ≤ end_date) cal.

(** ** DataFrames *)

(** Column-wise frame: row labels and named column vectors. *)
Record DataFrame (A : Type) : Type := mkDF {
  df_index : list Z;
  df_data : list (string * list A)
}.
Arguments mkDF {A} _ _.
Arguments df_index {A} _.
Arguments df_data {A} _.

Definition df_columns {A} (df : DataFrame A) : list string := (df_data df).*1.

(** The column vector with a given label (the first one, should a label
    be repeated). *)
Fixpoint assoc {A} (c : string) (l : list (string * A)) : option A :=
  match l with
  | [] => None
  | (k, v) :: t => if bool_decide (k = c) then Some v else assoc c t
  end.

(** [df.iloc[i][c]]: the cell of column [c] at row position [i]. *)
Definition cell {A} (df : DataFrame A) (c : string) (i : nat) : option A :=
  col ← assoc c (df_data df); col !! i.

(** [sorted(set(l))] / [np.unique] on labels and on dates. *)
Definition sorted_unique_str (l : list string) : list string :=
  merge_sort String.le (remove_dups l).
Definition sorted_unique_Z (l : list Z) : list Z :=
  merge_sort Z.le (remove_dups l).

(** ** [get_index_comp_df] *)

(** One row of the [lb.indexCons] view. *)
Record cons_row : Type := mkCons {
  cons_symbol : string;
  cons_in_date : pyval;
  cons_out_date : pyval
}.

(** The same row after both date columns went through [str2int]. *)
Record cons_row_num : Type := mkConsNum {
  cn_symbol : string;
  cn_in : num;
  cn_out : num
}.

(** [df_io.loc[:, 'in_date'].apply(str2int)] then the same for
    ['out_date']: the whole first column is converted before the second
    one is touched, and the first exception ends the call. *)
Definition coerce_dates (rows : list cons_row) : result (list cons_row_num) :=
  match sequence (fmap (λ r, str2int (cons_in_date r)) rows) with
  | Raise e => Raise e
  | Ok ins =>
      match sequence (fmap (λ r, str2int (cons_out_date r)) rows) with
      | Raise e => Raise e
      | Ok outs =>
          Ok (zip_with (λ r io, mkConsNum (cons_symbol r) io.1 io.2)
                rows (zip ins outs))
      end
  end.

(** [np.logical_and(dates > row['in_date'], dates < row['out_date'])]. *)
Definition bool_index (dates : list Z) (row : cons_row_num) : list bool :=
  fmap (λ d, num_lt (cn_in row) (NInt d) && num_lt (NInt d) (cn_out row)) dates.

(** [mask[bool_index] = 1]. *)
Definition mask_set (mask : list Z) (bi : list bool) : list Z :=
  zip_with (λ m (b : bool), if b then 1 else m) mask bi.

(** The inner loop over the rows of one group. *)
Definition group_mask (dates : list Z) (df : list cons_row_num) : list Z :=
  foldl (λ mask row, mask_set mask (bool_index dates row))
        (replicate (length dates) 0) df.

(** [df_io.groupby(by='symbol')]: the groups in key order, each with its
    rows in their original order. *)
Definition groupby_symbol (rows : list cons_row_num)
  : list (string * list cons_row_num) :=
  fmap (λ sec, (sec, filter (λ r, cn_symbol r = sec) rows))
      (sorted_unique_str (fmap cn_symbol rows)).

Definition index_comp_panel (dates : list Z) (rows : list cons_row_num)
  : DataFrame Z :=
  mkDF dates (fmap (λ g, (g.1, group_mask dates g.2)) (groupby_symbol rows)).

(** [fetch] is the outcome of [_get_index_comp] (the rows of the view and
    the status message), [dates] the outcome of [get_trade_date_range]. *)
Definition get_index_comp_df (fetch : list cons_row * string) (dates : list Z)
  : io (DataFrame Z) :=
  let '(df_io, msg) := fetch in
  check_msg msg ;;
  df_num ← lift (coerce_dates df_io);
  mret (index_comp_panel dates df_num).

(** ** Missing values and the fill operations of pandas *)

(** A cell type with an "unfilled" marker ([np.nan]). *)
Class Nullable (A : Type) : Type := {
  isnull : A → bool;
  null : A;
  isnull_null : isnull null = true
}.

Global Instance float_nullable : Nullable float :=
  {| isnull := PrimFloat.is_nan; null := PrimFloat.nan; isnull_null := eq_refl |}.

Global Instance option_nullable {B} : Nullable (option B) :=
  {| isnull := λ o, match o with None => true | Some _ => false end;
     null := None; isnull_null := eq_refl |}.

(** An object cell of the industry frames: a text code or NaN. *)
Inductive obj : Type :=
  | OStr (s : string)
  | ONaN.

Global Instance obj_nullable : Nullable obj :=
  {| isnull := λ o, match o with ONaN => true | OStr _ => false end;
     null := ONaN; isnull_null := eq_refl |}.

Section fills.
Context {A : Type} `{Nullable A}.

(** [fillna(method='ffill')] on one column; [last] is the last value
    seen above. *)
Fixpoint ffill_from (last : A) (col : list A) : list A :=
  match col with
  | [] => []
  | x :: t => let v := if isnull x then last else x in v :: ffill_from v t
  end.
Definition ffill (col : list A) : list A := ffill_from null col.

(** [fillna(method='bfill')] on one column. *)
Fixpoint bfill (col : list A) : list A :=
  match col with
  | [] => []
  | x :: t =>
      let t' := bfill t in
      (if isnull x then default null (head t') else x) :: t'
  end.

(** [fillna(v)] on one column. *)
Definition fillna (v : A) (col : list A) : list A :=
  fmap (λ x, if isnull x then v else x) col.

(** Position of a label in an index without repeated labels. *)
Definition index_pos (d : Z) (idx : list Z) : option nat :=
  fst <$> list_find (λ x, x = d) idx.

(** One column of [reindex(new)]: the old value under each label that
    exists, NaN under each new label. *)
Definition reindex_col (idx new : list Z) (col : list A) : list A :=
  fmap (λ d, match index_pos d idx with
            | Some i => default null (col !! i)
            | None => null
            end) new.

Definition df_map_cols {B} (f : list A → list B) (df : DataFrame A)
  : DataFrame B :=
  mkDF (df_index df) (fmap (λ c, (c.1, f c.2)) (df_data df)).

(** [df.reindex(new)] on the rows. *)
Definition reindex (new : list Z) (df : DataFrame A) : DataFrame A :=
  mkDF new (fmap (λ c, (c.1, reindex_col (df_index df) new c.2)) (df_data df)).

(** [pd.DataFrame(index=idx, columns=cols, data=np.nan)] followed by
    [frame.loc[src.index, src.columns] = src].  A label of [src] that the
    frame does not have is a [KeyError]; the values are aligned on the
    labels, so a repeated column label receives the data once per copy. *)
Definition loc_assign (idx : list Z) (cols : list string) (src : DataFrame A)
  : result (DataFrame A) :=
  if forallb (λ c, bool_decide (c ∈ cols)) (df_columns src)
     && forallb (λ d, bool_decide (d ∈ idx)) (df_index src)
  then Ok (mkDF idx
             (fmap (λ c, (c, match assoc c (df_data src) with
                            | Some col => reindex_col (df_index src) idx col
                            | None => replicate (length idx) null
                            end)) cols))
  else Raise (KeyError "not in index").

(** [self.update(other)]: [other] is aligned on the labels of [self]
    and overwrites exactly where it is filled. *)
Definition df_update (self other : DataFrame A) : DataFrame A :=
  mkDF (df_index self)
    (fmap (λ c,
       let that := match assoc c.1 (df_data other) with
                   | Some col => reindex_col (df_index other) (df_index self) col
                   | None => replicate (length (df_index self)) null
                   end in
       (c.1, zip_with (λ this that, if isnull that then this else that) c.2 that))
     (df_data self)).

(** [df.loc[lo:hi]] on an increasing index. *)
Definition loc_rows (lo hi : Z) (df : DataFrame A) : DataFrame A :=
  let keep (d : Z) : bool := bool_decide (lo ≤ d ∧ d ≤ hi) in
  mkDF (filter (λ d, keep d) (df_index df))
    (fmap (λ c, (c.1, (filter (λ p, keep p.1) (zip (df_index df) c.2)).*2))
         (df_data df)).
End fills.

(** [symbol.split(',')]. *)
Fixpoint split_comma (s : string) : list string :=
  match s with
  | EmptyString => [EmptyString]
  | String a t =>
      if Ascii.eqb a "," then EmptyString :: split_comma t
      else match split_comma t with
           | h :: r => String a h :: r
           | [] => [String a EmptyString]
           end
  end.

(** [np.sort(symbol.split(','))]. *)
Definition symbol_arr (symbol : string) : list string :=
  merge_sort String.le (split_comma symbol).

(** [drop_duplicates()], keeping the first of equal rows. *)
Fixpoint drop_duplicates_aux {A} (same : A → A → bool) (seen l : list A) : list A :=
  match l with
  | [] => []
  | x :: t =>
      if existsb (same x) seen then drop_duplicates_aux same seen t
      else x :: drop_duplicates_aux same (x :: seen) t
  end.
Definition drop_duplicates {A} (same : A → A → bool) (l : list A) : list A :=
  drop_duplicates_aux same [] l.


(** ** [get_adj_factor_raw] and [get_adj_factor_daily] *)

(** One row of the [lb.secAdjFactor] view, after the [astype] of
    [get_adj_factor_raw] ([symbol: str, trade_date: int,
    adjust_factor: float]). *)
Record adj_row : Type := mkAdj {
  adj_symbol : string;
  adj_trade_date : Z;
  adj_factor : float
}.

(** Equality of floats as [drop_duplicates] sees it (NaN equals NaN). *)
Definition float_same (a b : float) : bool :=
  PrimFloat.eqb a b || (PrimFloat.is_nan a && PrimFloat.is_nan b).

Definition adj_row_same (r1 r2 : adj_row) : bool :=
  bool_decide (adj_symbol r1 = adj_symbol r2)
  && bool_decide (adj_trade_date r1 = adj_trade_date r2)
  && float_same (adj_factor r1) (adj_factor r2).

Definition get_adj_factor_raw (fetch : list adj_row * string) : io (list adj_row) :=
  let '(df_raw, msg) := fetch in
  check_msg msg ;;
  mret (drop_duplicates adj_row_same df_raw).

(** The factor the frame holds for [(sec, d)] after
    [res_final.loc[res.index, res.columns] = res]: the rows are written in
    their order, so it is the factor of the last row with this symbol and
    trade date; NaN when there is none. *)
Definition adj_lookup (rows : list adj_row) (sec : string) (d : Z) : float :=
  match last (filter (λ r, adj_symbol r = sec ∧ adj_trade_date r = d) rows) with
  | Some r => adj_factor r
  | None => PrimFloat.nan
  end.

(** The labels of the series of one symbol: its trade dates in row
    order. *)
Definition adj_dates_of (rows : list adj_row) (sec : string) : list Z :=
  adj_trade_date <$> filter (λ r, adj_symbol r = sec) rows.

(** [pd.concat(dic_sec, axis=1)] can join the series: no series has a
    repeated trade date, or all series have the same trade dates in the
    same order, so that none has to be re-aligned. *)
Definition adj_joinable (rows : list adj_row) : Prop :=
  let secs := sorted_unique_str (adj_symbol <$> rows) in
  Forall (λ sec, NoDup (adj_dates_of rows sec)) secs
  ∨ Forall (λ sec, adj_dates_of rows sec
                   = adj_dates_of rows (default EmptyString (head secs))) secs.
Global Instance adj_joinable_dec rows : Decision (adj_joinable rows).
Proof. unfold adj_joinable. apply _. Defined.

(** [np.unique(np.concatenate([df.index.values ...]))]: the trade dates
    that occur in the rows. *)
Definition adj_idx (rows : list adj_row) : list Z :=
  sorted_unique_Z (fmap adj_trade_date rows).

(** [pd.concat(dic_sec, axis=1)] where [dic_sec] maps each fetched symbol
    to its factor series keyed by trade date (Modelled from the spec:
    [jutil.group_df_to_dict] is not part of the file; the spec has the rows
    grouped by entity id): the outer join of the series, columns in key
    order. *)
Definition adj_concat (rows : list adj_row) : DataFrame float :=
  mkDF (adj_idx rows)
       (fmap (λ sec, (sec, fmap (adj_lookup rows sec) (adj_idx rows)))
            (sorted_unique_str (fmap adj_symbol rows))).

(** [Series.min()] / [Series.max()] of a non-empty integer column. *)
Definition list_min (x : Z) (l : list Z) : Z := foldr Z.min x l.
Definition list_max (x : Z) (l : list Z) : Z := foldr Z.max x l.

(** [shift(1, axis=0)] on one column. *)
Definition shift1 (col : list float) : list float :=
  match col with
  | [] => []
  | _ :: _ => PrimFloat.nan :: take (pred (length col)) col
  end.

(** [res.div(res.shift(1, axis=0)).fillna(1.0)] on one column. *)
Definition div_shift (col : list float) : list float :=
  fillna 1%float (zip_with PrimFloat.div col (shift1 col)).

(** The panel before the optional ratio transform. *)
Definition adj_align (cal : list Z) (symbol : string) (df_raw : list adj_row)
  : result (DataFrame float) :=
  match df_raw with
  | [] => Raise (ValueError "No objects to concatenate")
  | r0 :: _ =>
      if bool_decide (adj_joinable df_raw) then
        let res := adj_concat df_raw in
        let idx := adj_idx df_raw in
        match loc_assign idx (symbol_arr symbol) res with
        | Raise e => Raise e
        | Ok res_final =>
            let s := list_min (adj_trade_date r0) (fmap adj_trade_date df_raw) in
            let e := list_max (adj_trade_date r0) (fmap adj_trade_date df_raw) in
            let dates_arr := get_trade_date_range cal s e in
            if bool_decide (length dates_arr ≠ length (df_index res_final))
            then Ok (df_map_cols bfill (df_map_cols ffill (reindex dates_arr res_final)))
            else Ok res_final
        end
      else Raise (ValueError "cannot reindex from a duplicate axis")
  end.

(** [query symbol start_date end_date] is the remote view. *)
Definition get_adj_factor_daily
    (query : string → Z → Z → list adj_row * string) (cal : list Z)
    (symbol : string) (start_date end_date : Z) (div : bool)
  : io (DataFrame float) :=
  df_raw ← get_adj_factor_raw (query symbol start_date end_date);
  res_final ← lift (adj_align cal symbol df_raw);
  mret (if div then df_map_cols div_shift res_final else res_final).

(** ** [get_index_weights] and [get_index_weights_daily] *)

(** One row of the [lb.indexWeight] view after [astype({'weight': float})]. *)
Record weight_row : Type := mkW {
  w_symbol : string;
  w_weight : float
}.

(** [if index == '000300.SH': index = '399300.SZ']. *)
Definition index_code (index : string) : string :=
  if bool_decide (index = "000300.SH") then "399300.SZ" else index.

Definition get_index_weights
    (query : string → Z → list weight_row * string) (index : string) (trade_date : Z)
  : io (list weight_row) :=
  let index := index_code index in
  let '(df_io, msg) := query index trade_date in
  check_msg msg ;;
  mret df_io.

(** [df['weight']] read at a symbol of a snapshot that lists every symbol
    once: its weight, NaN when absent. *)
Definition weight_lookup (df : list weight_row) (c : string) : float :=
  match list_find (λ r, w_symbol r = c) df with
  | Some (_, r) => w_weight r
  | None => PrimFloat.nan
  end.

(** The [while True] loop.  [next] is [jutil.get_next_period_day(td,
    'month', 1)], which is not part of the file and is taken as a
    parameter.  The state is the pair [(dic, symbols_set)].  [None] means
    that the loop did not reach its [break] within [fuel] iterations. *)
Fixpoint weights_loop
    (query : string → Z → list weight_row * string) (next : Z → Z)
    (index : string) (end_date : Z) (fuel : nat) (td : Z)
    (st : gmap Z (list weight_row) * gset string)
  : option (io (gmap Z (list weight_row) * gset string)) :=
  if bool_decide (td > end_date) then Some (mret st)
  else match fuel with
       | O => None
       | S fuel' =>
           let step : io (gmap Z (list weight_row) * gset string) :=
             df ← get_index_weights query index td;
             mret (<[td := df]> st.1, st.2 ∪ list_to_set (fmap w_symbol df)) in
           match step with
           | (out, Ok st') =>
               match weights_loop query next index end_date fuel' (next td) st' with
               | Some (out', r) => Some (out ++ out', r)
               | None => None
               end
           | (out, Raise e) => Some (out, Raise e)
           end
       end.

(** The dates at which the loop fetches a snapshot: [start_date], then
    the period helper applied again and again while the date does not pass
    [end_date]. *)
Inductive snapshot_date (next : Z → Z) (start_date end_date : Z) : Z → Prop :=
  | snapshot_first :
      start_date ≤ end_date → snapshot_date next start_date end_date start_date
  | snapshot_next td :
      snapshot_date next start_date end_date td → next td ≤ end_date →
      snapshot_date next start_date end_date (next td).

(** The same dates as a list, as far as [fuel] iterations reach. *)
Fixpoint snapshot_dates (next : Z → Z) (end_date : Z) (fuel : nat) (td : Z) : list Z :=
  if bool_decide (td > end_date) then []
  else match fuel with
       | O => []
       | S fuel' => td :: snapshot_dates next end_date fuel' (next td)
       end.

(** One pass through the loop body on the state [(dic, symbols_set)]. *)
Definition loop_record (query : string → Z → list weight_row * string)
    (index : string) (st : gmap Z (list weight_row) * gset string) (td : Z)
  : gmap Z (list weight_row) * gset string :=
  (<[td := (query (index_code index) td).1]> st.1,
   st.2 ∪ list_to_set (w_symbol <$> (query (index_code index) td).1)).

(** [fillna(0.0)] on one cell. *)
Definition fill0 (x : float) : float := if PrimFloat.is_nan x then 0%float else x.

(** [sorted(list(symbols_set))]. *)
Definition sorted_symbols (symbols_set : gset string) : list string :=
  merge_sort String.le (elements symbols_set).

(** [pd.concat(dic, axis=1).T]: one row per snapshot date (in key order),
    one column per symbol seen in some snapshot. *)
Definition weights_merge (dic : gmap Z (list weight_row)) : DataFrame float :=
  let keys := merge_sort Z.le (elements (dom dic)) in
  let cols := sorted_unique_str (keys ≫= λ td, w_symbol <$> default [] (dic !! td)) in
  mkDF keys
    (fmap (λ c, (c, fmap (λ td, weight_lookup (default [] (dic !! td)) c) keys)) cols).

(** Every snapshot lists a symbol once.  A snapshot that does not gives
    [merge] a repeated column label: [pd.concat] raises when the snapshots
    have different symbols, and [res.update(merge)], which re-aligns
    [merge] on the columns of [res], raises in any case. *)
Definition snapshots_unique (dic : gmap Z (list weight_row)) : Prop :=
  map_Forall (λ _ df, NoDup (w_symbol <$> df)) dic.
Global Instance snapshots_unique_dec dic : Decision (snapshots_unique dic).
Proof. unfold snapshots_unique. apply _. Defined.

(** [pd.DataFrame(index=idx, columns=cols, data=np.nan)]. *)
Definition df_full {A} (idx : list Z) (cols : list string) (v : A) : DataFrame A :=
  mkDF idx (fmap (λ c, (c, replicate (length idx) v)) cols).

Definition get_index_weights_daily
    (query : string → Z → list weight_row * string) (next : Z → Z) (cal : list Z)
    (fuel : nat) (index : string) (start_date end_date : Z)
  : option (io (DataFrame float)) :=
  let trade_dates := get_trade_date_range cal start_date end_date in
  match head trade_dates, last trade_dates with
  | Some start_date, Some end_date =>
      match weights_loop query next index end_date fuel start_date (∅, ∅) with
      | None => None
      | Some loop =>
          Some ('(dic, symbols_set) ← loop;
                if bool_decide (dic = ∅) then
                  raise (ValueError "No objects to concatenate")
                else if bool_decide (snapshots_unique dic) then
                  let merge := weights_merge dic in
                  let merge := df_map_cols (fillna 0%float) merge in
                  let res := df_full trade_dates (sorted_symbols symbols_set) PrimFloat.nan in
                  let res := df_update res merge in
                  let res := df_map_cols ffill res in
                  let res := loc_rows start_date end_date res in
                  mret res
                else raise (ValueError "cannot reindex from a duplicate axis"))
      end
  | _, _ => Some (raise (IndexError "index 0 is out of bounds"))
  end.

(** ** [get_industry_raw] and [get_industry_daily] *)

(** One row of the [lb.secIndustry] view after [astype({'in_date': int})],
    with the code of the requested level. *)
Record ind_row : Type := mkInd {
  ind_symbol : string;
  ind_in_date : Z;
  ind_code : string
}.

Global Instance ind_row_eq_dec : EqDecision ind_row.
Proof. solve_decision. Defined.

(** Equality of rows as [drop_duplicates] sees it. *)
Definition ind_row_same (r1 r2 : ind_row) : bool := bool_decide (r1 = r2).

Definition get_industry_raw (fetch : list ind_row * string) : io (list ind_row) :=
  let '(df_raw, msg) := fetch in
  check_msg msg ;;
  mret (drop_duplicates ind_row_same df_raw).

Definition ind_le (r1 r2 : ind_row) : Prop := ind_in_date r1 ≤ ind_in_date r2.
Global Instance ind_le_dec : RelDecision ind_le.
Proof. intros r1 r2. unfold ind_le. apply _. Defined.
Global Instance ind_le_total : Total ind_le.
Proof. intros r1 r2. apply Z.le_ge_cases. Qed.

(** [dic_sec]: per fetched symbol its rows sorted by [in_date]
    (Modelled from the spec: [jutil.group_df_to_dict] is not part of the
    file; the spec has the rows grouped by entity id and sorted by start
    date with a stable sort). *)
Definition ind_groups (df_raw : list ind_row) : list (string * list ind_row) :=
  fmap (λ sec, (sec, merge_sort ind_le
                      (filter (λ r, ind_symbol r = sec) df_raw)))
      (sorted_unique_str (fmap ind_symbol df_raw)).

(** [pd.concat({sec: series}, axis=1)] of series indexed [0..n-1]: the
    index is [0..max n-1] and the shorter series end in NaN. *)
Definition concat_range {A} `{Nullable A} (cols : list (string * list A))
  : DataFrame A :=
  let n := foldr (λ c m, Nat.max (length c.2) m) O cols in
  mkDF (fmap Z.of_nat (seq 0 n))
       (fmap (λ c, (c.1, c.2 ++ replicate (n - length c.2)%nat null)) cols).

(** A record is visible on date [d] once its announcement date has been
    reached; an unfilled announcement date never is. *)
Definition announced_by (d : Z) (a : option Z) : Prop :=
  match a with Some a => a ≤ d | None => False end.
Global Instance announced_by_dec d a : Decision (announced_by d a).
Proof. destruct a; simpl; apply _. Defined.

Definition gated_value (anns : list (option Z)) (vals : list obj) (d : Z) : obj :=
  default ONaN
    (snd <$> last (filter (λ p, announced_by d p.1) (zip anns vals))).

(** Modelled from the spec: [jaqs.data.align.align] is not part of the
    file.  Announcement-gated alignment: on each axis date an entity shows
    the value of its last record (in sorted order, the later record winning
    a tie) announced on or before that date, and is unfilled while no
    record has been announced. *)
Definition align_spec (df_value : DataFrame obj) (df_ann : DataFrame (option Z))
    (date_arr : list Z) : DataFrame obj :=
  mkDF date_arr
    (fmap (λ c, (c.1, fmap (gated_value (default [] (assoc c.1 (df_data df_ann))) c.2)
                         date_arr))
         (df_data df_value)).

(** [astype(str)] on an object cell. *)
Definition astype_str (o : obj) : obj :=
  match o with
  | OStr s => OStr s
  | ONaN => OStr "nan"
  end.

(** [align] is [jaqs.data.align.align]; [query symbol] is the remote view
    for the chosen source and level. *)
Definition get_industry_daily
    (align : DataFrame obj → DataFrame (option Z) → list Z → DataFrame obj)
    (query : string → list ind_row * string) (cal : list Z)
    (symbol : string) (start_date end_date : Z)
  : io (DataFrame obj) :=
  df_raw ← get_industry_raw (query symbol);
  match df_raw with
  | [] => raise (ValueError "No objects to concatenate")
  | _ :: _ =>
      let dic_sec := ind_groups df_raw in
      let df_ann_tmp :=
        concat_range (fmap (λ g : string * list ind_row,
                              (g.1, fmap (λ r, Some (ind_in_date r)) g.2)) dic_sec) in
      let df_value_tmp :=
        concat_range (fmap (λ g : string * list ind_row,
                              (g.1, fmap (λ r, OStr (ind_code r)) g.2)) dic_sec) in
      let idx := df_index df_ann_tmp in
      df_ann ← lift (loc_assign idx (symbol_arr symbol) df_ann_tmp);
      df_value ← lift (loc_assign idx (symbol_arr symbol) df_value_tmp);
      let dates_arr := get_trade_date_range cal start_date end_date in
      let df_industry := align df_value df_ann dates_arr in
      let df_industry := df_map_cols bfill df_industry in
      let df_industry := df_map_cols (fmap astype_str) df_industry in
      mret df_industry
  end.

(** ** Reading of the written specification: digit strings *)

(** A "numeric-looking" text: only decimal digits. *)
Definition is_digit (a : ascii) : Prop :=
  (48 ≤ N_of_ascii a)%N ∧ (N_of_ascii a ≤ 57)%N.
Definition numeric_looking (s : string) : Prop :=
  s ≠ EmptyString ∧ Forall is_digit (list_ascii_of_string s).

(** The integer a digit string denotes. *)
Definition digits_value (s : string) : Z :=
  foldl (λ acc a, 10 * acc + (Z.of_N (N_of_ascii a) - 48)) 0 (list_ascii_of_string s).

(** ** The period helper of the snapshot loop *)

(** Days since 1970-01-01 of a civil date. *)
Definition days_from_civil (y m d : Z) : Z :=
  let y' := if bool_decide (m ≤ 2) then y - 1 else y in
  let era := y' `div` 400 in
  let yoe := y' - era * 400 in
  let mp := (m + 9) `mod` 12 in
  let doy := (153 * mp + 2) `div` 5 + d - 1 in
  let doe := yoe * 365 + yoe `div` 4 - yoe `div` 100 + doy in
  era * 146097 + doe - 719468.

(** Day of the week, Monday being 0. *)
Definition weekday (y m d : Z) : Z := (days_from_civil y m d + 3) `mod` 7.

(** The first Monday-to-Friday day of a month, as [YYYYMMDD]. *)
Definition first_business_day (y m : Z) : Z :=
  let wd := weekday y m 1 in
  y * 10000 + m * 100
  + (if bool_decide (wd = 5) then 3 else if bool_decide (wd = 6) then 2 else 1).

(** Modelled from the spec: [jutil.get_next_period_day] is not part of the
    file; the spec has the snapshots fetched monthly.  This instance of the
    ['month'] period steps to the next first business day of a month that
    lies strictly after the given date. *)
Definition next_business_month_begin (td : Z) : Z :=
  let y := td `div` 10000 in
  let m := (td `mod` 10000) `div` 100 in
  if bool_decide (td < first_business_day y m) then first_business_day y m
  else if bool_decide (m = 12) then first_business_day (y + 1) 1
       else first_business_day y (m + 1).

(** ** Scenarios *)

(** The first trading dates of January 2017. *)
Definition cal_jan2017 : list Z :=
  [20170103; 20170104; 20170105; 20170106; 20170109; 20170110].

(** The trading dates around the National Day holiday of 2017. *)
Definition cal_oct2017 : list Z :=
  [20170928; 20170929; 20171009; 20171010; 20171011].

(** One membership interval [(10, 20)]. *)
Definition cons_10_20 : list cons_row :=
  [mkCons "A" (PStr "10") (PStr "20")].

(** An open-ended membership and a closed one. *)
Definition cons_jan2017 : list cons_row :=
  [mkCons "600000.SH" (PStr "20170103") (PStr EmptyString);
   mkCons "000001.SZ" (PInt 20161230) (PInt 20170106)].

(** The status of a refused query. *)
Definition msg_refused : string := "-1000,no data permission".

(** [B] has no factor on the second trade date. *)
Definition adj_query_partial (symbol : string) (start_date end_date : Z)
  : list adj_row * string :=
  ([mkAdj "A" 20170103 1; mkAdj "A" 20170104 2; mkAdj "B" 20170103 3], "0,").

(** Only [A] has records. *)
Definition adj_query_only_A (symbol : string) (start_date end_date : Z)
  : list adj_row * string :=
  ([mkAdj "A" 20170103 1; mkAdj "A" 20170104 2], "0,").

(** A factor of zero followed by a factor of two. *)
Definition adj_query_zero (symbol : string) (start_date end_date : Z)
  : list adj_row * string :=
  ([mkAdj "A" 20170103 0; mkAdj "A" 20170104 2], "0,").

(** Records that leave trading dates of their span unobserved. *)
Definition adj_query_sparse (symbol : string) (start_date end_date : Z)
  : list adj_row * string :=
  ([mkAdj "A" 20170103 1; mkAdj "A" 20170106 2; mkAdj "B" 20170104 3], "0,").

(** A factor recorded on 2017-01-07, a Saturday, in front of two trading
    dates. *)
Definition adj_query_off_calendar (symbol : string) (start_date end_date : Z)
  : list adj_row * string :=
  ([mkAdj "A" 20170107 1; mkAdj "A" 20170109 1; mkAdj "A" 20170110 2], "0,").

(** Two monthly snapshots; the second is dated 2017-10-02, a Monday on
    which the exchange was closed. *)
Definition weights_query_oct2017 (index : string) (td : Z)
  : list weight_row * string :=
  if bool_decide (td = 20170929) then ([mkW "A" 60; mkW "B" 40], "0,")
  else if bool_decide (td = 20171002) then ([mkW "A" 50; mkW "C" 50], "0,")
  else ([], "0,").

(** Classification records of [A] only. *)
Definition ind_query_only_A (symbol : string) : list ind_row * string :=
  ([mkInd "A" 20170105 "480000"; mkInd "A" 20161201 "430000"], "0,").

(** Classification records of [A] announced after the axis has begun. *)
Definition ind_query_late (symbol : string) : list ind_row * string :=
  ([mkInd "A" 20170105 "430000"; mkInd "A" 20170109 "480000"], "0,").

(** A fetch without any record. *)
Definition ind_query_empty (symbol : string) : list ind_row * string :=
  ([], "0,").

(** ** The sentences of the written specification that the code does not
    satisfy, in its own words *)

(** "Each cell becomes current-value divided by previous-row value, and any
    division whose denominator is zero or unfilled yields 1.0." *)
Definition ratio_as_specified (abs ratio : DataFrame float) : Prop :=
  ∀ (c : string) (i : nat) cur prev,
    cell abs c (S i) = Some cur → cell abs c i = Some prev →
    cell ratio c (S i)
    = Some (if PrimFloat.is_nan prev || PrimFloat.eqb prev 0 then 1%float
            else (cur / prev)%float).

(** "The column set equals exactly the deduplicated, sorted set of entity
    ids present in the raw fetched rows." *)
Definition columns_are_fetched_universe {A} (fetched : list string)
    (res : DataFrame A) : Prop :=
  df_columns res = sorted_unique_str fetched.

(** "Each operation returns the diagnostic message alongside its result so
    the caller can check it": what the caller receives after a failed fetch
    differs from what it receives after a successful one. *)
Definition error_visible_to_caller {A} (succeeded failed : io A) : Prop :=
  returned succeeded ≠ returned failed.



(** "For every query whose fetched records extend beyond the requested
    window the result contains rows outside that window." *)
Definition rows_outside_window (fetched : list adj_row) (start_date end_date : Z)
    (res : DataFrame float) : Prop :=
  (∃ r, r ∈ fetched
        ∧ ¬ (start_date ≤ adj_trade_date r ∧ adj_trade_date r ≤ end_date)) →
  ∃ d, d ∈ df_index res ∧ ¬ (start_date ≤ d ∧ d ≤ end_date).

(** "Snapshot values are propagated forward to every later trading date
    until superseded": a row holds the weights of the latest snapshot
    fetched on or before its date. *)
Definition snapshots_propagated (query : string → Z → list weight_row * string)
    (next : Z → Z) (index : string) (s0 e0 : Z) (res : DataFrame float) : Prop :=
  ∀ td (c : string) (i : nat) d,
    snapshot_date next s0 e0 td → c ∈ df_columns res →
    df_index res !! i = Some d → td ≤ d →
    (∀ td', snapshot_date next s0 e0 td' → ¬ (td < td' ∧ td' ≤ d)) →
    cell res c i = Some (fill0 (weight_lookup (query (index_code index) td).1 c)).

(** "Any requested symbol for which the fetch returned no classification
    record still appears as a column, and each cell of that column is the
    literal string nan." *)
Definition recordless_symbols_are_nan_columns (symbol : string)
    (fetched : list ind_row) (dates : list Z) (out : io (DataFrame obj)) : Prop :=
  ∀ c, c ∈ split_comma symbol → c ∉ ind_symbol <$> fetched →
    ∃ res, returned out = Ok res ∧ c ∈ df_columns res
           ∧ ∀ i : nat, (i < length dates)%nat → cell res c i = Some (OStr "nan").

(** ** [get_index_comp] *)

(** [fetch] is the outcome of [_get_index_comp]; the symbols are read off
    the rows without touching the date columns:
    [list(np.unique(df_io.loc[:, 'symbol']))]. *)
Definition get_index_comp (fetch : list cons_row * string) : io (list string) :=
  let '(df_io, msg) := fetch in
  check_msg msg ;;
  mret (sorted_unique_str (cons_symbol <$> df_io)).

(** A frame is rectangular when every column has one cell per row label. *)
Definition rectangular {A} (df : DataFrame A) : Prop :=
  Forall (λ c, length c.2 = length (df_index df)) (df_data df).

(** ** The arguments of [get_industry_raw] *)




(** ** [_dic2url] *)

(** [sep.join(l)]. *)
Fixpoint join (sep : string) (l : list string) : string :=
  match l with
  | [] => EmptyString
  | x :: t =>
      match t with
      | [] => x
      | _ :: _ => x ++ sep ++ join sep t
      end
  end.

(** [d] is given by its items in the order in which [d.viewitems()]
    yields them, every value already through [str]. *)
Definition _dic2url (d : list (string * string)) : string :=
  join "&" ((λ kv, join "=" [kv.1; kv.2]) <$> d).

(** Whether a character occurs in a text. *)
Fixpoint has_char (c : ascii) (s : string) : bool :=
  match s with
  | EmptyString => false
  | String a t => Ascii.eqb a c || has_char c t
  end.

(** [s.split(c)] for a one-character separator. *)
Fixpoint split_on (c : ascii) (s : string) : list string :=
  match s with
  | EmptyString => [EmptyString]
  | String a t =>
      if Ascii.eqb a c then EmptyString :: split_on c t
      else match split_on c t with
           | h :: r => String a h :: r
           | [] => [String a EmptyString]
           end
  end.

(** The text before the first [c] and the text after it. *)
Fixpoint cut_at (c : ascii) (s : string) : string * string :=
  match s with
  | EmptyString => (EmptyString, EmptyString)
  | String a t =>
      if Ascii.eqb a c then (EmptyString, t)
      else (String a (cut_at c t).1, (cut_at c t).2)
  end.

(** Reading a filter text back into its items. *)
Definition url2items (url : string) : list (string * string) :=
  if bool_decide (url = EmptyString) then []
  else cut_at "=" <$> split_on "&" url.

(** The items of a dict that leave the separators to [_dic2url]. *)
Definition plain_items (d : list (string * string)) : Prop :=
  Forall (λ kv, has_char "&" kv.1 = false ∧ has_char "=" kv.1 = false
                ∧ has_char "&" kv.2 = false) d.

(** ** [DataService.subscribe] *)

Section subscribe.
(** [F] are the callables, [S] the states of the publisher;
    [add_subscriber] is inherited from [Publisher], which is not part of
    the file. *)
Context {F S : Type}.
Context (add_subscriber : F → string → S → S).

(** One pass through the loop body up to the choice of [func]. *)
Definition subscribe_target (callback : gmap string F) (target : string)
  : result F :=
  match split_on "/" target with
  | [sec; data_type] =>
      let key := if bool_decide (data_type = "tick") then "on_tick" else "on_bar" in
      match callback !! key with
      | Some func => Ok func
      | None => Raise (KeyError key)
      end
  | [_] => Raise (ValueError "need more than 1 value to unpack")
  | _ => Raise (ValueError "too many values to unpack")
  end.

(** The loop over the targets: the state of the publisher when the loop
    ends or is left by an exception. *)
Fixpoint subscribe_loop (callback : gmap string F) (targets : list string)
    (self : S) : S * result unit :=
  match targets with
  | [] => (self, Ok tt)
  | target :: rest =>
      match subscribe_target callback target with
      | Raise e => (self, Raise e)
      | Ok func =>
          subscribe_loop callback rest (add_subscriber func target self)
      end
  end.

Definition subscribe (callback : gmap string F) (targets : string) (self : S)
  : S * result unit :=
  subscribe_loop callback (split_on "," targets) self.
End subscribe.

(** ** [Singleton] and the construction of [RemoteDataService] *)

Section singleton.
Context {Cls Inst : Type} `{Countable Cls}.

(** [Singleton.__call__]: [instances] is the shared dict [_instances],
    [construct] the call of the class itself through [super] with the
    arguments given.  The result is the dict after the call and what the call
    printed and returned. *)
Definition singleton_call (instances : gmap Cls Inst) (cls : Cls)
    (construct : io Inst) : gmap Cls Inst * io Inst :=
  match instances !! cls with
  | Some inst => (instances, mret inst)
  | None =>
      match construct with
      | (out, Ok inst) => (<[cls := inst]> instances, (out, Ok inst))
      | (out, Raise e) => (instances, (out, Raise e))
      end
  end.
End singleton.

(** What [RemoteDataService.__init__] leaves in the new object: the
    address its [DataApi] was made for. *)
Record remote_service : Type := mkRemote {
  api_address : string
}.

(** Truth value of the first component of [DataApi.login]'s answer. *)
Definition truthy (r : option string) : bool :=
  match r with
  | Some (String _ _) => true
  | _ => false
  end.

(** [RemoteDataService.__init__]: [get key] is [dic.get(key, None)] on the
    configuration read from [etc/data_config.json], [login address
    username password] the answer [(r, msg)] of [DataApi.login]. *)
Definition remote_init (get : string → option string)
    (login : string → string → string → option string * string)
  : io remote_service :=
  match get "remote.address", get "remote.username", get "remote.password" with
  | Some address, Some username, Some password =>
      let '(r, msg) := login address username password in
      (if truthy r then print "DataAPI login success." else print msg) ;;
      mret (mkRemote address)
  | _, _, _ => raise (ValueError "no address, username or password available!")
  end.

(** The call [RemoteDataService()], which goes through the metaclass. *)
Definition RemoteDataService (instances : gmap string remote_service)
    (get : string → option string)
    (login : string → string → string → option string * string)
  : gmap string remote_service * io remote_service :=
  singleton_call instances "RemoteDataService" (remote_init get login).
(** * Properties *)

(** ** Results and the print log *)

Lemma sequence_Ok {A B} (f : A → result B) (l : list A) (l' : list B) :
  sequence (fmap f l) = Ok l' → Forall2 (λ x y, f x = Ok y) l l'.
Proof.
  revert l'. induction l as [|x l IH]; intros l' Hs; csimpl in Hs.
  - inversion Hs. constructor.
  - destruct (f x) as [y|e] eqn:Hx; [|discriminate].
    destruct (sequence (fmap f l)) as [t|e]; [|discriminate].
    inversion Hs; subst. constructor; auto.
Qed.

Lemma sequence_Raise {A B} (f : A → result B) (l : list A) (x : A) (e : exn) :
  x ∈ l → f x = Raise e → ∃ e', sequence (fmap f l) = Raise e'.
Proof.
  intros Hin Hx. induction l as [|y l IH]; [by apply elem_of_nil in Hin|].
  apply elem_of_cons in Hin as [->|Hin]; csimpl.
  - rewrite Hx. eauto.
  - destruct (f y); [|eauto].
    destruct (IH Hin) as [e' ->]. eauto.
Qed.

(** ** [int(s)] on digit strings *)

Lemma is_digit_not_space a : is_digit a → is_space a = false.
Proof.
  intros [H1 H2]. unfold is_space. simpl.
  rewrite bool_decide_eq_false_2 by lia.
  rewrite (bool_decide_eq_false_2 (_ ≤ 13)%N) by lia.
  by rewrite andb_false_r.
Qed.

Lemma is_digit_val a :
  is_digit a → digit_val a = Some (Z.of_N (N_of_ascii a) - 48).
Proof.
  intros [H1 H2]. unfold digit_val. simpl.
  rewrite !bool_decide_eq_true_2 by lia. done.
Qed.

Lemma is_digit_not_sign a (c : ascii) :
  is_digit a → (N_of_ascii c < 48)%N → Ascii.eqb a c = false.
Proof.
  intros [H1 H2] Hc. apply Ascii.eqb_neq. intros ->. lia.
Qed.

Lemma lstrip_digits l : Forall is_digit l → lstrip l = l.
Proof.
  destruct 1 as [|a l Ha _]; simpl; [done|].
  by rewrite is_digit_not_space.
Qed.

Lemma strip_digits l : Forall is_digit l → strip l = l.
Proof.
  intros Hl. unfold strip. rewrite (lstrip_digits l Hl).
  rewrite lstrip_digits; [apply reverse_involutive|].
  by apply Forall_reverse.
Qed.

Lemma parse_digits_value l acc :
  Forall is_digit l →
  parse_digits acc l
  = Some (foldl (λ acc a, 10 * acc + (Z.of_N (N_of_ascii a) - 48)) acc l).
Proof.
  intros Hl. revert acc. induction Hl as [|a l Ha _ IH]; intros acc; simpl.
  - done.
  - rewrite (is_digit_val a Ha). apply IH.
Qed.

Lemma py_int_digits s :
  numeric_looking s → py_int s = Some (digits_value s).
Proof.
  intros [Hne Hd]. unfold py_int, digits_value.
  rewrite (strip_digits _ Hd).
  destruct (list_ascii_of_string s) as [|a t] eqn:Hs.
  - destruct s; [done|discriminate].
  - pose proof (Forall_inv Hd) as Ha.
    rewrite (is_digit_not_sign a "+" Ha) by (vm_compute; done).
    rewrite (is_digit_not_sign a "-" Ha) by (vm_compute; done).
    by apply parse_digits_value.
Qed.

(** ** [str2int] and the coercion of the date columns *)

Lemma str2int_PObj_raises ty :
  str2int (PObj ty) = Raise (NotImplementedError ("type s = " ++ ty)).
Proof. done. Qed.

Lemma coerce_dates_Forall2 raws rows :
  coerce_dates raws = Ok rows →
  Forall2 (λ raw r, cn_symbol r = cons_symbol raw
                    ∧ str2int (cons_in_date raw) = Ok (cn_in r)
                    ∧ str2int (cons_out_date raw) = Ok (cn_out r)) raws rows.
Proof.
  unfold coerce_dates.
  destruct (sequence (fmap _ raws)) as [ins|] eqn:Hi; [|discriminate].
  destruct (sequence (fmap (λ r, str2int (cons_out_date r)) raws)) as [outs|] eqn:Ho;
    [|discriminate].
  intros [= <-].
  apply sequence_Ok in Hi. apply sequence_Ok in Ho.
  revert outs Ho. induction Hi as [|raw i raws ins Hraw _ IH]; intros outs Ho.
  - inversion Ho. constructor.
  - inversion Ho as [|? o ? outs' Hrawo Ho']; subst. simpl.
    constructor; [done|]. by apply IH.
Qed.

Lemma coerce_dates_bad_type raws raw ty :
  raw ∈ raws →
  cons_in_date raw = PObj ty ∨ cons_out_date raw = PObj ty →
  ∃ e, coerce_dates raws = Raise e.
Proof.
  intros Hin Hbad. unfold coerce_dates.
  destruct (sequence (fmap (λ r, str2int (cons_in_date r)) raws)) as [ins|e] eqn:Hi;
    [|eauto].
  destruct Hbad as [Hbad|Hbad].
  - destruct (sequence_Raise (λ r, str2int (cons_in_date r)) raws raw
                (NotImplementedError ("type s = " ++ ty)) Hin) as [e He].
    + by rewrite Hbad.
    + congruence.
  - destruct (sequence_Raise (λ r, str2int (cons_out_date r)) raws raw
                (NotImplementedError ("type s = " ++ ty)) Hin) as [e He].
    + by rewrite Hbad.
    + rewrite He. eauto.
Qed.

Lemma get_index_comp_df_returned fetch dates :
  returned (get_index_comp_df fetch dates)
  = match coerce_dates fetch.1 with
    | Ok rows => Ok (index_comp_panel dates rows)
    | Raise e => Raise e
    end.
Proof.
  destruct fetch as [df_io msg]. unfold get_index_comp_df. simpl.
  unfold check_msg. case_bool_decide; destruct (coerce_dates df_io); done.
Qed.

(** C8 — Membership date coercion.  In [get_index_comp_df] a blank text
    becomes the far-future sentinel, which lies above every calendar date
    [YYYYMMDD]; a non-blank text made of digits is parsed as the integer
    it denotes; an integer or float passes through unchanged; a value of
    any other type raises, and the raise ends the whole query: no panel is
    returned. *)
Theorem str2int_coercion :
  str2int (PStr EmptyString) = Ok (NInt FAR_FUTURE)
  ∧ (∀ d : Z, d ≤ 99991231 → num_lt (NInt d) (NInt FAR_FUTURE) = true)
  ∧ (∀ s, numeric_looking s → str2int (PStr s) = Ok (NInt (digits_value s)))
  ∧ (∀ z, str2int (PInt z) = Ok (NInt z))
  ∧ (∀ f, str2int (PFloat f) = Ok (NFloat f))
  ∧ (∀ ty, ∃ msg, str2int (PObj ty) = Raise (NotImplementedError msg))
  ∧ (∀ fetch dates raw ty,
       raw ∈ fetch.1 →
       cons_in_date raw = PObj ty ∨ cons_out_date raw = PObj ty →
       ∃ e, returned (get_index_comp_df fetch dates) = Raise e).
Proof.
  split_and!; try done.
  - intros d Hd. simpl. apply bool_decide_eq_true. unfold FAR_FUTURE. lia.
  - intros s Hs. simpl. destruct Hs as [Hne Hd].
    rewrite bool_decide_eq_false_2 by done.
    by rewrite (py_int_digits s (conj Hne Hd)).
  - intros ty. eexists. apply str2int_PObj_raises.
  - intros fetch dates raw ty Hin Hbad.
    rewrite get_index_comp_df_returned.
    destruct (coerce_dates_bad_type _ _ _ Hin Hbad) as [e ->]. eauto.
Qed.

(** ** Labels: sorting, deduplication and column lookup *)

Lemma elem_of_sorted_unique_str l x : x ∈ sorted_unique_str l ↔ x ∈ l.
Proof.
  unfold sorted_unique_str. rewrite merge_sort_Permutation.
  apply elem_of_remove_dups.
Qed.

Lemma NoDup_sorted_unique_str l : NoDup (sorted_unique_str l).
Proof.
  unfold sorted_unique_str. rewrite merge_sort_Permutation.
  apply NoDup_remove_dups.
Qed.

Lemma Sorted_sorted_unique_str l : Sorted String.le (sorted_unique_str l).
Proof. apply Sorted_merge_sort, _. Qed.

Lemma elem_of_sorted_unique_Z l x : x ∈ sorted_unique_Z l ↔ x ∈ l.
Proof.
  unfold sorted_unique_Z. rewrite merge_sort_Permutation.
  apply elem_of_remove_dups.
Qed.

Lemma NoDup_sorted_unique_Z l : NoDup (sorted_unique_Z l).
Proof.
  unfold sorted_unique_Z. rewrite merge_sort_Permutation.
  apply NoDup_remove_dups.
Qed.

Lemma Sorted_sorted_unique_Z l : Sorted Z.le (sorted_unique_Z l).
Proof. apply Sorted_merge_sort, _. Qed.

Lemma assoc_fmap_key {A} (f : string → A) (keys : list string) (c : string) :
  c ∈ keys → assoc c ((λ k, (k, f k)) <$> keys) = Some (f c).
Proof.
  induction keys as [|k keys IH]; [by intros ?%elem_of_nil|].
  intros Hin. csimpl. case_bool_decide as Hk; [by subst|].
  apply elem_of_cons in Hin as [->|Hin]; [done|auto].
Qed.

Lemma assoc_fmap_key_None {A} (f : string → A) (keys : list string) (c : string) :
  c ∉ keys → assoc c ((λ k, (k, f k)) <$> keys) = None.
Proof.
  induction keys as [|k keys IH]; [done|].
  intros Hin. csimpl. apply not_elem_of_cons in Hin as [Hne Hin].
  rewrite bool_decide_eq_false_2 by done. auto.
Qed.

Lemma assoc_fmap_fmap_key {A B} (f : string → A) (g : A → B)
    (keys : list string) (c : string) :
  c ∈ keys →
  assoc c ((λ p, (p.1, g p.2)) <$> ((λ k, (k, f k)) <$> keys)) = Some (g (f c)).
Proof.
  induction keys as [|k keys IH]; [by intros ?%elem_of_nil|].
  intros Hin. csimpl. case_bool_decide as Hk; [by subst|].
  apply elem_of_cons in Hin as [->|Hin]; [done|auto].
Qed.

Lemma fmap_key_columns {A} (f : string → A) (keys : list string) :
  ((λ k, (k, f k)) <$> keys).*1 = keys.
Proof. rewrite <-list_fmap_compose. apply list_fmap_id. Qed.

(** ** [get_index_comp_df]: the membership masks *)

Lemma mask_set_lookup (mask : list Z) (bi : list bool) (i : nat) (m : Z) (b : bool) :
  mask !! i = Some m → bi !! i = Some b →
  mask_set mask bi !! i = Some (if b then 1 else m).
Proof.
  intros Hm Hb. unfold mask_set. rewrite lookup_zip_with, Hm, Hb. done.
Qed.

Lemma bool_index_lookup (dates : list Z) row (i : nat) d :
  dates !! i = Some d →
  bool_index dates row !! i
  = Some (num_lt (cn_in row) (NInt d) && num_lt (NInt d) (cn_out row)).
Proof. intros Hd. unfold bool_index. by rewrite list_lookup_fmap, Hd. Qed.

Lemma mask_loop_lookup (dates : list Z) df (mask : list Z) (i : nat) d m :
  dates !! i = Some d → mask !! i = Some m →
  foldl (λ mask row, mask_set mask (bool_index dates row)) mask df !! i
  = Some (if existsb (λ r, num_lt (cn_in r) (NInt d) && num_lt (NInt d) (cn_out r)) df
          then 1 else m).
Proof.
  intros Hd. revert mask m.
  induction df as [|row df IH]; intros mask m Hm; cbn [foldl existsb]; [done|].
  rewrite (IH _ (if num_lt (cn_in row) (NInt d) && num_lt (NInt d) (cn_out row)
                 then 1 else m)).
  - by destruct (num_lt (cn_in row) (NInt d) && num_lt (NInt d) (cn_out row)),
         (existsb _ df).
  - apply mask_set_lookup; [done|by apply bool_index_lookup].
Qed.

Lemma group_mask_lookup (dates : list Z) df (i : nat) d :
  dates !! i = Some d →
  group_mask dates df !! i
  = Some (if existsb (λ r, num_lt (cn_in r) (NInt d) && num_lt (NInt d) (cn_out r)) df
          then 1 else 0).
Proof.
  intros Hd. unfold group_mask. apply mask_loop_lookup; [done|].
  apply lookup_replicate_2. by eapply lookup_lt_Some.
Qed.

Lemma index_comp_panel_cell (dates : list Z) rows sec (i : nat) d :
  sec ∈ cn_symbol <$> rows → dates !! i = Some d →
  cell (index_comp_panel dates rows) sec i
  = Some (if existsb (λ r, num_lt (cn_in r) (NInt d) && num_lt (NInt d) (cn_out r))
                     (filter (λ r, cn_symbol r = sec) rows)
          then 1 else 0).
Proof.
  intros Hsec Hd. unfold cell, index_comp_panel, groupby_symbol. simpl.
  rewrite (assoc_fmap_fmap_key (λ k, filter (λ r, cn_symbol r = k) rows)
             (group_mask dates))
    by by apply elem_of_sorted_unique_str.
  by apply group_mask_lookup.
Qed.

Lemma index_comp_panel_columns dates rows :
  df_columns (index_comp_panel dates rows)
  = sorted_unique_str (cn_symbol <$> rows).
Proof.
  unfold df_columns, index_comp_panel, groupby_symbol. simpl.
  rewrite <-!list_fmap_compose. apply list_fmap_id.
Qed.

(** C1 — Interval-membership panel.  Whenever [get_index_comp_df] returns
    a panel, its row axis is the trading-date axis and, for every entity of
    the fetched rows and every date [d] of the axis, the cell is 1 or 0,
    and it is 1 exactly when some fetched record of that entity has
    [in_date < d < out_date] (both comparisons strict) on the coerced
    dates. *)
Theorem index_comp_interval_membership fetch dates res :
  returned (get_index_comp_df fetch dates) = Ok res →
  df_index res = dates
  ∧ ∀ (sec : string) (i : nat) (d : Z),
      sec ∈ cons_symbol <$> fetch.1 → dates !! i = Some d →
      ∃ v, cell res sec i = Some v
           ∧ (v = 1 ∨ v = 0)
           ∧ (v = 1 ↔ ∃ raw a b,
                 raw ∈ fetch.1 ∧ cons_symbol raw = sec
                 ∧ str2int (cons_in_date raw) = Ok a
                 ∧ str2int (cons_out_date raw) = Ok b
                 ∧ num_lt a (NInt d) = true ∧ num_lt (NInt d) b = true).
Proof.
  rewrite get_index_comp_df_returned.
  destruct (coerce_dates fetch.1) as [rows|] eqn:Hc; [|discriminate].
  intros [= <-]. split; [done|].
  apply coerce_dates_Forall2 in Hc.
  intros sec i d Hsec Hd.
  assert (sec ∈ cn_symbol <$> rows) as Hsec'.
  { apply list_elem_of_fmap in Hsec as (raw & -> & Hraw).
    apply list_elem_of_lookup in Hraw as [j Hj].
    destruct (Forall2_lookup_l _ _ _ _ _ Hc Hj) as (r & Hr & Hsym & _).
    apply list_elem_of_fmap. exists r. split; [done|].
    by eapply list_elem_of_lookup_2. }
  rewrite (index_comp_panel_cell dates rows sec i d Hsec' Hd).
  eexists. split; [done|]. split.
  { destruct (existsb _ _); auto. }
  destruct (existsb _ _) eqn:Hex.
  - split; [intros _|done].
    apply existsb_exists in Hex as (r & Hr & Hiv).
    apply list_elem_of_In, list_elem_of_filter in Hr as [Hsym Hr].
    apply andb_true_iff in Hiv as [Hlo Hhi].
    apply list_elem_of_lookup in Hr as [j Hj].
    destruct (Forall2_lookup_r _ _ _ _ _ Hc Hj) as (raw & Hraw & Hs & Hin & Hout).
    exists raw, (cn_in r), (cn_out r).
    split_and!; try done; [by eapply list_elem_of_lookup_2|congruence].
  - split; [done|]. intros (raw & a & b & Hraw & Hsym & Ha & Hb & Hlo & Hhi).
    apply list_elem_of_lookup in Hraw as [j Hj].
    destruct (Forall2_lookup_l _ _ _ _ _ Hc Hj) as (r & Hr & Hs & Hin & Hout).
    assert (existsb (λ r, num_lt (cn_in r) (NInt d) && num_lt (NInt d) (cn_out r))
              (filter (λ r, cn_symbol r = sec) rows) = true) as Hex'; [|congruence].
    apply existsb_exists. exists r. split.
    + apply list_elem_of_In, list_elem_of_filter.
      split; [congruence|by eapply list_elem_of_lookup_2].
    + assert (cn_in r = a) as -> by congruence.
      assert (cn_out r = b) as -> by congruence.
      by rewrite Hlo, Hhi.
Qed.

(** ** Frames: columns, cells and positions in an index *)

Lemma assoc_fmap_col {A B} (g : string → A → B) (l : list (string * A)) (c : string) :
  assoc c ((λ p, (p.1, g p.1 p.2)) <$> l) = g c <$> assoc c l.
Proof.
  induction l as [|[k v] l IH]; [done|]. csimpl.
  case_bool_decide; [by subst|done].
Qed.

Lemma assoc_Some_elem_of {A} (l : list (string * A)) (c : string) (v : A) :
  assoc c l = Some v → c ∈ l.*1.
Proof.
  induction l as [|[k w] l IH]; [done|]. csimpl.
  case_bool_decide; [intros _; subst; left|intros ?; right; auto].
Qed.

Lemma fmap_col_columns {A B} (g : string → A → B) (l : list (string * A)) :
  ((λ p, (p.1, g p.1 p.2)) <$> l).*1 = l.*1.
Proof. rewrite <-list_fmap_compose. by apply list_fmap_ext. Qed.

Section frame_facts.
Context {A : Type} `{Nullable A}.

Lemma df_map_cols_columns {B} (f : list A → list B) (df : DataFrame A) :
  df_columns (df_map_cols f df) = df_columns df.
Proof. apply (fmap_col_columns (λ _, f)). Qed.

Lemma df_map_cols_index {B} (f : list A → list B) (df : DataFrame A) :
  df_index (df_map_cols f df) = df_index df.
Proof. done. Qed.

Lemma df_map_cols_assoc {B} (f : list A → list B) (df : DataFrame A) c :
  assoc c (df_data (df_map_cols f df)) = f <$> assoc c (df_data df).
Proof. apply (assoc_fmap_col (λ _, f)). Qed.

Lemma reindex_columns new (df : DataFrame A) :
  df_columns (reindex new df) = df_columns df.
Proof. apply (fmap_col_columns (λ _, reindex_col (df_index df) new)). Qed.

Lemma reindex_assoc new (df : DataFrame A) c :
  assoc c (df_data (reindex new df))
  = reindex_col (df_index df) new <$> assoc c (df_data df).
Proof. apply (assoc_fmap_col (λ _, reindex_col (df_index df) new)). Qed.

Lemma df_update_columns (self other : DataFrame A) :
  df_columns (df_update self other) = df_columns self.
Proof.
  apply (fmap_col_columns
    (λ c col, zip_with (λ this that, if isnull that then this else that) col
       match assoc c (df_data other) with
       | Some col' => reindex_col (df_index other) (df_index self) col'
       | None => replicate (length (df_index self)) null
       end)).
Qed.

Lemma df_update_assoc (self other : DataFrame A) c :
  assoc c (df_data (df_update self other))
  = (λ col, zip_with (λ this that, if isnull that then this else that) col
       match assoc c (df_data other) with
       | Some col' => reindex_col (df_index other) (df_index self) col'
       | None => replicate (length (df_index self)) null
       end) <$> assoc c (df_data self).
Proof.
  apply (assoc_fmap_col
    (λ c col, zip_with (λ this that, if isnull that then this else that) col
       match assoc c (df_data other) with
       | Some col' => reindex_col (df_index other) (df_index self) col'
       | None => replicate (length (df_index self)) null
       end)).
Qed.

Lemma loc_rows_columns lo hi (df : DataFrame A) :
  df_columns (loc_rows lo hi df) = df_columns df.
Proof.
  apply (fmap_col_columns
    (λ _ col, (filter (λ p, bool_decide (lo ≤ p.1 ∧ p.1 ≤ hi))
                 (zip (df_index df) col)).*2)).
Qed.

Lemma index_pos_Some d idx j : index_pos d idx = Some j → idx !! j = Some d.
Proof.
  unfold index_pos. intros ([j' x] & Hf & ?)%fmap_Some. simplify_eq/=.
  apply list_find_Some in Hf as (? & -> & _). done.
Qed.

Lemma index_pos_None d idx : index_pos d idx = None → d ∉ idx.
Proof.
  unfold index_pos. intros Hf%fmap_None.
  rewrite list_find_None, Forall_forall in Hf. intros Hin. by eapply Hf.
Qed.

Lemma index_pos_elem_of d idx : d ∈ idx → is_Some (index_pos d idx).
Proof.
  intros Hin. unfold index_pos. apply fmap_is_Some.
  by eapply list_find_elem_of.
Qed.

Lemma index_pos_NoDup d idx j :
  NoDup idx → idx !! j = Some d → index_pos d idx = Some j.
Proof.
  intros Hnd Hj.
  destruct (index_pos_elem_of d idx) as [j' Hj'];
    [by eapply list_elem_of_lookup_2|].
  rewrite Hj'. f_equal.
  eapply NoDup_lookup; [done| |done]. by eapply index_pos_Some.
Qed.

Lemma reindex_col_lookup idx new (col : list A) i d :
  new !! i = Some d →
  reindex_col idx new col !! i
  = Some match index_pos d idx with
         | Some j => default null (col !! j)
         | None => null
         end.
Proof. intros Hd. unfold reindex_col. by rewrite list_lookup_fmap, Hd. Qed.

Lemma reindex_col_length idx new (col : list A) :
  length (reindex_col idx new col) = length new.
Proof. unfold reindex_col. by rewrite length_fmap. Qed.

(** Re-aligning a column on its own index changes nothing. *)
Lemma reindex_col_same idx (col : list A) :
  NoDup idx → length col = length idx → reindex_col idx idx col = col.
Proof.
  intros Hnd Hlen. apply list_eq. intros i.
  destruct (idx !! i) as [d|] eqn:Hd.
  - rewrite (reindex_col_lookup idx idx col i d Hd).
    rewrite (index_pos_NoDup d idx i Hnd Hd).
    destruct (col !! i) eqn:Hc; [done|].
    apply lookup_ge_None in Hc. apply lookup_lt_Some in Hd. lia.
  - apply lookup_ge_None in Hd.
    rewrite !(proj2 (lookup_ge_None _ _)); [done|lia|].
    rewrite reindex_col_length. lia.
Qed.

Lemma loc_assign_Ok idx cols (src res : DataFrame A) :
  loc_assign idx cols src = Ok res →
  df_index res = idx ∧ df_columns res = cols
  ∧ df_columns src ⊆ cols
  ∧ ∀ c, c ∈ cols →
      assoc c (df_data res)
      = Some match assoc c (df_data src) with
             | Some col => reindex_col (df_index src) idx col
             | None => replicate (length idx) null
             end.
Proof.
  unfold loc_assign. destruct (forallb _ _ && forallb _ _) eqn:Hok; [|done].
  intros [= <-]. simpl. split; [done|]. split.
  { apply (fmap_key_columns (λ c, match assoc c (df_data src) with
                                  | Some col => reindex_col (df_index src) idx col
                                  | None => replicate (length idx) null
                                  end)). }
  split.
  - apply andb_true_iff in Hok as [Hc _]. intros c Hin.
    rewrite forallb_forall in Hc.
    apply list_elem_of_In, Hc in Hin. by apply bool_decide_eq_true in Hin.
  - intros c Hc.
    by rewrite (assoc_fmap_key (λ c, match assoc c (df_data src) with
                                  | Some col => reindex_col (df_index src) idx col
                                  | None => replicate (length idx) null
                                  end)).
Qed.
End frame_facts.

(** ** Forward fill and backward fill *)

Section fill_facts.
Context {A : Type} `{Nullable A}.

Lemma ffill_from_length last (col : list A) :
  length (ffill_from last col) = length col.
Proof. revert last. induction col; intros; simpl; auto. Qed.

Lemma ffill_length (col : list A) : length (ffill col) = length col.
Proof. apply ffill_from_length. Qed.

Lemma ffill_from_lookup_0 last (col : list A) x :
  col !! 0%nat = Some x →
  ffill_from last col !! 0%nat = Some (if isnull x then last else x).
Proof. destruct col; simpl; [done|]. by intros [= ->]. Qed.

(** Below the first row a filled cell is the raw value when there is
    one, the filled cell above otherwise. *)
Lemma ffill_from_lookup_S last (col : list A) i x :
  col !! S i = Some x →
  ∃ p, ffill_from last col !! i = Some p
       ∧ ffill_from last col !! S i = Some (if isnull x then p else x).
Proof.
  revert last col. induction i as [|i IH]; intros last [|y col] Hx; try done.
  - simpl in *. eexists. split; [done|].
    by apply ffill_from_lookup_0.
  - simpl in Hx. destruct (IH (if isnull y then last else y) col Hx)
      as (p & Hp & HS).
    exists p. by split.
Qed.

Lemma ffill_from_lookup_notnull last (col : list A) i x :
  col !! i = Some x → isnull x = false → ffill_from last col !! i = Some x.
Proof.
  revert last col. induction i as [|i IH]; intros last [|y col] Hx Hn; try done.
  - simpl in *. injection Hx as ->. by rewrite Hn.
  - simpl in *. by apply IH.
Qed.

(** From the first filled raw cell on, the forward fill has no gap. *)
Lemma ffill_from_notnull_after last (col : list A) j x i :
  col !! j = Some x → isnull x = false → (j ≤ i < length col)%nat →
  ∃ p, ffill_from last col !! i = Some p ∧ isnull p = false.
Proof.
  intros Hj Hn [Hle Hlt]. induction i as [|i IH].
  - assert (j = 0%nat) as -> by lia. exists x.
    split; [|done]. by apply ffill_from_lookup_notnull.
  - destruct (decide (j = S i)) as [->|Hne].
    { exists x. split; [|done]. by apply ffill_from_lookup_notnull. }
    destruct IH as (p & Hp & Hpn); [lia..|].
    destruct (lookup_lt_is_Some_2 col (S i) Hlt) as [y Hy].
    destruct (ffill_from_lookup_S last col i y Hy) as (p' & Hp' & HS).
    rewrite Hp in Hp'. injection Hp' as <-.
    rewrite HS. eexists. split; [done|].
    destruct (isnull y) eqn:Hyn; done.
Qed.

Lemma bfill_length (col : list A) : length (bfill col) = length col.
Proof. induction col; simpl; auto. Qed.

Lemma bfill_lookup_notnull (col : list A) i x :
  col !! i = Some x → isnull x = false → bfill col !! i = Some x.
Proof.
  revert col. induction i as [|i IH]; intros [|y col] Hx Hn; try done.
  - simpl in *. injection Hx as ->. by rewrite Hn.
  - simpl in *. by apply IH.
Qed.




End fill_facts.

(** ** IEEE facts used by the ratio transform *)

Lemma SFcompare_refl (s : spec_float) : s ≠ S754_nan → SFcompare s s = Some Eq.
Proof.
  destruct s as [b|b| |b m e]; intros Hs; simpl; try done.
  - by destruct b.
  - rewrite Z.compare_refl, Pos.compare_cont_refl. by destruct b.
Qed.

Lemma is_nan_spec (x : float) : PrimFloat.is_nan x = true ↔ Prim2SF x = S754_nan.
Proof.
  unfold PrimFloat.is_nan. rewrite FloatAxioms.eqb_spec. unfold SFeqb. split.
  - intros Hx. destruct (Prim2SF x) as [b|b| |b m e]; [..|done|];
      by rewrite SFcompare_refl in Hx.
  - by intros ->.
Qed.

(** A quotient whose denominator is NaN is NaN. *)
Lemma div_nan_r (x y : float) :
  PrimFloat.is_nan y = true → PrimFloat.is_nan (x / y) = true.
Proof.
  rewrite !is_nan_spec, div_spec. intros ->. unfold SF64div, SFdiv.
  by destruct (Prim2SF x).
Qed.

(** A quotient whose numerator is NaN is NaN. *)
Lemma div_nan_l (x y : float) :
  PrimFloat.is_nan x = true → PrimFloat.is_nan (x / y) = true.
Proof.
  rewrite !is_nan_spec, div_spec. intros ->. done.
Qed.

(** ** The ratio transform on one column *)

Lemma shift1_length (col : list float) : length (shift1 col) = length col.
Proof.
  destruct col as [|x col]; [done|]. unfold shift1.
  cbn [length pred]. rewrite length_take. simpl. lia.
Qed.

Lemma shift1_lookup_0 (col : list float) x :
  col !! 0%nat = Some x → shift1 col !! 0%nat = Some PrimFloat.nan.
Proof. by destruct col. Qed.

Lemma shift1_lookup_S (col : list float) i x :
  col !! S i = Some x → shift1 col !! S i = col !! i.
Proof.
  intros Hx. destruct col as [|y col]; [done|]. unfold shift1.
  cbn [length pred]. rewrite lookup_cons. apply lookup_take_lt.
  apply lookup_lt_Some in Hx. simpl in Hx. lia.
Qed.

Lemma div_shift_lookup_0 (col : list float) x :
  col !! 0%nat = Some x → div_shift col !! 0%nat = Some 1%float.
Proof.
  intros Hx. unfold div_shift, fillna.
  rewrite list_lookup_fmap, lookup_zip_with, Hx, (shift1_lookup_0 col x Hx).
  simpl. by rewrite div_nan_r.
Qed.

Lemma div_shift_lookup_S (col : list float) i cur prev :
  col !! S i = Some cur → col !! i = Some prev →
  div_shift col !! S i
  = Some (if PrimFloat.is_nan (cur / prev) then 1%float else (cur / prev)%float).
Proof.
  intros Hc Hp. unfold div_shift, fillna.
  rewrite list_lookup_fmap, lookup_zip_with, Hc, (shift1_lookup_S col i cur Hc), Hp.
  done.
Qed.

(** ** Sorted lists, the calendar and [drop_duplicates] *)

Lemma StronglySorted_filter {A} (R : relation A) (P : A → Prop)
    `{∀ x, Decision (P x)} (l : list A) :
  StronglySorted R l → StronglySorted R (filter P l).
Proof.
  induction 1 as [|x l Hl IH Hx]; [constructor|].
  rewrite filter_cons. case_decide; [|done].
  constructor; [done|]. apply Forall_forall. intros y [_ Hy]%list_elem_of_filter.
  rewrite Forall_forall in Hx. auto.
Qed.

Lemma StronglySorted_lt_le (l : list Z) :
  StronglySorted Z.lt l → StronglySorted Z.le l.
Proof.
  induction 1 as [|x l Hl IH Hx]; constructor; [done|].
  eapply Forall_impl; [done|]. intros; simpl in *; lia.
Qed.

Lemma trade_date_range_sorted cal s e :
  Sorted Z.lt cal → StronglySorted Z.lt (get_trade_date_range cal s e).
Proof.
  intros Hs. apply StronglySorted_filter, Sorted_StronglySorted; [apply _|done].
Qed.

Lemma elem_of_trade_date_range cal s e d :
  d ∈ get_trade_date_range cal s e ↔ (s ≤ d ∧ d ≤ e) ∧ d ∈ cal.
Proof. unfold get_trade_date_range. by rewrite list_elem_of_filter. Qed.

(** A duplicate-free list of trading dates of a range that is as long as
    the range is the range. *)
Lemma sorted_unique_eq_range cal s e (dates : list Z) :
  Sorted Z.lt cal →
  (∀ d, d ∈ dates → d ∈ get_trade_date_range cal s e) →
  length (get_trade_date_range cal s e) = length (sorted_unique_Z dates) →
  sorted_unique_Z dates = get_trade_date_range cal s e.
Proof.
  intros Hcal Hin Hlen.
  apply (Sorted_unique Z.le).
  - apply Sorted_sorted_unique_Z.
  - apply StronglySorted_Sorted, StronglySorted_lt_le.
    by apply trade_date_range_sorted.
  - apply submseteq_length_Permutation; [|lia].
    apply NoDup_submseteq; [apply NoDup_sorted_unique_Z|].
    intros d Hd. apply Hin. by apply (proj1 (elem_of_sorted_unique_Z _ _)).
Qed.

Lemma list_min_le x (l : list Z) d : d ∈ l → list_min x l ≤ d.
Proof.
  induction 1 as [d l|d y l _ IH]; simpl; [apply Z.le_min_l|].
  etrans; [apply Z.le_min_r|done].
Qed.

Lemma list_max_ge x (l : list Z) d : d ∈ l → d ≤ list_max x l.
Proof.
  induction 1 as [d l|d y l _ IH]; simpl; [apply Z.le_max_l|].
  etrans; [done|apply Z.le_max_r].
Qed.

Lemma list_min_elem_of x (l : list Z) : list_min x l ∈ x :: l.
Proof.
  induction l as [|y l IH]; simpl; [left|].
  destruct (Z.min_spec y (list_min x l)) as [[_ ->]|[_ ->]].
  - right; left.
  - apply elem_of_cons in IH as [->|IH]; [left|right; by right].
Qed.

Lemma list_max_elem_of x (l : list Z) : list_max x l ∈ x :: l.
Proof.
  induction l as [|y l IH]; simpl; [left|].
  destruct (Z.max_spec y (list_max x l)) as [[_ ->]|[_ ->]].
  - apply elem_of_cons in IH as [->|IH]; [left|right; by right].
  - right; left.
Qed.

Lemma drop_duplicates_aux_elem_of {A} (same : A → A → bool) (seen l : list A) x :
  x ∈ drop_duplicates_aux same seen l → x ∈ l.
Proof.
  revert seen. induction l as [|y l IH]; intros seen; simpl; [done|].
  destruct (existsb (same y) seen).
  - intros ?%IH. by right.
  - intros [->|?%IH]%elem_of_cons; [left|by right].
Qed.

(** Every row survives [drop_duplicates] up to the sameness test. *)
Lemma drop_duplicates_aux_complete {A} (same : A → A → bool) (seen l : list A) x :
  x ∈ l →
  (∃ y, y ∈ drop_duplicates_aux same seen l ∧ (y = x ∨ same x y = true))
  ∨ (∃ y, y ∈ seen ∧ same x y = true).
Proof.
  revert seen. induction l as [|z l IH]; intros seen; [by intros ?%elem_of_nil|].
  intros [->|Hin]%elem_of_cons; simpl.
  - destruct (existsb (same z) seen) eqn:Hex.
    + right. apply existsb_exists in Hex as (y & Hy & Hs).
      exists y. split; [by apply list_elem_of_In|done].
    + left. exists z. split; [left|by left].
  - destruct (existsb (same z) seen) eqn:Hex.
    + apply IH, Hin.
    + destruct (IH (z :: seen) Hin) as [(y & Hy & Hs)|(y & Hy & Hs)].
      * left. exists y. split; [by right|done].
      * apply elem_of_cons in Hy as [->|Hy].
        -- left. exists z. split; [left|by right].
        -- right. eauto.
Qed.

Lemma drop_duplicates_adj_dates (rows : list adj_row) d :
  d ∈ adj_trade_date <$> drop_duplicates adj_row_same rows
  ↔ d ∈ adj_trade_date <$> rows.
Proof.
  rewrite !list_elem_of_fmap. split.
  - intros (r & -> & Hr). exists r. split; [done|].
    by eapply drop_duplicates_aux_elem_of.
  - intros (r & -> & Hr).
    destruct (drop_duplicates_aux_complete adj_row_same [] rows r Hr)
      as [(y & Hy & Hs)|(y & Hy & _)]; [|by apply elem_of_nil in Hy].
    exists y. split; [|done]. destruct Hs as [->|Hs]; [done|].
    unfold adj_row_same in Hs.
    apply andb_true_iff in Hs as [Hs _]. apply andb_true_iff in Hs as [_ Hs].
    by apply bool_decide_eq_true in Hs.
Qed.

(** ** [get_adj_factor_daily]: the placed panel and its alignment *)

Lemma adj_lookup_no_record (rows : list adj_row) c d :
  (∀ r, r ∈ rows → ¬ (adj_symbol r = c ∧ adj_trade_date r = d)) →
  adj_lookup rows c d = PrimFloat.nan.
Proof.
  intros Hno. unfold adj_lookup.
  destruct (last (filter _ rows)) as [r|] eqn:Hl; [|done].
  apply last_Some_elem_of, list_elem_of_filter in Hl as [Hkey Hr].
  by destruct (Hno r).
Qed.


Lemma adj_get_returned query cal symbol start_date end_date div :
  returned (get_adj_factor_daily query cal symbol start_date end_date div)
  = match adj_align cal symbol
            (drop_duplicates adj_row_same (query symbol start_date end_date).1) with
    | Ok r => Ok (if div then df_map_cols div_shift r else r)
    | Raise e => Raise e
    end.
Proof.
  unfold get_adj_factor_daily, get_adj_factor_raw.
  destruct (query symbol start_date end_date) as [rows msg]. simpl.
  unfold check_msg. case_bool_decide; simpl; destruct (adj_align _ _ _); done.
Qed.

(** The frame built by [res_final.loc[res.index, res.columns] = res]:
    every requested symbol is a column and holds, on each observed trade
    date, the factor recorded for it there (NaN when there is none). *)
Lemma adj_placed (rows : list adj_row) cols placed :
  loc_assign (adj_idx rows) cols (adj_concat rows) = Ok placed →
  df_index placed = adj_idx rows ∧ df_columns placed = cols
  ∧ (∀ r, r ∈ rows → adj_symbol r ∈ cols)
  ∧ ∀ c, c ∈ cols →
      assoc c (df_data placed) = Some (adj_lookup rows c <$> adj_idx rows).
Proof.
  intros (Hidx & Hcols & Hsub & Hcell)%loc_assign_Ok.
  split_and!; [done..| |].
  - intros r Hr. apply Hsub. unfold df_columns, adj_concat. simpl.
    rewrite (fmap_key_columns (λ sec, adj_lookup rows sec <$> adj_idx rows)).
    apply elem_of_sorted_unique_str, list_elem_of_fmap. eauto.
  - intros c Hc. rewrite (Hcell c Hc). f_equal.
    unfold adj_concat. simpl.
    destruct (decide (c ∈ sorted_unique_str (adj_symbol <$> rows))) as [Hin|Hout].
    + rewrite (assoc_fmap_key (λ sec, adj_lookup rows sec <$> adj_idx rows)) by done.
      apply reindex_col_same; [apply NoDup_sorted_unique_Z|by rewrite length_fmap].
    + rewrite (assoc_fmap_key_None (λ sec, adj_lookup rows sec <$> adj_idx rows))
        by done.
      symmetry. apply const_fmap. intros _ d _. apply adj_lookup_no_record.
      intros r Hr [Hs _]. apply Hout, elem_of_sorted_unique_str, list_elem_of_fmap.
      eauto.
Qed.

(** Re-aligning a placed column on the calendar span keeps the recorded
    factors and leaves NaN on the dates without record. *)
Lemma adj_reindex_col (rows : list adj_row) c span :
  reindex_col (adj_idx rows) span (adj_lookup rows c <$> adj_idx rows)
  = adj_lookup rows c <$> span.
Proof.
  apply list_eq. intros i. rewrite list_lookup_fmap.
  destruct (span !! i) as [d|] eqn:Hd; simpl.
  - rewrite (reindex_col_lookup _ _ _ i d Hd). f_equal.
    destruct (index_pos d (adj_idx rows)) as [j|] eqn:Hj.
    + apply index_pos_Some in Hj. by rewrite list_lookup_fmap, Hj.
    + apply index_pos_None in Hj. symmetry. apply adj_lookup_no_record.
      intros r Hr [_ Hdate]. apply Hj, elem_of_sorted_unique_Z, list_elem_of_fmap.
      eauto.
  - apply lookup_ge_None. rewrite reindex_col_length. by apply lookup_ge_None.
Qed.

Lemma adj_align_Ok cal symbol (rows : list adj_row) res :
  adj_align cal symbol rows = Ok res →
  ∃ lo hi placed,
    lo ∈ adj_trade_date <$> rows ∧ hi ∈ adj_trade_date <$> rows
    ∧ (∀ d, d ∈ adj_trade_date <$> rows → lo ≤ d ∧ d ≤ hi)
    ∧ loc_assign (adj_idx rows) (symbol_arr symbol) (adj_concat rows) = Ok placed
    ∧ res = if bool_decide (length (get_trade_date_range cal lo hi)
                            ≠ length (adj_idx rows))
            then df_map_cols bfill
                   (df_map_cols ffill (reindex (get_trade_date_range cal lo hi) placed))
            else placed.
Proof.
  unfold adj_align. destruct rows as [|r0 rows']; [done|].
  set (rows := r0 :: rows').
  case_bool_decide as Hjoin; [|done].
  destruct (loc_assign _ _ _) as [placed|] eqn:Hp; [|done].
  intros Hres.
  exists (list_min (adj_trade_date r0) (adj_trade_date <$> rows)),
         (list_max (adj_trade_date r0) (adj_trade_date <$> rows)), placed.
  split_and!.
  - pose proof (list_min_elem_of (adj_trade_date r0) (adj_trade_date <$> rows)) as Hm.
    apply elem_of_cons in Hm as [->|Hm]; [left|done].
  - pose proof (list_max_elem_of (adj_trade_date r0) (adj_trade_date <$> rows)) as Hm.
    apply elem_of_cons in Hm as [->|Hm]; [left|done].
  - intros d Hd. split; [by apply list_min_le|by apply list_max_ge].
  - done.
  - destruct (adj_placed rows _ placed Hp) as (Hidx & _).
    rewrite Hidx in Hres. by case_bool_decide; injection Hres as <-.
Qed.

Lemma adj_align_columns cal symbol (rows : list adj_row) res :
  adj_align cal symbol rows = Ok res → df_columns res = symbol_arr symbol.
Proof.
  intros (lo & hi & placed & _ & _ & _ & Hp & ->)%adj_align_Ok.
  destruct (adj_placed rows _ placed Hp) as (_ & Hcols & _).
  case_bool_decide; [|done].
  by rewrite !df_map_cols_columns, reindex_columns.
Qed.

(** When every observed trade date is a trading date of the calendar, the
    row axis is the calendar span between the extreme observed dates,
    whichever branch was taken. *)
Lemma adj_align_index cal symbol (rows : list adj_row) res :
  Sorted Z.lt cal →
  (∀ d, d ∈ adj_trade_date <$> rows → d ∈ cal) →
  adj_align cal symbol rows = Ok res →
  ∃ lo hi,
    lo ∈ adj_trade_date <$> rows ∧ hi ∈ adj_trade_date <$> rows
    ∧ (∀ d, d ∈ adj_trade_date <$> rows → lo ≤ d ∧ d ≤ hi)
    ∧ df_index res = get_trade_date_range cal lo hi.
Proof.
  intros Hcal Hin (lo & hi & placed & Hlo & Hhi & Hb & Hp & ->)%adj_align_Ok.
  exists lo, hi. split_and!; [done..|].
  destruct (adj_placed rows _ placed Hp) as (Hidx & _).
  case_bool_decide as Hlen; [done|].
  rewrite Hidx. apply sorted_unique_eq_range; [done| |].
  - intros d Hd. apply elem_of_trade_date_range. auto.
  - destruct (decide (length (get_trade_date_range cal lo hi)
                      = length (adj_idx rows))); [done|by destruct Hlen].
Qed.


(** C9 — The row axis ignores the requested window (as the code has it).
    For a strictly increasing calendar that holds every observed trade
    date, the panel of
    [get_adj_factor_daily] has as row axis the trading dates from the
    smallest to the largest observed trade date; [start_date] and
    [end_date] only reach the remote query, so every observed date is a row
    and a record outside the requested window puts a row outside it. *)
Theorem adj_factor_row_axis query cal symbol start_date end_date div res :
  Sorted Z.lt cal →
  (∀ r, r ∈ (query symbol start_date end_date).1 → adj_trade_date r ∈ cal) →
  returned (get_adj_factor_daily query cal symbol start_date end_date div) = Ok res →
  (∃ lo hi,
     lo ∈ adj_trade_date <$> (query symbol start_date end_date).1
     ∧ hi ∈ adj_trade_date <$> (query symbol start_date end_date).1
     ∧ (∀ r, r ∈ (query symbol start_date end_date).1 →
          lo ≤ adj_trade_date r ∧ adj_trade_date r ≤ hi)
     ∧ df_index res = get_trade_date_range cal lo hi)
  ∧ (∀ r, r ∈ (query symbol start_date end_date).1 → adj_trade_date r ∈ df_index res)
  ∧ (∀ r, r ∈ (query symbol start_date end_date).1 →
       ¬ (start_date ≤ adj_trade_date r ∧ adj_trade_date r ≤ end_date) →
       ∃ d, d ∈ df_index res ∧ ¬ (start_date ≤ d ∧ d ≤ end_date)).
Proof.
  intros Hcal Hin. rewrite adj_get_returned.
  set (raw := (query symbol start_date end_date).1) in *.
  destruct (adj_align cal symbol (drop_duplicates adj_row_same raw)) as [r|] eqn:Ha;
    [|done].
  intros Hres.
  assert (df_index res = df_index r) as Hi.
  { injection Hres as <-. by destruct div. }
  destruct (adj_align_index cal symbol (drop_duplicates adj_row_same raw) r Hcal)
    as (lo & hi & Hlo & Hhi & Hb & Hidx); [|done|].
  { intros d Hd. apply (proj1 (drop_duplicates_adj_dates _ _)) in Hd.
    apply list_elem_of_fmap in Hd as (r' & -> & Hr'). by apply Hin. }
  apply (proj1 (drop_duplicates_adj_dates _ _)) in Hlo.
  apply (proj1 (drop_duplicates_adj_dates _ _)) in Hhi.
  assert (∀ r', r' ∈ raw → lo ≤ adj_trade_date r' ∧ adj_trade_date r' ≤ hi) as Hb'.
  { intros r' Hr'. apply Hb, (proj2 (drop_duplicates_adj_dates _ _)),
      list_elem_of_fmap. eauto. }
  assert (∀ r', r' ∈ raw → adj_trade_date r' ∈ df_index res) as Hrows.
  { intros r' Hr'. rewrite Hi, Hidx. apply elem_of_trade_date_range. auto. }
  split_and!.
  - exists lo, hi. split_and!; [done..|congruence].
  - done.
  - intros r' Hr' Hout. exists (adj_trade_date r'). auto.
Qed.

(** C2 — Adjustment-ratio transform (as the code has it).  With
    [div=True] the panel has the axes of the absolute panel; its first row
    is 1.0; below, each cell is the IEEE quotient of the absolute factor by
    the factor of the row above, replaced by 1.0 exactly when that quotient
    is NaN, which is the case whenever the denominator or the numerator is
    unfilled. *)
Theorem adj_factor_ratio query cal symbol start_date end_date abs :
  returned (get_adj_factor_daily query cal symbol start_date end_date false) = Ok abs →
  ∃ ratio,
    returned (get_adj_factor_daily query cal symbol start_date end_date true) = Ok ratio
    ∧ df_index ratio = df_index abs
    ∧ df_columns ratio = df_columns abs
    ∧ ∀ c : string,
        (∀ x, cell abs c 0 = Some x → cell ratio c 0 = Some 1%float)
        ∧ (∀ (i : nat) cur prev,
             cell abs c (S i) = Some cur → cell abs c i = Some prev →
             cell ratio c (S i)
             = Some (if PrimFloat.is_nan (cur / prev) then 1%float
                     else (cur / prev)%float))
        ∧ (∀ (i : nat) cur prev,
             cell abs c (S i) = Some cur → cell abs c i = Some prev →
             PrimFloat.is_nan prev = true ∨ PrimFloat.is_nan cur = true →
             cell ratio c (S i) = Some 1%float).
Proof.
  rewrite !adj_get_returned.
  destruct (adj_align _ _ _) as [r|]; [|done]. intros [= <-].
  exists (df_map_cols div_shift r).
  split_and!; [done|done|apply df_map_cols_columns|].
  intros c. unfold cell. rewrite df_map_cols_assoc.
  destruct (assoc c (df_data r)) as [col|]; simpl; [|done].
  assert (∀ (i : nat) cur prev, col !! S i = Some cur → col !! i = Some prev →
            div_shift col !! S i
            = Some (if PrimFloat.is_nan (cur / prev) then 1%float
                    else (cur / prev)%float)) as HS
    by (intros; by apply div_shift_lookup_S).
  split_and!.
  - intros x Hx. by eapply div_shift_lookup_0.
  - done.
  - intros i cur prev Hc Hp Hnan. rewrite (HS i cur prev Hc Hp).
    destruct Hnan as [Hn|Hn]; [by rewrite div_nan_r|by rewrite div_nan_l].
Qed.

(** ** [get_index_weights_daily]: the snapshot loop *)

Section weights_loop_facts.
Context (query : string → Z → list weight_row * string) (next : Z → Z)
        (index : string).

(** The snapshot fetched for a date. *)
Let snap (td : Z) : list weight_row := (query (index_code index) td).1.

Let record := loop_record query index.

Lemma get_index_weights_returned td :
  returned (get_index_weights query index td) = Ok (snap td).
Proof.
  unfold get_index_weights, snap. destruct (query _ td) as [df msg]. simpl.
  unfold check_msg. by case_bool_decide.
Qed.

Lemma weights_loop_Some end_date fuel td st m :
  weights_loop query next index end_date fuel td st = Some m →
  returned m = Ok (foldl record st (snapshot_dates next end_date fuel td)).
Proof.
  revert td st m. induction fuel as [|fuel IH]; intros td st m; simpl.
  - case_bool_decide; [|done]. by intros [= <-].
  - case_bool_decide; [by intros [= <-]|].
    pose proof (get_index_weights_returned td) as Hg.
    destruct (get_index_weights query index td) as [out [df|e]];
      simpl in Hg; [|done]. injection Hg as ->.
    unfold mbind, io_mbind, io_bind, mret, io_mret, io_ret. simpl.
    destruct (weights_loop query next index end_date fuel (next td) _)
      as [[out' r]|] eqn:Hl; [|done].
    intros [= <-]. simpl. by apply IH in Hl.
Qed.

Lemma weights_loop_terminates end_date fuel td st :
  (∀ td, td < next td) → (Z.to_nat (end_date - td + 1) ≤ fuel)%nat →
  is_Some (weights_loop query next index end_date fuel td st).
Proof.
  intros Hnext. revert td st. induction fuel as [|fuel IH]; intros td st Hf; simpl.
  - rewrite bool_decide_eq_true_2 by lia. eauto.
  - case_bool_decide; [eauto|].
    pose proof (get_index_weights_returned td) as Hg.
    destruct (get_index_weights query index td) as [out [df|e]];
      simpl in Hg; [|done].
    unfold mbind, io_mbind, io_bind, mret, io_mret, io_ret. simpl.
    destruct (IH (next td) (<[td:=df]> st.1, st.2 ∪ list_to_set (w_symbol <$> df)))
      as [[out' r] ->]; [|eauto].
    pose proof (Hnext td). lia.
Qed.

Lemma snapshot_date_le s e d : snapshot_date next s e d → s ≤ e.
Proof. by induction 1. Qed.

Lemma snapshot_date_inv s e d :
  snapshot_date next s e d → d = s ∨ snapshot_date next (next s) e d.
Proof.
  induction 1 as [|td Htd IH Hle]; [by left|]. right.
  destruct IH as [->|IH]; [by constructor|by constructor].
Qed.

Lemma snapshot_date_shift s e d :
  s ≤ e → snapshot_date next (next s) e d → snapshot_date next s e d.
Proof.
  intros Hse. induction 1 as [Hle|td Htd IH Hle].
  - apply snapshot_next; [by constructor|done].
  - by apply snapshot_next.
Qed.

(** When the loop reached its [break], the list holds every snapshot
    date. *)
Lemma elem_of_snapshot_dates end_date fuel td st d :
  is_Some (weights_loop query next index end_date fuel td st) →
  d ∈ snapshot_dates next end_date fuel td ↔ snapshot_date next td end_date d.
Proof.
  revert td st. induction fuel as [|fuel IH]; intros td st; simpl.
  - case_bool_decide as Hgt; [|by intros [? ?]]. intros _. split.
    + by intros ?%elem_of_nil.
    + intros Hs%snapshot_date_le. lia.
  - case_bool_decide as Hgt.
    { intros _. split; [by intros ?%elem_of_nil|].
      intros Hs%snapshot_date_le. lia. }
    pose proof (get_index_weights_returned td) as Hg.
    destruct (get_index_weights query index td) as [out [df|e]];
      simpl in Hg; [|done].
    unfold mbind, io_mbind, io_bind, mret, io_mret, io_ret. simpl.
    destruct (weights_loop query next index end_date fuel (next td) _)
      as [[out' r]|] eqn:Hl; [|by intros [? ?]].
    intros _. rewrite elem_of_cons, (IH (next td) _) by (by rewrite Hl).
    split.
    + intros [->|Hs]; [constructor; lia|]. apply snapshot_date_shift; [lia|done].
    + apply snapshot_date_inv.
Qed.

Lemma loop_state_lookup st tds d :
  (foldl record st tds).1 !! d
  = if decide (d ∈ tds) then Some (snap d) else st.1 !! d.
Proof.
  revert st. induction tds as [|td tds IH]; intros st; cbn [foldl].
  - destruct (decide (d ∈ [])) as [Hin|]; [by apply elem_of_nil in Hin|done].
  - rewrite IH. destruct (decide (d ∈ tds)) as [Hin|Hout].
    + destruct (decide (d ∈ td :: tds)) as [|Hout]; [done|].
      destruct Hout. by right.
    + unfold record at 1, loop_record. cbn [fst].
      destruct (decide (d ∈ td :: tds)) as [Hin|Hout'].
      * apply elem_of_cons in Hin as [->|Hin]; [|done].
        by rewrite lookup_insert_eq.
      * rewrite lookup_insert_ne; [done|]. intros ->. apply Hout'. left.
Qed.

Lemma loop_state_symbols st tds c :
  c ∈ (foldl record st tds).2
  ↔ c ∈ st.2 ∨ ∃ td, td ∈ tds ∧ c ∈ w_symbol <$> snap td.
Proof.
  revert st. induction tds as [|td tds IH]; intros st; cbn [foldl].
  - split; [by left|]. intros [?|(td & ?%elem_of_nil & _)]; done.
  - rewrite IH. unfold record at 1, loop_record. cbn [snd].
    rewrite elem_of_union, elem_of_list_to_set. split.
    + intros [[?|?]|(td' & ? & ?)]; [by left|right..].
      * exists td. split; [left|done].
      * exists td'. split; [by right|done].
    + intros [?|(td' & [->|?]%elem_of_cons & ?)].
      * left; by left.
      * left; by right.
      * right. eauto.
Qed.
End weights_loop_facts.

(** ** [get_index_weights_daily]: from the snapshots to the panel *)

Lemma filter_all {A} (P : A → Prop) `{∀ x, Decision (P x)} (l : list A) :
  Forall P l → filter P l = l.
Proof.
  induction 1 as [|x l Hx _ IH]; [done|].
  rewrite filter_cons, decide_True by done. by f_equal.
Qed.

Lemma loc_rows_index {A} lo hi (df : DataFrame A) :
  (∀ d, d ∈ df_index df → lo ≤ d ∧ d ≤ hi) →
  df_index (loc_rows lo hi df) = df_index df.
Proof.
  intros Hall. unfold loc_rows. simpl. apply filter_all, Forall_forall.
  intros d Hd. apply bool_decide_pack. auto.
Qed.

Lemma loc_rows_cell {A} lo hi (df : DataFrame A) c (i : nat) :
  (∀ d, d ∈ df_index df → lo ≤ d ∧ d ≤ hi) →
  (i < length (df_index df))%nat →
  cell (loc_rows lo hi df) c i = cell df c i.
Proof.
  intros Hall Hi. unfold cell, loc_rows. simpl.
  rewrite (assoc_fmap_col
             (λ _ col, (filter (λ p, bool_decide (lo ≤ p.1 ∧ p.1 ≤ hi))
                          (zip (df_index df) col)).*2)).
  destruct (assoc c (df_data df)) as [col|]; simpl; [|done].
  rewrite filter_all.
  - rewrite list_lookup_fmap, (lookup_zip_with pair).
    destruct (lookup_lt_is_Some_2 _ _ Hi) as [d ->]. simpl.
    by destruct (col !! i).
  - apply Forall_forall. intros [d x] Hin. apply bool_decide_pack. simpl.
    apply Hall. apply list_elem_of_lookup in Hin as [j Hj].
    apply (lookup_zip_with_Some pair) in Hj as (d' & x' & [= <- <-] & Hd & _).
    by eapply list_elem_of_lookup_2.
Qed.

Lemma fill0_notnull x : PrimFloat.is_nan (fill0 x) = false.
Proof. unfold fill0. by destruct (PrimFloat.is_nan x) eqn:Hx. Qed.

Lemma weight_lookup_absent (df : list weight_row) c :
  c ∉ w_symbol <$> df → weight_lookup df c = PrimFloat.nan.
Proof.
  intros Hc. unfold weight_lookup.
  destruct (list_find _ df) as [[i r]|] eqn:Hf; [|done].
  apply list_find_Some in Hf as (Hi & Hr & _). destruct Hc.
  apply list_elem_of_fmap. exists r. split; [done|by eapply list_elem_of_lookup_2].
Qed.

Lemma weights_merge_index (dic : gmap Z (list weight_row)) d :
  d ∈ df_index (weights_merge dic) ↔ is_Some (dic !! d).
Proof.
  unfold weights_merge. simpl.
  by rewrite merge_sort_Permutation, elem_of_elements, elem_of_dom.
Qed.

Lemma weights_merge_columns (dic : gmap Z (list weight_row)) c :
  c ∈ df_columns (weights_merge dic)
  ↔ ∃ td df, dic !! td = Some df ∧ c ∈ w_symbol <$> df.
Proof.
  unfold df_columns, weights_merge. simpl.
  rewrite (fmap_key_columns (λ c, (λ td, weight_lookup (default [] (dic !! td)) c)
                                   <$> merge_sort Z.le (elements (dom dic)))).
  rewrite elem_of_sorted_unique_str, list_elem_of_bind. split.
  - intros (td & Hc & Htd).
    rewrite merge_sort_Permutation, elem_of_elements, elem_of_dom in Htd.
    destruct Htd as [df Hdf]. rewrite Hdf in Hc. eauto.
  - intros (td & df & Hdf & Hc). exists td. rewrite Hdf. split; [done|].
    rewrite merge_sort_Permutation, elem_of_elements, elem_of_dom. eauto.
Qed.

Lemma weights_merge_assoc (dic : gmap Z (list weight_row)) c :
  c ∈ df_columns (weights_merge dic) →
  assoc c (df_data (weights_merge dic))
  = Some ((λ td, weight_lookup (default [] (dic !! td)) c)
            <$> df_index (weights_merge dic)).
Proof.
  unfold df_columns, weights_merge. simpl.
  rewrite (fmap_key_columns (λ c, (λ td, weight_lookup (default [] (dic !! td)) c)
                                   <$> merge_sort Z.le (elements (dom dic)))).
  intros Hc.
  by rewrite (assoc_fmap_key (λ c, (λ td, weight_lookup (default [] (dic !! td)) c)
                                   <$> merge_sort Z.le (elements (dom dic)))).
Qed.

(** The frame after [res.update(merge)]: a snapshot row holds the weight
    of each symbol of the universe, 0.0 for a symbol the snapshot does not
    list; every other row is still unfilled. *)
Lemma weights_updated_col (dic : gmap Z (list weight_row)) (syms : gset string)
    (trade_dates : list Z) c :
  c ∈ sorted_symbols syms →
  (∀ c, c ∈ syms ↔ ∃ td df, dic !! td = Some df ∧ c ∈ w_symbol <$> df) →
  assoc c (df_data (df_update (df_full trade_dates (sorted_symbols syms) PrimFloat.nan)
                      (df_map_cols (fillna 0%float) (weights_merge dic))))
  = Some ((λ d, match dic !! d with
                | Some df => fill0 (weight_lookup df c)
                | None => PrimFloat.nan
                end) <$> trade_dates).
Proof.
  intros Hc Hsyms.
  assert (c ∈ df_columns (weights_merge dic)) as Hcm.
  { apply weights_merge_columns, Hsyms.
    unfold sorted_symbols in Hc.
    by rewrite merge_sort_Permutation, elem_of_elements in Hc. }
  rewrite df_update_assoc, df_map_cols_assoc, (weights_merge_assoc dic c Hcm).
  unfold df_full. cbn [df_data df_index fmap option_fmap option_map].
  rewrite (assoc_fmap_key (λ _, replicate (length trade_dates) PrimFloat.nan)) by done.
  cbn [fmap option_fmap option_map]. f_equal.
  rewrite df_map_cols_index.
  remember (df_index (weights_merge dic)) as keys eqn:Hkeys.
  apply list_eq. intros i.
  rewrite (lookup_zip_with (λ this that : float, if isnull that then this else that)),
    list_lookup_fmap.
  destruct (trade_dates !! i) as [d|] eqn:Hd; simpl.
  - rewrite lookup_replicate_2 by (by eapply lookup_lt_Some). simpl.
    rewrite (reindex_col_lookup _ _ _ i d Hd). simpl.
    destruct (index_pos d keys) as [j|] eqn:Hj.
    + apply index_pos_Some in Hj.
      assert (is_Some (dic !! d)) as [df Hdf].
      { apply weights_merge_index. rewrite <-Hkeys. by eapply list_elem_of_lookup_2. }
      unfold fillna. rewrite !list_lookup_fmap, Hj. simpl. rewrite !Hdf. simpl.
      unfold fill0.
      destruct (PrimFloat.is_nan (weight_lookup df c)) eqn:Hw;
        [reflexivity|by rewrite Hw].
    + apply index_pos_None in Hj.
      destruct (dic !! d) as [df|] eqn:Hdf; [|reflexivity].
      destruct Hj. rewrite Hkeys. apply weights_merge_index. eauto.
  - rewrite (proj2 (lookup_ge_None (replicate _ _) i)); [reflexivity|].
    rewrite length_replicate. by apply lookup_ge_None.
Qed.

Lemma sorted_head_last (l : list Z) s e :
  StronglySorted Z.lt l → head l = Some s → last l = Some e →
  ∀ d, d ∈ l → s ≤ d ∧ d ≤ e.
Proof.
  intros Hl Hs He d Hd. split.
  - apply head_Some in Hs as [l' ->].
    apply StronglySorted_cons in Hl as [Hall _].
    apply elem_of_cons in Hd as [->|Hd]; [done|].
    rewrite Forall_forall in Hall. apply Hall in Hd. lia.
  - apply last_Some in He as [l' ->].
    apply StronglySorted_app in Hl as (Hall & _ & _).
    apply elem_of_app in Hd as [Hd|Hd].
    + assert (d < e); [|lia]. apply Hall; [done|left].
    + apply list_elem_of_singleton in Hd as ->. done.
Qed.

(** The snapshots in the dict of the loop list every symbol once exactly
    when the fetched ones do. *)
Lemma loop_state_unique query index (tds : list Z) :
  snapshots_unique (foldl (loop_record query index) (∅, ∅) tds).1
  ↔ ∀ td, td ∈ tds → NoDup (w_symbol <$> (query (index_code index) td).1).
Proof.
  unfold snapshots_unique. rewrite map_Forall_lookup. split.
  - intros Hall td Htd. apply (Hall td).
    by rewrite loop_state_lookup, decide_True.
  - intros Hall td df. rewrite loop_state_lookup.
    destruct (decide (td ∈ tds)) as [Htd|_]; [|cbn [fst]; by rewrite lookup_empty].
    intros [= <-]. by apply Hall.
Qed.

Lemma loop_state_nonempty query index (tds : list Z) td :
  td ∈ tds → (foldl (loop_record query index) (∅, ∅) tds).1 ≠ ∅.
Proof.
  intros Htd Hempty.
  pose proof (loop_state_lookup query index (∅, ∅) tds td) as Hl.
  rewrite Hempty, lookup_empty, decide_True in Hl by done. done.
Qed.

Lemma weights_daily_returned query next cal fuel index start_date end_date m s0 e0 :
  get_index_weights_daily query next cal fuel index start_date end_date = Some m →
  head (get_trade_date_range cal start_date end_date) = Some s0 →
  last (get_trade_date_range cal start_date end_date) = Some e0 →
  is_Some (weights_loop query next index e0 fuel s0 (∅, ∅))
  ∧ returned m
    = if bool_decide ((foldl (loop_record query index) (∅, ∅)
                         (snapshot_dates next e0 fuel s0)).1 = ∅)
      then Raise (ValueError "No objects to concatenate")
      else if bool_decide (snapshots_unique
                        (foldl (loop_record query index) (∅, ∅)
                           (snapshot_dates next e0 fuel s0)).1)
      then
        Ok (loc_rows s0 e0
              (df_map_cols ffill
                 (df_update
                    (df_full (get_trade_date_range cal start_date end_date)
                       (sorted_symbols
                          (foldl (loop_record query index) (∅, ∅)
                             (snapshot_dates next e0 fuel s0)).2) PrimFloat.nan)
                    (df_map_cols (fillna 0%float)
                       (weights_merge
                          (foldl (loop_record query index) (∅, ∅)
                             (snapshot_dates next e0 fuel s0)).1)))))
      else Raise (ValueError "cannot reindex from a duplicate axis").
Proof.
  unfold get_index_weights_daily. intros Hm Hs He. rewrite Hs, He in Hm.
  destruct (weights_loop query next index e0 fuel s0 (∅, ∅)) as [loop|] eqn:Hl;
    [|done].
  split; [eauto|].
  apply weights_loop_Some in Hl. injection Hm as <-.
  destruct loop as [out [[dic syms]|]]; simpl in Hl; [|done].
  injection Hl as Hl. rewrite <-Hl. cbn. by repeat case_bool_decide.
Qed.

(** X1 — Daily index weights on the trading-date axis.  For a strictly
    increasing calendar, a period helper that moves forward and snapshots
    that list every symbol once, the loop ends and a panel is returned over
    the trading dates of the requested range.  Its columns are the symbols
    of all fetched snapshots.  On the
    date of a snapshot that is a trading date of the axis, a cell holds the
    weight of its symbol in that snapshot, and 0.0 when the snapshot does
    not list the symbol; on every other trading date a cell repeats the cell
    of the row above; no cell is unfilled; every row lies in the requested
    range.  (A snapshot fetched for a date that is not on the axis only
    contributes its symbols.) *)
Theorem index_weights_daily_panel query next cal fuel index start_date end_date s0 e0 :
  Sorted Z.lt cal →
  (∀ td, td < next td) →
  head (get_trade_date_range cal start_date end_date) = Some s0 →
  last (get_trade_date_range cal start_date end_date) = Some e0 →
  (Z.to_nat (e0 - s0 + 1) ≤ fuel)%nat →
  (∀ td, snapshot_date next s0 e0 td →
         NoDup (w_symbol <$> (query (index_code index) td).1)) →
  ∃ m res,
    get_index_weights_daily query next cal fuel index start_date end_date = Some m
    ∧ returned m = Ok res
    ∧ df_index res = get_trade_date_range cal start_date end_date
    ∧ (∀ d, d ∈ df_index res → start_date ≤ d ∧ d ≤ end_date)
    ∧ (∀ c, c ∈ df_columns res
            ↔ ∃ td, snapshot_date next s0 e0 td
                    ∧ c ∈ w_symbol <$> (query (index_code index) td).1)
    ∧ ∀ c (i : nat) d,
        c ∈ df_columns res →
        get_trade_date_range cal start_date end_date !! i = Some d →
        (snapshot_date next s0 e0 d →
           cell res c i
           = Some (fill0 (weight_lookup (query (index_code index) d).1 c))
           ∧ (c ∉ w_symbol <$> (query (index_code index) d).1 →
              cell res c i = Some 0%float))
        ∧ (¬ snapshot_date next s0 e0 d →
           ∃ i', i = S i' ∧ cell res c i = cell res c i')
        ∧ (∃ v, cell res c i = Some v ∧ PrimFloat.is_nan v = false).
Proof.
  intros Hcal Hnext Hs He Hfuel Hunique.
  set (trade_dates := get_trade_date_range cal start_date end_date) in *.
  assert (StronglySorted Z.lt trade_dates) as Hsorted
    by by apply trade_date_range_sorted.
  pose proof (sorted_head_last trade_dates s0 e0 Hsorted Hs He) as Hrange.
  assert (s0 ≤ e0) as Hse.
  { apply (Hrange s0). apply head_Some in Hs as [l' ->]. left. }
  destruct (weights_loop_terminates query next index e0 fuel s0 (∅, ∅) Hnext Hfuel)
    as [loop Hloop].
  destruct (get_index_weights_daily query next cal fuel index start_date end_date)
    as [m|] eqn:Hm.
  2:{ unfold get_index_weights_daily in Hm. fold trade_dates in Hm.
      rewrite Hs, He, Hloop in Hm. done. }
  destruct (weights_daily_returned _ _ _ _ _ _ _ _ _ _ Hm Hs He) as [Hsome Hret].
  fold trade_dates in Hret.
  set (tds := snapshot_dates next e0 fuel s0) in *.
  assert (∀ d, d ∈ tds ↔ snapshot_date next s0 e0 d) as Htds
    by (intros d; by eapply elem_of_snapshot_dates).
  rewrite bool_decide_eq_false_2 in Hret
    by (apply (loop_state_nonempty _ _ _ s0), Htds; by constructor).
  rewrite bool_decide_eq_true_2 in Hret
    by (apply loop_state_unique; intros td Htd; by apply Hunique, Htds).
  set (st := foldl (loop_record query index) (∅, ∅) tds) in *.
  set (upd := df_update (df_full trade_dates (sorted_symbols st.2) PrimFloat.nan)
                (df_map_cols (fillna 0%float) (weights_merge st.1))) in *.
  assert (∀ d, st.1 !! d = if decide (d ∈ tds) then Some (query (index_code index) d).1
                           else None) as Hdic.
  { intros d. unfold st. rewrite loop_state_lookup. simpl. by rewrite lookup_empty. }
  assert (∀ c, c ∈ st.2 ↔ ∃ td, td ∈ tds ∧ c ∈ w_symbol <$> (query (index_code index) td).1)
    as Hsyms.
  { intros c. unfold st. rewrite loop_state_symbols. simpl. split; [|eauto].
    intros [?%elem_of_empty|?]; done. }
  assert (∀ c, c ∈ st.2 ↔ ∃ td df, st.1 !! td = Some df ∧ c ∈ w_symbol <$> df) as Hsyms'.
  { intros c. rewrite Hsyms. split.
    - intros (td & Htd & Hc). exists td, (query (index_code index) td).1.
      by rewrite Hdic, decide_True.
    - intros (td & df & Hdf & Hc). rewrite Hdic in Hdf.
      destruct (decide (td ∈ tds)); [|done]. injection Hdf as <-. eauto. }
  assert (df_index upd = trade_dates) as Hupd_idx by done.
  assert (df_columns upd = sorted_symbols st.2) as Hupd_cols.
  { unfold upd. rewrite df_update_columns. unfold df_columns, df_full. simpl.
    apply (fmap_key_columns (λ _, replicate (length trade_dates) PrimFloat.nan)). }
  set (res := loc_rows s0 e0 (df_map_cols ffill upd)) in *.
  assert (df_columns res = sorted_symbols st.2) as Hcols.
  { unfold res. by rewrite loc_rows_columns, df_map_cols_columns. }
  assert (∀ c (i : nat), (i < length trade_dates)%nat →
            c ∈ sorted_symbols st.2 →
            cell res c i
            = ffill ((λ d, match st.1 !! d with
                           | Some df => fill0 (weight_lookup df c)
                           | None => PrimFloat.nan
                           end) <$> trade_dates) !! i) as Hcell.
  { intros c i Hi Hc. unfold res. rewrite loc_rows_cell; [|done..].
    unfold cell. rewrite df_map_cols_assoc. unfold upd.
    rewrite (weights_updated_col st.1 st.2 trade_dates c Hc Hsyms'). done. }
  exists m, res. split_and!; [done..| | | |].
  - unfold res. by rewrite loc_rows_index.
  - unfold res. rewrite loc_rows_index by done. intros d Hd.
    apply elem_of_trade_date_range in Hd. tauto.
  - intros c. rewrite Hcols. unfold sorted_symbols.
    rewrite merge_sort_Permutation, elem_of_elements, Hsyms.
    split; intros (td & Htd & Hc); exists td; (split; [by apply Htds|done]).
  - intros c i d Hc Hd. rewrite Hcols in Hc.
    pose proof (lookup_lt_Some _ _ _ Hd) as Hi.
    set (col := (λ d, match st.1 !! d with
                      | Some df => fill0 (weight_lookup df c)
                      | None => PrimFloat.nan
                      end) <$> trade_dates) in *.
    assert (col !! i = Some match st.1 !! d with
                            | Some df => fill0 (weight_lookup df c)
                            | None => PrimFloat.nan
                            end) as Hcol
      by (unfold col; by rewrite list_lookup_fmap, Hd).
    rewrite (Hcell c i Hi Hc). fold col.
    split_and!.
    + intros Hsnap. apply Htds in Hsnap.
      rewrite Hdic, decide_True in Hcol by done.
      assert (ffill col !! i
              = Some (fill0 (weight_lookup (query (index_code index) d).1 c))) as Hv.
      { apply ffill_from_lookup_notnull; [done|apply fill0_notnull]. }
      split; [done|]. intros Habs. rewrite Hv.
      by rewrite (weight_lookup_absent _ _ Habs).
    + intros Hsnap. rewrite <-Htds in Hsnap.
      rewrite Hdic, decide_False in Hcol by done.
      destruct i as [|i'].
      { destruct Hsnap. apply Htds.
        rewrite <-head_lookup, Hs in Hd. injection Hd as <-. by constructor. }
      exists i'. split; [done|].
      rewrite (Hcell c i') by (done || lia). fold col.
      destruct (ffill_from_lookup_S null col i' _ Hcol) as (p & Hp & HS).
      unfold ffill. by rewrite HS, Hp.
    + assert (col !! 0%nat = Some (fill0 (weight_lookup (query (index_code index) s0).1 c)))
        as H0.
      { unfold col. rewrite list_lookup_fmap, <-head_lookup, Hs. simpl.
        rewrite Hdic, decide_True; [done|]. apply Htds. by constructor. }
      destruct (ffill_from_notnull_after null col 0 _ i H0) as (p & Hp & Hn).
      * apply fill0_notnull.
      * unfold col. rewrite length_fmap. lia.
      * exists p. by split.
Qed.

(** ** [get_industry_daily] *)

Lemma loc_assign_is_Ok {A} `{Nullable A} idx cols (src : DataFrame A) :
  (∀ c, c ∈ df_columns src → c ∈ cols) →
  (∀ d, d ∈ df_index src → d ∈ idx) →
  ∃ res, loc_assign idx cols src = Ok res.
Proof.
  intros Hc Hd. unfold loc_assign.
  destruct (forallb _ (df_columns src) && forallb _ (df_index src)) eqn:Hok; [eauto|].
  apply andb_false_iff in Hok as [Hok|Hok];
    apply not_true_iff_false in Hok; destruct Hok; apply forallb_forall;
    intros x Hx%list_elem_of_In; apply bool_decide_eq_true; auto.
Qed.

Lemma concat_range_columns {A} `{Nullable A} (cols : list (string * list A)) :
  df_columns (concat_range cols) = cols.*1.
Proof.
  unfold concat_range, df_columns. simpl.
  set (n := foldr _ _ _).
  apply (fmap_col_columns (λ _ col, col ++ replicate (n - length col)%nat null)).
Qed.

Lemma ind_groups_columns (df_raw : list ind_row) :
  (ind_groups df_raw).*1 = sorted_unique_str (ind_symbol <$> df_raw).
Proof.
  unfold ind_groups.
  apply (fmap_key_columns
           (λ sec, merge_sort ind_le (filter (λ r, ind_symbol r = sec) df_raw))).
Qed.

Lemma drop_duplicates_nil_inv {A} (same : A → A → bool) (l : list A) :
  drop_duplicates same l = [] → l = [].
Proof. by destruct l. Qed.

(** [drop_duplicates] on whole rows keeps exactly the rows that occur. *)
Lemma elem_of_drop_duplicates_ind (rows : list ind_row) r :
  r ∈ drop_duplicates ind_row_same rows ↔ r ∈ rows.
Proof.
  split; [apply drop_duplicates_aux_elem_of|]. intros Hr.
  destruct (drop_duplicates_aux_complete ind_row_same [] rows r Hr)
    as [(y & Hy & Hs)|(y & Hy & _)]; [|by apply elem_of_nil in Hy].
  destruct Hs as [->|Hs%bool_decide_eq_true]; [done|by subst].
Qed.

(** The outcome of [get_industry_daily], step by step. *)
Lemma industry_returned align query cal symbol start_date end_date :
  returned (get_industry_daily align query cal symbol start_date end_date)
  = let df_raw := drop_duplicates ind_row_same (query symbol).1 in
    match df_raw with
    | [] => Raise (ValueError "No objects to concatenate")
    | _ :: _ =>
        let dic_sec := ind_groups df_raw in
        let df_ann_tmp :=
          concat_range ((λ g : string * list ind_row,
                           (g.1, (λ r, Some (ind_in_date r)) <$> g.2)) <$> dic_sec) in
        let df_value_tmp :=
          concat_range ((λ g : string * list ind_row,
                           (g.1, (λ r, OStr (ind_code r)) <$> g.2)) <$> dic_sec) in
        match loc_assign (df_index df_ann_tmp) (symbol_arr symbol) df_ann_tmp with
        | Raise e => Raise e
        | Ok df_ann =>
            match loc_assign (df_index df_ann_tmp) (symbol_arr symbol) df_value_tmp with
            | Raise e => Raise e
            | Ok df_value =>
                Ok (df_map_cols (fmap astype_str)
                      (df_map_cols bfill
                         (align df_value df_ann
                            (get_trade_date_range cal start_date end_date))))
            end
        end
    end.
Proof.
  unfold get_industry_daily, get_industry_raw.
  destruct (query symbol) as [rows msg]. simpl.
  unfold check_msg. case_bool_decide; simpl;
    (destruct (drop_duplicates ind_row_same rows) as [|r0 df_raw]; [done|]);
    simpl; destruct (loc_assign _ _ _); simpl; try done;
    destruct (loc_assign _ _ _); done.
Qed.









Lemma concat_range_index_fmap {A B C} `{Nullable B} `{Nullable C}
    (f : A → B) (g : A → C) (l : list (string * list A)) :
  df_index (concat_range ((λ p : string * list A, (p.1, f <$> p.2)) <$> l))
  = df_index (concat_range ((λ p : string * list A, (p.1, g <$> p.2)) <$> l)).
Proof.
  unfold concat_range. simpl. do 2 f_equal.
  induction l as [|p l IH]; [done|]. csimpl. rewrite !length_fmap. by rewrite IH.
Qed.




Lemma assoc_None {A} (l : list (string * A)) (c : string) :
  c ∉ l.*1 → assoc c l = None.
Proof.
  intros Hc. destruct (assoc c l) as [v|] eqn:Ha; [|done].
  by apply assoc_Some_elem_of in Ha.
Qed.

Lemma bfill_replicate_null {A} `{Nullable A} (n : nat) :
  bfill (replicate n null) = replicate n (null : A).
Proof.
  induction n as [|n IH]; [done|]. cbn [replicate bfill].
  rewrite IH, isnull_null. f_equal. by destruct n.
Qed.

Lemma gated_value_unfilled anns (vals : list obj) d :
  Forall (λ v, v = ONaN) vals → gated_value anns vals d = ONaN.
Proof.
  intros Hv. unfold gated_value.
  destruct (last _) as [[a v]|] eqn:Hl; [|done]. simpl.
  apply last_Some_elem_of, list_elem_of_filter in Hl as [_ Hin].
  apply list_elem_of_lookup in Hin as [j Hj].
  apply (lookup_zip_with_Some pair) in Hj as (a' & v' & [= <- <-] & _ & Hv').
  rewrite Forall_forall in Hv. apply Hv. by eapply list_elem_of_lookup_2.
Qed.

Lemma align_spec_columns df_value df_ann dates :
  df_columns (align_spec df_value df_ann dates) = df_columns df_value.
Proof.
  unfold align_spec, df_columns. simpl.
  apply (fmap_col_columns
           (λ c col, gated_value (default [] (assoc c (df_data df_ann))) col <$> dates)).
Qed.

Lemma align_spec_unfilled df_value df_ann dates c col :
  assoc c (df_data df_value) = Some col → Forall (λ v, v = ONaN) col →
  assoc c (df_data (align_spec df_value df_ann dates))
  = Some (replicate (length dates) ONaN).
Proof.
  intros Hcol Hnan. unfold align_spec. cbn [df_data].
  rewrite (assoc_fmap_col
             (λ c col, gated_value (default [] (assoc c (df_data df_ann))) col <$> dates)).
  rewrite Hcol. simpl. f_equal. apply const_fmap.
  intros _ d _. by apply gated_value_unfilled.
Qed.

(** C10 — Record-less symbols (as the code has it).  Let [align] return a
    panel on the given dates with the columns of the value frame, unfilled
    wherever the value column is entirely unfilled.  When the fetch returned
    at least one record and only records of requested symbols, a panel is
    returned whose columns are the sorted requested symbols, and the column
    of every requested symbol without record holds the text "nan" on every
    row. *)
Theorem industry_recordless_symbol align query cal symbol start_date end_date :
  (∀ v a dates, df_index (align v a dates) = dates) →
  (∀ v a dates, df_columns (align v a dates) = df_columns v) →
  (∀ v a dates c col,
     assoc c (df_data v) = Some col → Forall (λ x, x = ONaN) col →
     assoc c (df_data (align v a dates)) = Some (replicate (length dates) ONaN)) →
  (query symbol).1 ≠ [] →
  (∀ r, r ∈ (query symbol).1 → ind_symbol r ∈ split_comma symbol) →
  ∃ res,
    returned (get_industry_daily align query cal symbol start_date end_date) = Ok res
    ∧ df_index res = get_trade_date_range cal start_date end_date
    ∧ df_columns res = symbol_arr symbol
    ∧ ∀ c, c ∈ split_comma symbol → c ∉ ind_symbol <$> (query symbol).1 →
        c ∈ df_columns res
        ∧ ∀ i : nat,
            (i < length (get_trade_date_range cal start_date end_date))%nat →
            cell res c i = Some (OStr "nan").
Proof.
  intros Halign_idx Halign_cols Halign_nan Hne Hreq.
  rewrite industry_returned. cbv zeta.
  destruct (drop_duplicates ind_row_same (query symbol).1) as [|r0 df_raw'] eqn:Hraw.
  { by apply drop_duplicates_nil_inv in Hraw. }
  rewrite <-Hraw. clear r0 df_raw' Hraw.
  set (df_raw := drop_duplicates ind_row_same (query symbol).1).
  set (dic_sec := ind_groups df_raw).
  set (df_ann_tmp := concat_range ((λ g : string * list ind_row,
                        (g.1, (λ r, Some (ind_in_date r)) <$> g.2)) <$> dic_sec)).
  set (df_value_tmp := concat_range ((λ g : string * list ind_row,
                        (g.1, (λ r, OStr (ind_code r)) <$> g.2)) <$> dic_sec)).
  assert (∀ c, c ∈ dic_sec.*1 → c ∈ symbol_arr symbol ∧ c ∈ ind_symbol <$> (query symbol).1)
    as Hkeys.
  { intros c. unfold dic_sec. rewrite ind_groups_columns, elem_of_sorted_unique_str.
    intros (r & -> & Hr)%list_elem_of_fmap.
    apply (proj1 (elem_of_drop_duplicates_ind _ _)) in Hr.
    split.
    - unfold symbol_arr. rewrite merge_sort_Permutation. by apply Hreq.
    - apply list_elem_of_fmap. eauto. }
  assert (df_columns df_ann_tmp = dic_sec.*1) as Hca.
  { unfold df_ann_tmp. rewrite concat_range_columns.
    apply (fmap_col_columns (λ _ (rs : list ind_row), (λ r, Some (ind_in_date r)) <$> rs)). }
  assert (df_columns df_value_tmp = dic_sec.*1) as Hcv.
  { unfold df_value_tmp. rewrite concat_range_columns.
    apply (fmap_col_columns (λ _ (rs : list ind_row), (λ r, OStr (ind_code r)) <$> rs)). }
  assert (df_index df_value_tmp = df_index df_ann_tmp) as Hidx
    by apply concat_range_index_fmap.
  destruct (loc_assign_is_Ok (df_index df_ann_tmp) (symbol_arr symbol) df_ann_tmp)
    as [df_ann Ha]; [|done|].
  { intros c. rewrite Hca. intros ?%Hkeys. tauto. }
  destruct (loc_assign_is_Ok (df_index df_ann_tmp) (symbol_arr symbol) df_value_tmp)
    as [df_value Hv]; [|by rewrite Hidx|].
  { intros c. rewrite Hcv. intros ?%Hkeys. tauto. }
  destruct df_raw as [|r0 df_raw'] eqn:Hraw.
  { by apply drop_duplicates_nil_inv in Hraw. }
  rewrite Ha, Hv. eexists. split; [done|].
  destruct (loc_assign_Ok _ _ _ _ Hv) as (Hvi & Hvc & _ & Hvcell).
  set (dates := get_trade_date_range cal start_date end_date).
  assert (df_columns (align df_value df_ann dates) = symbol_arr symbol) as Hcols
    by (by rewrite Halign_cols).
  split_and!; [by rewrite !df_map_cols_index|by rewrite !df_map_cols_columns|].
  intros c Hc Hnone.
  assert (c ∈ symbol_arr symbol) as Hc'
    by (unfold symbol_arr; by rewrite merge_sort_Permutation).
  split; [by rewrite !df_map_cols_columns, Hcols|].
  intros i Hi. unfold cell. rewrite !df_map_cols_assoc.
  rewrite (Halign_nan df_value df_ann dates c
             (replicate (length (df_index df_ann_tmp)) ONaN)).
  - simpl. change ONaN with (null : obj). rewrite bfill_replicate_null.
    rewrite list_lookup_fmap, lookup_replicate_2 by done. done.
  - rewrite (Hvcell c Hc'), (assoc_None (df_data df_value_tmp)); [done|].
    change (c ∉ df_columns df_value_tmp). rewrite Hcv. intros ?%Hkeys. tauto.
  - by apply Forall_replicate.
Qed.

(** ** The column axis of the four panels *)

Lemma coerce_dates_symbols raws rows :
  coerce_dates raws = Ok rows → cn_symbol <$> rows = cons_symbol <$> raws.
Proof.
  intros Hc%coerce_dates_Forall2.
  induction Hc as [|raw r raws rows (Hs & _) _ IH]; [done|].
  csimpl. by rewrite Hs, IH.
Qed.

Lemma sorted_symbols_eq (syms : gset string) (l : list string) :
  (∀ c, c ∈ syms ↔ c ∈ l) → sorted_symbols syms = sorted_unique_str l.
Proof.
  intros Hl. apply (Sorted_unique String.le).
  - apply Sorted_merge_sort, _.
  - apply Sorted_sorted_unique_str.
  - unfold sorted_symbols, sorted_unique_str. rewrite !merge_sort_Permutation.
    apply NoDup_Permutation; [apply NoDup_elements|apply NoDup_remove_dups|].
    intros c. by rewrite elem_of_elements, elem_of_remove_dups.
Qed.

(** C3 — Universe as column axis (as the code has it).  The panels of
    [get_index_comp_df] and [get_index_weights_daily] have as columns the
    deduplicated, lexicographically sorted entity ids of the fetched rows
    (for the weights: of all fetched snapshots).  The panels of
    [get_industry_daily] (for an [align] that keeps the columns of the value
    frame) and [get_adj_factor_daily] have as columns the sorted list of the
    requested symbols, [np.sort(symbol.split(','))], whether or not a
    requested symbol has a fetched row. *)
Theorem panel_columns :
  (∀ fetch dates res,
     returned (get_index_comp_df fetch dates) = Ok res →
     df_columns res = sorted_unique_str (cons_symbol <$> fetch.1))
  ∧ (∀ query next cal fuel index start_date end_date m res,
       get_index_weights_daily query next cal fuel index start_date end_date = Some m →
       returned m = Ok res →
       ∃ s0 e0,
         head (get_trade_date_range cal start_date end_date) = Some s0
         ∧ last (get_trade_date_range cal start_date end_date) = Some e0
         ∧ df_columns res
           = sorted_unique_str
               (snapshot_dates next e0 fuel s0
                  ≫= λ td, w_symbol <$> (query (index_code index) td).1))
  ∧ (∀ align query cal symbol start_date end_date res,
       (∀ v a dates, df_columns (align v a dates) = df_columns v) →
       returned (get_industry_daily align query cal symbol start_date end_date)
       = Ok res →
       df_columns res = symbol_arr symbol)
  ∧ (∀ query cal symbol start_date end_date div res,
       returned (get_adj_factor_daily query cal symbol start_date end_date div) = Ok res →
       df_columns res = symbol_arr symbol)
  ∧ (∀ l, Sorted String.le (sorted_unique_str l) ∧ NoDup (sorted_unique_str l)
          ∧ ∀ c, c ∈ sorted_unique_str l ↔ c ∈ l)
  ∧ (∀ symbol, Sorted String.le (symbol_arr symbol)
               ∧ symbol_arr symbol ≡ₚ split_comma symbol).
Proof.
  split_and!.
  - intros fetch dates res. rewrite get_index_comp_df_returned.
    destruct (coerce_dates fetch.1) as [rows|] eqn:Hc; [|done]. intros [= <-].
    by rewrite index_comp_panel_columns, (coerce_dates_symbols _ _ Hc).
  - intros query next cal fuel index start_date end_date m res Hm Hres.
    destruct (head (get_trade_date_range cal start_date end_date)) as [s0|] eqn:Hs.
    2:{ unfold get_index_weights_daily in Hm. rewrite Hs in Hm.
        injection Hm as <-. done. }
    destruct (last (get_trade_date_range cal start_date end_date)) as [e0|] eqn:He.
    2:{ unfold get_index_weights_daily in Hm. rewrite Hs, He in Hm.
        injection Hm as <-. done. }
    exists s0, e0. split_and!; [done..|].
    destruct (weights_daily_returned _ _ _ _ _ _ _ _ _ _ Hm Hs He) as [_ Hret].
    rewrite Hret in Hres. repeat case_bool_decide; try done.
    injection Hres as <-.
    rewrite loc_rows_columns, df_map_cols_columns, df_update_columns.
    unfold df_columns, df_full. cbn [df_data].
    rewrite (fmap_key_columns
               (λ _, replicate (length (get_trade_date_range cal start_date end_date))
                       PrimFloat.nan)).
    apply sorted_symbols_eq. intros c.
    rewrite loop_state_symbols, list_elem_of_bind. simpl. split.
    + intros [?%elem_of_empty|(td & ? & ?)]; [done|eauto].
    + intros (td & ? & ?). eauto.
  - intros align query cal symbol start_date end_date res Halign.
    rewrite industry_returned.
    cbv zeta. destruct (drop_duplicates ind_row_same (query symbol).1) as [|r0 df_raw]; [done|].
    destruct (loc_assign _ _ _) as [df_ann|]; [|done].
    destruct (loc_assign _ _ _) as [df_value|] eqn:Hv; [|done].
    intros [= <-]. rewrite !df_map_cols_columns, Halign.
    by destruct (loc_assign_Ok _ _ _ _ Hv) as (_ & <- & _).
  - intros query cal symbol start_date end_date div res. rewrite adj_get_returned.
    destruct (adj_align _ _ _) as [r|] eqn:Ha; [|done]. intros [= <-].
    apply adj_align_columns in Ha. destruct div; [|done].
    by rewrite df_map_cols_columns.
  - intros l. split_and!;
      [apply Sorted_sorted_unique_str|apply NoDup_sorted_unique_str|].
    intros c. apply elem_of_sorted_unique_str.
  - intros symbol. split; [apply Sorted_merge_sort, _|apply merge_sort_Permutation].
Qed.

(** ** The status message of the fetch layer *)

Lemma get_index_weights_eq query index td :
  get_index_weights query index td
  = (printed_of (query (index_code index) td).2, Ok (query (index_code index) td).1).
Proof.
  unfold get_index_weights. destruct (query _ td) as [df msg]. simpl.
  unfold check_msg, printed_of. by case_bool_decide.
Qed.

Lemma weights_loop_printed query next index end_date fuel td st m :
  weights_loop query next index end_date fuel td st = Some m →
  printed m
  = snapshot_dates next end_date fuel td
      ≫= λ td, printed_of (query (index_code index) td).2.
Proof.
  revert td st m. induction fuel as [|fuel IH]; intros td st m; simpl.
  - case_bool_decide; [|done]. by intros [= <-].
  - case_bool_decide; [by intros [= <-]|].
    rewrite get_index_weights_eq.
    unfold mbind at 1, io_mbind, io_bind, mret, io_mret, io_ret. simpl.
    destruct (weights_loop query next index end_date fuel (next td) _)
      as [[out' r]|] eqn:Hl; [|done].
    intros [= <-]. apply IH in Hl. simpl in *. rewrite app_nil_r.
    by rewrite Hl.
Qed.

Lemma weights_loop_is_Some_indep query query' next index end_date fuel td st st' :
  is_Some (weights_loop query next index end_date fuel td st) →
  is_Some (weights_loop query' next index end_date fuel td st').
Proof.
  revert td st st'. induction fuel as [|fuel IH]; intros td st st'; simpl.
  - case_bool_decide; [eauto|]. by intros [? ?].
  - case_bool_decide; [eauto|].
    rewrite !get_index_weights_eq.
    unfold mbind, io_mbind, io_bind, mret, io_mret, io_ret. simpl.
    destruct (weights_loop query next index end_date fuel (next td) _)
      as [[out r]|] eqn:Hl; [|by intros [? ?]].
    intros _.
    edestruct (IH (next td)) as [[out' r'] ->]; [by rewrite Hl|eauto].
Qed.

Lemma weights_daily_printed query next cal fuel index start_date end_date m s0 e0 :
  get_index_weights_daily query next cal fuel index start_date end_date = Some m →
  head (get_trade_date_range cal start_date end_date) = Some s0 →
  last (get_trade_date_range cal start_date end_date) = Some e0 →
  printed m
  = snapshot_dates next e0 fuel s0 ≫= λ td, printed_of (query (index_code index) td).2.
Proof.
  unfold get_index_weights_daily. intros Hm Hs He. rewrite Hs, He in Hm.
  destruct (weights_loop query next index e0 fuel s0 (∅, ∅)) as [loop|] eqn:Hl;
    [|done].
  pose proof (weights_loop_printed _ _ _ _ _ _ _ _ Hl) as Hp.
  pose proof (weights_loop_Some _ _ _ _ _ _ _ _ Hl) as Hr.
  injection Hm as <-.
  destruct loop as [out [[dic syms]|]]; simpl in *; [|done].
  unfold printed, mbind, io_mbind, io_bind, mret, io_mret, io_ret, raise. simpl.
  repeat case_bool_decide; simpl; by rewrite app_nil_r.
Qed.

(** C4 — The status of the fetch layer (as the code has it).  Each
    operation prints the status message when it differs from the text
    ["0,"] and prints nothing otherwise; the value it returns is the one it
    would return for the same rows with the success status, so the message
    is not part of what the caller receives. *)
Theorem fetch_status_is_printed :
  (∀ rows msg dates,
     printed (get_index_comp_df (rows, msg) dates) = printed_of msg
     ∧ returned (get_index_comp_df (rows, msg) dates)
       = returned (get_index_comp_df (rows, "0,") dates))
  ∧ (∀ query cal symbol start_date end_date div,
       printed (get_adj_factor_daily query cal symbol start_date end_date div)
       = printed_of (query symbol start_date end_date).2
       ∧ returned (get_adj_factor_daily query cal symbol start_date end_date div)
         = returned (get_adj_factor_daily (λ a b c, ((query a b c).1, "0,"))
                       cal symbol start_date end_date div))
  ∧ (∀ align query cal symbol start_date end_date,
       printed (get_industry_daily align query cal symbol start_date end_date)
       = printed_of (query symbol).2
       ∧ returned (get_industry_daily align query cal symbol start_date end_date)
         = returned (get_industry_daily align (λ a, ((query a).1, "0,"))
                       cal symbol start_date end_date))
  ∧ (∀ query next cal fuel index start_date end_date m,
       get_index_weights_daily query next cal fuel index start_date end_date = Some m →
       (∀ s0 e0,
          head (get_trade_date_range cal start_date end_date) = Some s0 →
          last (get_trade_date_range cal start_date end_date) = Some e0 →
          printed m
          = snapshot_dates next e0 fuel s0
              ≫= λ td, printed_of (query (index_code index) td).2)
       ∧ ∃ m',
           get_index_weights_daily (λ i td, ((query i td).1, "0,"))
             next cal fuel index start_date end_date = Some m'
           ∧ returned m' = returned m).
Proof.
  split_and!.
  - intros rows msg dates. split; [|by rewrite !get_index_comp_df_returned].
    unfold get_index_comp_df, check_msg, printed_of.
    case_bool_decide; destruct (coerce_dates rows); done.
  - intros query cal symbol start_date end_date div.
    split; [|by rewrite !adj_get_returned].
    unfold get_adj_factor_daily, get_adj_factor_raw.
    destruct (query symbol start_date end_date) as [rows msg]. simpl.
    unfold check_msg, printed_of.
    case_bool_decide; simpl; destruct (adj_align _ _ _); done.
  - intros align query cal symbol start_date end_date.
    split; [|by rewrite !industry_returned].
    unfold get_industry_daily, get_industry_raw.
    destruct (query symbol) as [rows msg]. simpl.
    unfold check_msg, printed_of.
    case_bool_decide; simpl;
      (destruct (drop_duplicates ind_row_same rows) as [|r0 df_raw]; [done|]);
      simpl; destruct (loc_assign _ _ _); simpl; try done;
      destruct (loc_assign _ _ _); done.
  - intros query next cal fuel index start_date end_date m Hm. split.
    { intros s0 e0 Hs He. by eapply weights_daily_printed. }
    destruct (head (get_trade_date_range cal start_date end_date)) as [s0|] eqn:Hs.
    2:{ unfold get_index_weights_daily in *. rewrite Hs in *.
        injection Hm as <-. eauto. }
    destruct (last (get_trade_date_range cal start_date end_date)) as [e0|] eqn:He.
    2:{ unfold get_index_weights_daily in *. rewrite Hs, He in *.
        injection Hm as <-. eauto. }
    destruct (weights_daily_returned _ _ _ _ _ _ _ _ _ _ Hm Hs He) as [Hsome Hret].
    destruct (get_index_weights_daily (λ i td, ((query i td).1, "0,"))
                next cal fuel index start_date end_date) as [m'|] eqn:Hm'.
    + exists m'. split; [done|].
      destruct (weights_daily_returned _ _ _ _ _ _ _ _ _ _ Hm' Hs He) as [_ Hret'].
      rewrite Hret, Hret'. done.
    + unfold get_index_weights_daily in Hm'. rewrite Hs, He in Hm'.
      destruct (weights_loop_is_Some_indep query (λ i td, ((query i td).1, "0,"))
                  next index e0 fuel s0 (∅, ∅) (∅, ∅) Hsome) as [loop Hl].
      by rewrite Hl in Hm'.
Qed.

(** ** The period helper moves forward *)

Lemma first_business_day_bounds y m :
  y * 10000 + m * 100 + 1 ≤ first_business_day y m
  ∧ first_business_day y m ≤ y * 10000 + m * 100 + 3.
Proof. unfold first_business_day. repeat case_bool_decide; lia. Qed.

Lemma next_business_month_begin_gt td : td < next_business_month_begin td.
Proof.
  unfold next_business_month_begin.
  set (y := td `div` 10000). set (m := (td `mod` 10000) `div` 100).
  case_bool_decide as Hthis; [done|]. clear Hthis.
  assert (td < y * 10000 + (m + 1) * 100) as Hlt.
  { unfold y, m. Z.div_mod_to_equations. lia. }
  case_bool_decide as Hm.
  - pose proof (first_business_day_bounds (y + 1) 1). lia.
  - pose proof (first_business_day_bounds y (m + 1)). lia.
Qed.

(** * The properties on concrete data *)

Ltac elem_cases H :=
  repeat (apply elem_of_cons in H as [->|H]); [..|by apply elem_of_nil in H].

Ltac elem_solve := apply list_elem_of_In; vm_compute; tauto.

Ltac sorted_solve := repeat (constructor; try (by vm_compute)).

(** The sentence of the specification on the interval [(10, 20)]:
    members on 11..19, not on 10, not on 20, not outside. *)
Example membership_10_20 :
  returned (get_index_comp_df (cons_10_20, "0,") [9; 10; 11; 12; 19; 20; 21])
  = Ok (mkDF [9; 10; 11; 12; 19; 20; 21] [("A", [0; 0; 1; 1; 1; 0; 0])]).
Proof. by vm_compute. Qed.

Lemma index_comp_interval_membership_witness :
  ∃ res,
    returned (get_index_comp_df (cons_jan2017, "0,") cal_jan2017) = Ok res
    ∧ df_index res = cal_jan2017
    ∧ ∃ v, cell res "600000.SH" 1 = Some v
           ∧ (v = 1 ∨ v = 0)
           ∧ (v = 1 ↔ ∃ raw a b,
                 raw ∈ cons_jan2017 ∧ cons_symbol raw = "600000.SH"
                 ∧ str2int (cons_in_date raw) = Ok a
                 ∧ str2int (cons_out_date raw) = Ok b
                 ∧ num_lt a (NInt 20170104) = true
                 ∧ num_lt (NInt 20170104) b = true).
Proof.
  eexists. split; [by vm_compute|].
  destruct (index_comp_interval_membership (cons_jan2017, "0,") cal_jan2017 _ eq_refl)
    as [Hidx Hcell].
  split; [exact Hidx|].
  apply (Hcell "600000.SH" 1%nat 20170104); [elem_solve|reflexivity].
Defined.

Lemma str2int_coercion_witness :
  str2int (PStr "20170103") = Ok (NInt 20170103)
  ∧ num_lt (NInt 20170103) (NInt FAR_FUTURE) = true
  ∧ ∃ e, returned (get_index_comp_df
                     ([mkCons "A" (PObj "NoneType") (PStr "20170103")], "0,")
                     cal_jan2017) = Raise e.
Proof.
  destruct str2int_coercion as (_ & Hfar & Hdigits & _ & _ & _ & Hbad).
  split_and!.
  - apply (Hdigits "20170103"). split; [done|].
    repeat (constructor; [by vm_compute|]). constructor.
  - apply Hfar. by vm_compute.
  - apply (Hbad (_, _) cal_jan2017 (mkCons "A" (PObj "NoneType") (PStr "20170103"))
             "NoneType"); [left|by left].
Defined.

Lemma adj_factor_ratio_witness :
  ∃ abs,
    returned (get_adj_factor_daily adj_query_partial cal_jan2017 "A,B"
                20170101 20170131 false) = Ok abs
    ∧ ∃ ratio,
        returned (get_adj_factor_daily adj_query_partial cal_jan2017 "A,B"
                    20170101 20170131 true) = Ok ratio
        ∧ df_index ratio = df_index abs
        ∧ df_columns ratio = df_columns abs.
Proof.
  eexists. split; [by vm_compute|].
  destruct (adj_factor_ratio adj_query_partial cal_jan2017 "A,B" 20170101 20170131
              _ eq_refl) as (ratio & Hr & Hi & Hc & _).
  exists ratio. by split_and!.
Defined.

(** A zero denominator under a non-zero numerator gives an infinite ratio,
    not 1.0. *)
Lemma adj_ratio_zero_denominator :
  ∃ abs ratio,
    returned (get_adj_factor_daily adj_query_zero cal_jan2017 "A"
                20170101 20170131 false) = Ok abs
    ∧ returned (get_adj_factor_daily adj_query_zero cal_jan2017 "A"
                  20170101 20170131 true) = Ok ratio
    ∧ cell abs "A" 0 = Some 0%float
    ∧ cell abs "A" 1 = Some 2%float
    ∧ cell ratio "A" 1 = Some infinity
    ∧ ¬ ratio_as_specified abs ratio.
Proof.
  do 2 eexists. split_and!; [by vm_compute..|].
  intros Hspec. specialize (Hspec "A" 0%nat 2%float 0%float eq_refl eq_refl).
  apply (f_equal (λ o, from_option PrimFloat.is_infinity false o)) in Hspec.
  vm_compute in Hspec. discriminate.
Qed.

Lemma panel_columns_witness :
  ∃ res,
    returned (get_adj_factor_daily adj_query_only_A cal_jan2017 "B,A"
                20170101 20170131 false) = Ok res
    ∧ df_columns res = symbol_arr "B,A".
Proof.
  destruct panel_columns as (_ & _ & _ & Hadj & _).
  eexists. split; [by vm_compute|].
  apply (Hadj adj_query_only_A cal_jan2017 "B,A" 20170101 20170131 false).
  by vm_compute.
Defined.

(** A requested symbol without any fetched row is a column all the same. *)
Lemma adj_columns_requested_not_fetched :
  ∃ res,
    returned (get_adj_factor_daily adj_query_only_A cal_jan2017 "B,A"
                20170101 20170131 false) = Ok res
    ∧ df_columns res = ["A"; "B"]
    ∧ sorted_unique_str (adj_symbol <$> (adj_query_only_A "B,A" 20170101 20170131).1)
      = ["A"]
    ∧ ¬ columns_are_fetched_universe
          (adj_symbol <$> (adj_query_only_A "B,A" 20170101 20170131).1) res.
Proof.
  eexists. split_and!; [by vm_compute..|].
  unfold columns_are_fetched_universe. vm_compute. discriminate.
Qed.

Lemma fetch_status_is_printed_witness :
  ∃ m,
    get_index_weights_daily weights_query_oct2017 next_business_month_begin
      cal_oct2017 100 "000300.SH" 20170929 20171011 = Some m
    ∧ ∃ m',
        get_index_weights_daily (λ i td, ((weights_query_oct2017 i td).1, "0,"))
          next_business_month_begin cal_oct2017 100 "000300.SH" 20170929 20171011
        = Some m'
        ∧ returned m' = returned m.
Proof.
  destruct fetch_status_is_printed as (_ & _ & _ & Hw).
  eexists. split; [by vm_compute|].
  eapply (Hw weights_query_oct2017 next_business_month_begin cal_oct2017 100%nat).
  by vm_compute.
Defined.

(** After a refused query the caller receives the very panel it receives
    after a successful one; the message only went to the output. *)
Lemma failed_fetch_returns_plain_panel :
  printed (get_index_comp_df (cons_jan2017, msg_refused) cal_jan2017) = [msg_refused]
  ∧ is_ok (returned (get_index_comp_df (cons_jan2017, msg_refused) cal_jan2017)) = true
  ∧ ¬ error_visible_to_caller
        (get_index_comp_df (cons_jan2017, "0,") cal_jan2017)
        (get_index_comp_df (cons_jan2017, msg_refused) cal_jan2017).
Proof.
  split_and!; [by vm_compute..|].
  unfold error_visible_to_caller. intros Hne. apply Hne. by vm_compute.
Qed.



Lemma adj_factor_row_axis_witness :
  ∃ res,
    returned (get_adj_factor_daily adj_query_partial cal_jan2017 "A,B"
                20170104 20170104 false) = Ok res
    ∧ ∃ d, d ∈ df_index res ∧ ¬ (20170104 ≤ d ∧ d ≤ 20170104).
Proof.
  eexists. split; [by vm_compute|].
  assert (Sorted Z.lt cal_jan2017) as Hcal by sorted_solve.
  assert (∀ r, r ∈ (adj_query_partial "A,B" 20170104 20170104).1 →
               adj_trade_date r ∈ cal_jan2017) as Hin.
  { intros r Hr. simpl in Hr. elem_cases Hr; elem_solve. }
  destruct (adj_factor_row_axis adj_query_partial cal_jan2017 "A,B"
              20170104 20170104 false _ Hcal Hin eq_refl) as (_ & _ & Hout).
  apply (Hout (mkAdj "A" 20170103 1)); [left|]. simpl. lia.
Defined.

(** A factor recorded on a day that is not a trading date lies outside the
    requested window, and yet every row of the panel lies inside it: the
    calendar span is shorter than the list of observed dates, and the panel
    is re-aligned on the span. *)
Lemma adj_record_outside_window_gives_no_row :
  ∃ res,
    returned (get_adj_factor_daily adj_query_off_calendar cal_jan2017 "A"
                20170109 20170110 false) = Ok res
    ∧ df_index res = [20170109; 20170110]
    ∧ ¬ rows_outside_window (adj_query_off_calendar "A" 20170109 20170110).1
          20170109 20170110 res.
Proof.
  eexists. split_and!; [by vm_compute..|].
  intros Hspec. destruct Hspec as (d & Hd & Hout).
  - exists (mkAdj "A" 20170107 1). split; [left|]. cbn. lia.
  - cbn in Hd. elem_cases Hd; lia.
Qed.

Lemma index_weights_daily_panel_witness :
  ∃ m res,
    get_index_weights_daily weights_query_oct2017 next_business_month_begin
      cal_oct2017 100 "000300.SH" 20170929 20171011 = Some m
    ∧ returned m = Ok res
    ∧ df_index res = [20170929; 20171009; 20171010; 20171011]
    ∧ ∀ d, d ∈ df_index res → 20170929 ≤ d ∧ d ≤ 20171011.
Proof.
  assert (Sorted Z.lt cal_oct2017) as Hcal by sorted_solve.
  destruct (index_weights_daily_panel weights_query_oct2017
              next_business_month_begin cal_oct2017 100 "000300.SH"
              20170929 20171011 20170929 20171011 Hcal
              next_business_month_begin_gt eq_refl eq_refl)
    as (m & res & Hm & Hres & Hidx & Hrange & _).
  { apply Nat.leb_le. by vm_compute. }
  { intros td _. unfold weights_query_oct2017.
    repeat case_bool_decide; apply (bool_decide_unpack _); by vm_compute. }
  exists m, res. split_and!; [done..| |done]. rewrite Hidx. by vm_compute.
Defined.

(** C6 — The snapshot fetched for 2017-10-02, a date that is not on the
    axis, never reaches the panel: its symbols become columns, its weights
    are dropped by [res.update(merge)], and the rows of October still show
    the weights of September. *)
Lemma off_axis_snapshot_is_lost :
  ∃ m res,
    get_index_weights_daily weights_query_oct2017 next_business_month_begin
      cal_oct2017 100 "000300.SH" 20170929 20171011 = Some m
    ∧ returned m = Ok res
    ∧ snapshot_date next_business_month_begin 20170929 20171011 20171002
    ∧ df_index res !! 1%nat = Some 20171009
    ∧ weight_lookup (weights_query_oct2017 (index_code "000300.SH") 20171002).1 "C"
      = 50%float
    ∧ cell res "C" 1 = Some 0%float
    ∧ cell res "A" 1 = Some 60%float
    ∧ ¬ snapshots_propagated weights_query_oct2017 next_business_month_begin
          "000300.SH" 20170929 20171011 res.
Proof.
  assert (snapshot_date next_business_month_begin 20170929 20171011 20171002) as Hsnap.
  { change 20171002 with (next_business_month_begin 20170929).
    apply snapshot_next; [by constructor|by vm_compute]. }
  do 2 eexists. split_and!; [by vm_compute|by vm_compute|done| | | | |].
  1-4: by vm_compute.
  intros Hspec. specialize (Hspec 20171002 "C" 1%nat 20171009 Hsnap).
  assert (∀ o : option float, o = Some 50%float →
            from_option (PrimFloat.eqb 50) false o = true) as Heq
    by (by intros o ->).
  apply Heq in Hspec; [by vm_compute in Hspec|elem_solve|done|by vm_compute|].
  intros td' Hs' [Hlt Hle].
  apply snapshot_date_inv in Hs' as [->|Hs']; [lia|].
  apply snapshot_date_inv in Hs' as [->|Hs']; [vm_compute in Hlt; done|].
  apply snapshot_date_le in Hs'. vm_compute in Hs'. done.
Qed.

(** The announcement-gated panel of [A], back-filled from its first code
    and cast to text. *)
Example industry_late_announcement :
  returned (get_industry_daily align_spec ind_query_late cal_jan2017 "A"
              20170101 20170131)
  = Ok (mkDF cal_jan2017
          [("A", [OStr "430000"; OStr "430000"; OStr "430000"; OStr "430000";
                  OStr "480000"; OStr "480000"])]).
Proof. by vm_compute. Qed.


Lemma industry_recordless_symbol_witness :
  ∃ res,
    returned (get_industry_daily align_spec ind_query_only_A cal_jan2017 "B,A"
                20170101 20170131) = Ok res
    ∧ df_columns res = symbol_arr "B,A"
    ∧ ∀ i : nat, (i < 6)%nat → cell res "B" i = Some (OStr "nan").
Proof.
  destruct (industry_recordless_symbol align_spec ind_query_only_A cal_jan2017 "B,A"
              20170101 20170131) as (res & Hres & _ & Hcols & Hnan).
  - done.
  - apply align_spec_columns.
  - apply align_spec_unfilled.
  - discriminate.
  - intros r Hr. simpl in Hr. elem_cases Hr; elem_solve.
  - exists res. split_and!; [done..|].
    apply (Hnan "B"); [elem_solve|].
    intros Hin. simpl in Hin.
    repeat (apply elem_of_cons in Hin as [?|Hin]; [discriminate|]).
    by apply elem_of_nil in Hin.
Defined.

(** With an empty fetch the operation raises: no requested symbol becomes
    a column. *)
Lemma industry_empty_fetch_raises :
  returned (get_industry_daily align_spec ind_query_empty cal_jan2017 "B,A"
              20170101 20170131)
  = Raise (ValueError "No objects to concatenate")
  ∧ ¬ recordless_symbols_are_nan_columns "B,A" (ind_query_empty "B,A").1
        (get_trade_date_range cal_jan2017 20170101 20170131)
        (get_industry_daily align_spec ind_query_empty cal_jan2017 "B,A"
           20170101 20170131).
Proof.
  split; [by vm_compute|].
  intros Hspec. destruct (Hspec "A") as (res & Hres & _).
  - elem_solve.
  - by intros Hin%elem_of_nil.
  - by vm_compute in Hres.
Qed.

(** * Further properties of the operations *)

(** ** [get_index_comp] and [get_index_comp_df] *)

(** X2 — The list of [get_index_comp] is increasing without repetition and holds
    exactly the symbols of the fetched rows; the call never raises, whatever
    the date fields hold, and prints the status message unless it is
    ["0,"]. *)
Theorem get_index_comp_symbols fetch :
  ∃ l,
    returned (get_index_comp fetch) = Ok l
    ∧ printed (get_index_comp fetch) = printed_of fetch.2
    ∧ Sorted String.le l ∧ NoDup l
    ∧ ∀ c, c ∈ l ↔ ∃ r, r ∈ fetch.1 ∧ cons_symbol r = c.
Proof.
  destruct fetch as [df_io msg]. exists (sorted_unique_str (cons_symbol <$> df_io)).
  split_and!.
  - unfold get_index_comp, check_msg. by case_bool_decide.
  - unfold get_index_comp, check_msg, printed_of. cbn [snd].
    by case_bool_decide.
  - apply Sorted_sorted_unique_str.
  - apply NoDup_sorted_unique_str.
  - intros c. rewrite elem_of_sorted_unique_str, list_elem_of_fmap.
    split; [intros (r & -> & Hr)|intros (r & Hr & <-)]; eauto.
Qed.

(** X3 — Whenever [get_index_comp_df] returns a panel for a fetch, its column
    axis is the list [get_index_comp] returns for the same fetch. *)
Theorem index_comp_df_columns_are_index_comp fetch dates res :
  returned (get_index_comp_df fetch dates) = Ok res →
  returned (get_index_comp fetch) = Ok (df_columns res).
Proof.
  rewrite get_index_comp_df_returned.
  destruct (coerce_dates fetch.1) as [rows|] eqn:Hc; [|done]. intros [= <-].
  rewrite index_comp_panel_columns, (coerce_dates_symbols _ _ Hc).
  destruct fetch as [df_io msg]. unfold get_index_comp, check_msg.
  by case_bool_decide.
Qed.

Lemma index_comp_df_columns_are_index_comp_witness :
  ∃ res,
    returned (get_index_comp_df (cons_jan2017, "0,") cal_jan2017) = Ok res
    ∧ returned (get_index_comp (cons_jan2017, "0,")) = Ok (df_columns res).
Proof.
  eexists. split; [by vm_compute|].
  apply (index_comp_df_columns_are_index_comp (cons_jan2017, "0,") cal_jan2017).
  by vm_compute.
Defined.

Lemma sequence_Ok_iff {A B} (f : A → result B) (l : list A) :
  (∃ l', sequence (f <$> l) = Ok l') ↔ Forall (λ x, ∃ y, f x = Ok y) l.
Proof.
  split.
  - intros [l' Hs%sequence_Ok]. induction Hs; constructor; eauto.
  - induction 1 as [|x l [y Hy] _ [l' IH]]; csimpl; [by eexists|].
    rewrite Hy, IH. by eexists.
Qed.

Lemma sequence_first_Raise {A B} (f : A → result B) before x after (e : exn) :
  Forall (λ y, ∃ v, f y = Ok v) before → f x = Raise e →
  sequence (f <$> before ++ x :: after) = Raise e.
Proof.
  intros Hb Hx. induction Hb as [|y before [v Hv] _ IH]; csimpl.
  - by rewrite Hx.
  - by rewrite Hv, IH.
Qed.

Lemma coerce_dates_Ok_iff raws :
  (∃ rows, coerce_dates raws = Ok rows)
  ↔ Forall (λ r, (∃ n, str2int (cons_in_date r) = Ok n)
                 ∧ (∃ n, str2int (cons_out_date r) = Ok n)) raws.
Proof.
  rewrite Forall_and.
  rewrite <-(sequence_Ok_iff (λ r, str2int (cons_in_date r))).
  rewrite <-(sequence_Ok_iff (λ r, str2int (cons_out_date r))).
  unfold coerce_dates. split.
  - intros [rows Hc].
    destruct (sequence ((λ r, str2int (cons_in_date r)) <$> raws)); [|done].
    destruct (sequence ((λ r, str2int (cons_out_date r)) <$> raws)); [|done].
    eauto.
  - intros [[ins ->] [outs ->]]. eauto.
Qed.

(** X4 — [get_index_comp_df] returns a panel exactly when both date fields of
    every fetched row are accepted by [str2int]; the calendar dates play no
    part in it. *)
Theorem index_comp_df_returns_iff fetch dates :
  (∃ res, returned (get_index_comp_df fetch dates) = Ok res)
  ↔ Forall (λ r, (∃ n, str2int (cons_in_date r) = Ok n)
                 ∧ (∃ n, str2int (cons_out_date r) = Ok n)) fetch.1.
Proof.
  rewrite <-coerce_dates_Ok_iff, get_index_comp_df_returned. split.
  - intros [res Hres]. destruct (coerce_dates fetch.1); [eauto|done].
  - intros [rows ->]. eauto.
Qed.

(** X5 — The [in_date] column is converted as a whole before the [out_date]
    column: the exception that ends the call is the one of the first row
    whose [in_date] is refused and, only when every [in_date] is accepted,
    the one of the first row whose [out_date] is refused.  The status
    message has been printed by then. *)
Theorem index_comp_df_first_exception fetch dates before r after e :
  fetch.1 = before ++ r :: after →
  (Forall (λ r', ∃ n, str2int (cons_in_date r') = Ok n) before
   ∧ str2int (cons_in_date r) = Raise e)
  ∨ (Forall (λ r', ∃ n, str2int (cons_in_date r') = Ok n) fetch.1
     ∧ Forall (λ r', ∃ n, str2int (cons_out_date r') = Ok n) before
     ∧ str2int (cons_out_date r) = Raise e) →
  returned (get_index_comp_df fetch dates) = Raise e
  ∧ printed (get_index_comp_df fetch dates) = printed_of fetch.2.
Proof.
  intros Hrows Hcase.
  assert (coerce_dates fetch.1 = Raise e) as Hc.
  { unfold coerce_dates. destruct Hcase as [[Hb Hr]|(Hin & Hb & Hr)].
    - rewrite Hrows.
      by rewrite (sequence_first_Raise (λ r, str2int (cons_in_date r))
                    before r after e Hb Hr).
    - apply (sequence_Ok_iff (λ r, str2int (cons_in_date r))) in Hin as [ins ->].
      rewrite Hrows.
      by rewrite (sequence_first_Raise (λ r, str2int (cons_out_date r))
                    before r after e Hb Hr). }
  split; [by rewrite get_index_comp_df_returned, Hc|].
  destruct fetch as [df_io msg]. cbn [fst snd] in *.
  unfold get_index_comp_df, check_msg, printed_of.
  case_bool_decide; cbn; by rewrite Hc.
Qed.

Lemma index_comp_df_first_exception_witness :
  let fetch := ([mkCons "A" (PStr "20170101") (PObj "list");
                 mkCons "B" (PObj "dict") (PStr EmptyString)], msg_refused) in
  returned (get_index_comp_df fetch cal_jan2017)
  = Raise (NotImplementedError "type s = dict")
  ∧ printed (get_index_comp_df fetch cal_jan2017) = [msg_refused].
Proof.
  intros fetch.
  apply (index_comp_df_first_exception fetch cal_jan2017
           [mkCons "A" (PStr "20170101") (PObj "list")]
           (mkCons "B" (PObj "dict") (PStr EmptyString)) []); [reflexivity|].
  left. split; [|reflexivity].
  constructor; [|constructor]. eexists. by vm_compute.
Defined.

Lemma mask_loop_length (dates : list Z) df (mask : list Z) :
  length mask = length dates →
  length (foldl (λ mask row, mask_set mask (bool_index dates row)) mask df)
  = length dates.
Proof.
  revert mask. induction df as [|row df IH]; intros mask Hm; cbn [foldl]; [done|].
  apply IH. unfold mask_set, bool_index.
  rewrite length_zip_with, length_fmap. lia.
Qed.

Lemma group_mask_length (dates : list Z) df :
  length (group_mask dates df) = length dates.
Proof. apply mask_loop_length, length_replicate. Qed.

Lemma index_comp_panel_rectangular dates rows :
  rectangular (index_comp_panel dates rows).
Proof.
  unfold rectangular, index_comp_panel. cbn [df_data df_index].
  apply Forall_fmap, Forall_forall. intros g _. apply group_mask_length.
Qed.

Lemma index_comp_panel_assoc dates rows c col :
  assoc c (df_data (index_comp_panel dates rows)) = Some col →
  col = group_mask dates (filter (λ r, cn_symbol r = c) rows).
Proof.
  unfold index_comp_panel, groupby_symbol. cbn [df_data]. intros Ha.
  assert (c ∈ sorted_unique_str (cn_symbol <$> rows)) as Hc.
  { apply assoc_Some_elem_of in Ha.
    by rewrite <-list_fmap_compose, <-list_fmap_compose, list_fmap_id in Ha. }
  rewrite (assoc_fmap_fmap_key (λ k, filter (λ r, cn_symbol r = k) rows)
             (group_mask dates)) in Ha by done.
  congruence.
Qed.

(** X6 — A panel returned by [get_index_comp_df] has the given dates as row
    axis, one cell per date in every column, no cell other than 0 or 1 and
    no cell outside the columns. *)
Theorem index_comp_df_shape fetch dates res :
  returned (get_index_comp_df fetch dates) = Ok res →
  df_index res = dates
  ∧ rectangular res
  ∧ (∀ c i v, cell res c i = Some v →
       c ∈ df_columns res ∧ (i < length dates)%nat ∧ (v = 0 ∨ v = 1)).
Proof.
  rewrite get_index_comp_df_returned.
  destruct (coerce_dates fetch.1) as [rows|] eqn:Hc; [|done]. intros [= <-].
  split_and!; [done|apply index_comp_panel_rectangular|].
  - intros c i v Hcell. unfold cell in Hcell.
    destruct (assoc c (df_data (index_comp_panel dates rows))) as [col|] eqn:Ha;
      [|done].
    cbn in Hcell. pose proof (assoc_Some_elem_of _ _ _ Ha) as Hcol.
    apply index_comp_panel_assoc in Ha as ->.
    pose proof (lookup_lt_Some _ _ _ Hcell) as Hi.
    rewrite group_mask_length in Hi.
    destruct (lookup_lt_is_Some_2 dates i Hi) as [d Hd].
    rewrite (group_mask_lookup _ _ _ _ Hd) in Hcell.
    split_and!; [done..|]. injection Hcell as <-. case existsb; auto.
Qed.

Lemma index_comp_df_shape_witness :
  ∃ res,
    returned (get_index_comp_df (cons_jan2017, "0,") cal_jan2017) = Ok res
    ∧ df_index res = cal_jan2017
    ∧ rectangular res.
Proof.
  eexists. split; [by vm_compute|].
  destruct (index_comp_df_shape (cons_jan2017, "0,") cal_jan2017 _ eq_refl)
    as (Hi & Hr & _).
  by split.
Defined.

Lemma sorted_unique_str_ext (l l' : list string) :
  (∀ c, c ∈ l ↔ c ∈ l') → sorted_unique_str l = sorted_unique_str l'.
Proof.
  intros Hl. apply (Sorted_unique String.le);
    [apply Sorted_sorted_unique_str..|].
  apply NoDup_Permutation; [apply NoDup_sorted_unique_str..|].
  intros c. by rewrite !elem_of_sorted_unique_str.
Qed.

Lemma existsb_ext_elem_of {A} (f : A → bool) (l l' : list A) :
  (∀ x, x ∈ l ↔ x ∈ l') → existsb f l = existsb f l'.
Proof.
  intros Hl. apply eq_true_iff_eq. rewrite !existsb_exists.
  split; intros (x & Hx%list_elem_of_In & Hf); exists x;
    (split; [apply list_elem_of_In, Hl, Hx|done]).
Qed.

Lemma group_mask_ext (dates : list Z) df df' :
  (∀ r, r ∈ df ↔ r ∈ df') → group_mask dates df = group_mask dates df'.
Proof.
  intros Hdf. apply list_eq. intros i.
  destruct (dates !! i) as [d|] eqn:Hd.
  - rewrite !(group_mask_lookup _ _ _ _ Hd).
    by rewrite (existsb_ext_elem_of _ df df').
  - apply lookup_ge_None in Hd.
    rewrite !(proj2 (lookup_ge_None _ _)); [done|by rewrite group_mask_length..].
Qed.

Lemma index_comp_panel_ext dates rows rows' :
  (∀ r, r ∈ rows ↔ r ∈ rows') →
  index_comp_panel dates rows = index_comp_panel dates rows'.
Proof.
  intros Hrows. unfold index_comp_panel, groupby_symbol. f_equal.
  rewrite (sorted_unique_str_ext (cn_symbol <$> rows) (cn_symbol <$> rows')).
  - rewrite <-!list_fmap_compose. apply list_fmap_ext. intros _ sec _. cbn.
    f_equal. apply group_mask_ext. intros r.
    rewrite !list_elem_of_filter. by rewrite Hrows.
  - intros c. rewrite !list_elem_of_fmap.
    split; intros (r & -> & Hr); exists r; (split; [done|by apply Hrows]).
Qed.

Lemma coerce_dates_elem_of raws rows raws' rows' r :
  coerce_dates raws = Ok rows → coerce_dates raws' = Ok rows' →
  (∀ raw, raw ∈ raws → raw ∈ raws') →
  r ∈ rows → r ∈ rows'.
Proof.
  intros H1%coerce_dates_Forall2 H2%coerce_dates_Forall2 Hsub Hr.
  apply list_elem_of_lookup in Hr as [i Hi].
  destruct (Forall2_lookup_r _ _ _ _ _ H1 Hi) as (raw & Hraw & Hs & Hin & Hout).
  apply list_elem_of_lookup_2, Hsub, list_elem_of_lookup in Hraw as [j Hj].
  destruct (Forall2_lookup_l _ _ _ _ _ H2 Hj) as (r' & Hr' & Hs' & Hin' & Hout').
  apply list_elem_of_lookup_2 in Hr'.
  destruct r as [s a b], r' as [s' a' b']. cbn in *.
  by replace s with s' by congruence; replace a with a' by congruence;
     replace b with b' by congruence.
Qed.

(** X7 — The panel of [get_index_comp_df] depends on the fetched rows as a set
    only: fetching the same rows in another order, or some of them more
    than once, gives the same panel. *)
Theorem index_comp_df_row_order fetch fetch' dates res :
  (∀ r, r ∈ fetch.1 ↔ r ∈ fetch'.1) →
  returned (get_index_comp_df fetch dates) = Ok res →
  returned (get_index_comp_df fetch' dates) = Ok res.
Proof.
  intros Hrows Hres.
  assert (∃ rows', coerce_dates fetch'.1 = Ok rows') as [rows' Hc'].
  { apply coerce_dates_Ok_iff, Forall_forall. intros r Hr%Hrows.
    assert (∃ rows, coerce_dates fetch.1 = Ok rows) as Hok.
    { rewrite get_index_comp_df_returned in Hres.
      destruct (coerce_dates fetch.1); [eauto|done]. }
    apply coerce_dates_Ok_iff in Hok.
    by apply (proj1 (Forall_forall _ _) Hok). }
  rewrite get_index_comp_df_returned in Hres |- *.
  destruct (coerce_dates fetch.1) as [rows|] eqn:Hc; [|done].
  injection Hres as <-. rewrite Hc'. f_equal.
  apply index_comp_panel_ext. intros r. split.
  - apply (coerce_dates_elem_of _ _ _ _ _ Hc' Hc). intros raw. apply Hrows.
  - apply (coerce_dates_elem_of _ _ _ _ _ Hc Hc'). intros raw. apply Hrows.
Qed.

Lemma index_comp_df_row_order_witness :
  ∃ res,
    returned (get_index_comp_df (cons_jan2017, "0,") cal_jan2017) = Ok res
    ∧ returned (get_index_comp_df
                  (reverse cons_jan2017 ++ cons_jan2017, "0,") cal_jan2017)
      = Ok res.
Proof.
  eexists. split; [by vm_compute|].
  apply (index_comp_df_row_order (cons_jan2017, "0,")); [|by vm_compute].
  intros r. cbn [fst]. rewrite elem_of_app, elem_of_reverse. tauto.
Defined.

(** ** [get_adj_factor_raw] and [get_adj_factor_daily] *)



Lemma adj_row_same_key (r r' : adj_row) :
  adj_row_same r r' = true →
  adj_symbol r = adj_symbol r' ∧ adj_trade_date r = adj_trade_date r'.
Proof.
  unfold adj_row_same.
  intros [[Hs%bool_decide_eq_true Hd%bool_decide_eq_true]%andb_true_iff _]%andb_true_iff.
  done.
Qed.














Section rectangular_facts.
Context {A : Type} `{Nullable A}.

Lemma rectangular_loc_assign idx cols (src res : DataFrame A) :
  loc_assign idx cols src = Ok res → rectangular res.
Proof.
  unfold loc_assign. case (_ && _); [|done]. intros [= <-].
  unfold rectangular. cbn [df_data df_index].
  apply Forall_fmap, Forall_forall. intros c _. cbn.
  destruct (assoc c (df_data src)); [apply reindex_col_length|apply length_replicate].
Qed.

Lemma rectangular_reindex new (df : DataFrame A) : rectangular (reindex new df).
Proof.
  unfold rectangular, reindex. cbn [df_data df_index].
  apply Forall_fmap, Forall_forall. intros c _. apply reindex_col_length.
Qed.

Lemma rectangular_map_cols {B} (f : list A → list B) (df : DataFrame A) :
  (∀ col, length (f col) = length col) →
  rectangular df → rectangular (df_map_cols f df).
Proof.
  intros Hf Hdf. unfold rectangular, df_map_cols in *. cbn [df_data df_index].
  apply Forall_fmap. eapply Forall_impl; [done|].
  intros c Hc. cbn. by rewrite Hf.
Qed.

Lemma rectangular_update (self other : DataFrame A) :
  rectangular self → rectangular (df_update self other).
Proof.
  intros Hdf. unfold rectangular, df_update in *. cbn [df_data df_index].
  apply Forall_fmap. eapply Forall_impl; [done|].
  intros c Hc. cbn. rewrite length_zip_with, Hc.
  destruct (assoc c.1 (df_data other));
    [rewrite reindex_col_length|rewrite length_replicate]; lia.
Qed.

Lemma filter_zip_length (P : Z → bool) (idx : list Z) (col : list A) :
  length col = length idx →
  length (filter (λ p : Z * A, P p.1) (zip idx col)).*2
  = length (filter (λ d, P d) idx).
Proof.
  revert col. induction idx as [|d idx IH]; intros [|x col] Hlen; try done.
  cbn [zip zip_with]. rewrite !filter_cons. cbn [fst].
  injection Hlen as Hlen. destruct (P d); csimpl; rewrite IH; done.
Qed.

Lemma rectangular_loc_rows lo hi (df : DataFrame A) :
  rectangular df → rectangular (loc_rows lo hi df).
Proof.
  intros Hdf. unfold rectangular, loc_rows in *. cbn [df_data df_index].
  apply Forall_fmap. eapply Forall_impl; [done|].
  intros c Hc. cbn.
  exact (filter_zip_length (λ d, bool_decide (lo ≤ d ∧ d ≤ hi)) _ _ Hc).
Qed.
End rectangular_facts.

Lemma rectangular_full {A} (idx : list Z) (cols : list string) (v : A) :
  rectangular (df_full idx cols v).
Proof.
  unfold rectangular, df_full. cbn [df_data df_index].
  apply Forall_fmap, Forall_forall. intros c _. apply length_replicate.
Qed.

Lemma div_shift_length (col : list float) : length (div_shift col) = length col.
Proof.
  unfold div_shift, fillna. rewrite length_fmap, length_zip_with, shift1_length. lia.
Qed.

Lemma assoc_Some_pair {A} (l : list (string * A)) (c : string) (v : A) :
  assoc c l = Some v → (c, v) ∈ l.
Proof.
  induction l as [|[k w] l IH]; [done|]. cbn.
  case_bool_decide; [intros [= ->]; subst; left|right; auto].
Qed.

Lemma assoc_is_Some {A} (l : list (string * A)) (c : string) :
  c ∈ l.*1 → is_Some (assoc c l).
Proof.
  induction l as [|[k w] l IH]; [by intros ?%elem_of_nil|]. csimpl.
  case_bool_decide as Hk; [eauto|].
  intros [->|Hin]%elem_of_cons; [done|auto].
Qed.

Lemma rectangular_cell {A} (df : DataFrame A) (c : string) (i : nat) :
  rectangular df →
  is_Some (cell df c i) ↔ c ∈ df_columns df ∧ (i < length (df_index df))%nat.
Proof.
  intros Hrect. unfold cell.
  destruct (assoc c (df_data df)) as [col|] eqn:Hcol; cbn.
  - pose proof (assoc_Some_elem_of _ _ _ Hcol) as Hin.
    assert (length col = length (df_index df)) as <-.
    { unfold rectangular in Hrect. rewrite Forall_forall in Hrect.
      by apply (Hrect (c, col)), assoc_Some_pair. }
    rewrite lookup_lt_is_Some. unfold df_columns. tauto.
  - split; [by intros [? ?]|]. intros [Hin%assoc_is_Some _].
    rewrite Hcol in Hin. by destruct Hin.
Qed.

Lemma adj_align_rectangular cal symbol (rows : list adj_row) res :
  adj_align cal symbol rows = Ok res → rectangular res.
Proof.
  intros (lo & hi & placed & _ & _ & _ & Hp & ->)%adj_align_Ok.
  case_bool_decide; [|by eapply rectangular_loc_assign].
  apply rectangular_map_cols; [apply bfill_length|].
  apply rectangular_map_cols; [apply ffill_length|].
  apply rectangular_reindex.
Qed.

(** X10 — A panel returned by [get_adj_factor_daily] has one cell per row label
    in every column, for the absolute factors as for the ratios, and its
    cells lie in its columns. *)
Theorem adj_factor_daily_rectangular query cal symbol start_date end_date div res :
  returned (get_adj_factor_daily query cal symbol start_date end_date div) = Ok res →
  rectangular res
  ∧ ∀ c (i : nat),
      is_Some (cell res c i)
      ↔ c ∈ symbol_arr symbol ∧ (i < length (df_index res))%nat.
Proof.
  rewrite adj_get_returned.
  destruct (adj_align cal symbol _) as [r|] eqn:Ha; [|done]. intros [= <-].
  pose proof (adj_align_rectangular _ _ _ _ Ha) as Hr.
  pose proof (adj_align_columns _ _ _ _ Ha) as Hc.
  assert (rectangular (if div then df_map_cols div_shift r else r)) as Hrect.
  { destruct div; [|done]. by apply rectangular_map_cols; [apply div_shift_length|]. }
  assert (df_columns (if div then df_map_cols div_shift r else r) = symbol_arr symbol)
    as Hcols by (destruct div; [by rewrite df_map_cols_columns|done]).
  split; [done|]. intros c i. rewrite <-Hcols. by apply rectangular_cell.
Qed.

Lemma adj_factor_daily_rectangular_witness :
  ∃ res,
    returned (get_adj_factor_daily adj_query_sparse cal_jan2017 "B,A"
                20170101 20170131 true) = Ok res
    ∧ rectangular res
    ∧ is_Some (cell res "B" 3).
Proof.
  eexists. split; [by vm_compute|].
  destruct (adj_factor_daily_rectangular adj_query_sparse cal_jan2017 "B,A"
              20170101 20170131 true _ eq_refl) as [Hr Hc].
  split; [done|]. apply Hc. split; [elem_solve|]. apply Nat.ltb_lt. by vm_compute.
Defined.

Lemma fillna_lookup_notnull {A} `{Nullable A} (v : A) (col : list A) (i : nat) x :
  isnull v = false → fillna v col !! i = Some x → isnull x = false.
Proof.
  intros Hv. unfold fillna. rewrite list_lookup_fmap.
  destruct (col !! i) as [y|]; [|done]. cbn. intros [= <-].
  by destruct (isnull y) eqn:Hy.
Qed.

(** X11 — With [div=True] no cell of the returned panel is unfilled, whatever
    the absolute panel holds: also the column of a requested symbol without
    any record consists of 1.0 only. *)
Theorem adj_factor_ratio_is_filled query cal symbol start_date end_date res :
  returned (get_adj_factor_daily query cal symbol start_date end_date true) = Ok res →
  (∀ c (i : nat) v, cell res c i = Some v → PrimFloat.is_nan v = false)
  ∧ ∀ c (i : nat),
      (∀ r, r ∈ (query symbol start_date end_date).1 → adj_symbol r ≠ c) →
      is_Some (cell res c i) → cell res c i = Some 1%float.
Proof.
  rewrite adj_get_returned.
  destruct (adj_align cal symbol _) as [r|] eqn:Ha; [|done]. intros [= <-].
  split.
  - intros c i v. unfold cell. rewrite df_map_cols_assoc.
    destruct (assoc c (df_data r)) as [col|]; [|done]. cbn.
    intros Hv. change (isnull v = false).
    by apply (fillna_lookup_notnull 1%float
                (zip_with PrimFloat.div col (shift1 col)) i v).
  - intros c i Hno [v Hv]. rewrite Hv. f_equal.
    destruct (adj_align_Ok _ _ _ _ Ha) as (lo & hi & placed & _ & _ & _ & Hp & ->).
    destruct (adj_placed _ _ placed Hp) as (Hidx & Hcols & _ & Hcell).
    set (rows := drop_duplicates adj_row_same (query symbol start_date end_date).1) in *.
    assert (∀ d, adj_lookup rows c d = PrimFloat.nan) as Hnan.
    { intros d. apply adj_lookup_no_record. intros r' Hr' [Hs _].
      apply (Hno r'); [|done]. by eapply drop_duplicates_aux_elem_of. }
    assert (∃ n, assoc c (df_data
              (if bool_decide (length (get_trade_date_range cal lo hi)
                               ≠ length (adj_idx rows))
               then df_map_cols bfill (df_map_cols ffill
                      (reindex (get_trade_date_range cal lo hi) placed))
               else placed)) = Some (replicate n PrimFloat.nan)) as [n Hcol].
    { assert (c ∈ symbol_arr symbol) as Hc.
      { rewrite <-Hcols. unfold cell in Hv. rewrite df_map_cols_assoc in Hv.
        destruct (assoc c (df_data _)) as [col|] eqn:Hcol; [|done].
        apply assoc_Some_elem_of in Hcol.
        match type of Hcol with
        | c ∈ (df_data ?X).*1 => change (c ∈ df_columns X) in Hcol
        end.
        revert Hcol. case_bool_decide; [|done].
        by rewrite !df_map_cols_columns, reindex_columns. }
      assert (∀ l : list Z, adj_lookup rows c <$> l = replicate (length l) PrimFloat.nan)
        as Hall.
      { intros l. apply const_fmap. intros _ d _. apply Hnan. }
      case_bool_decide.
      - exists (length (get_trade_date_range cal lo hi)).
        rewrite !df_map_cols_assoc, reindex_assoc, (Hcell c Hc), Hidx. cbn.
        rewrite adj_reindex_col, Hall. f_equal.
        change (ffill (replicate ?n PrimFloat.nan))
          with (ffill_from PrimFloat.nan (replicate n PrimFloat.nan)).
        assert (∀ n, ffill_from PrimFloat.nan (replicate n PrimFloat.nan)
                     = replicate n PrimFloat.nan) as ->.
        { intros m. induction m as [|m IH]; [done|]. cbn. by rewrite IH. }
        exact (@bfill_replicate_null float float_nullable _).
      - exists (length (adj_idx rows)). by rewrite (Hcell c Hc), Hall. }
    unfold cell in Hv. rewrite df_map_cols_assoc, Hcol in Hv. cbn in Hv.
    clear -Hv. revert i Hv. destruct n as [|n]; [done|].
    intros [|i] Hv.
    + rewrite (div_shift_lookup_0 _ PrimFloat.nan) in Hv by done. congruence.
    + assert (replicate (S n) PrimFloat.nan !! S i = Some PrimFloat.nan) as Hcur.
      { apply lookup_replicate_2. apply lookup_lt_Some in Hv.
        by rewrite div_shift_length, length_replicate in Hv. }
      assert (replicate (S n) PrimFloat.nan !! i = Some PrimFloat.nan) as Hprev.
      { apply lookup_replicate_2. apply lookup_lt_Some in Hcur.
        rewrite length_replicate in Hcur. lia. }
      rewrite (div_shift_lookup_S _ _ _ _ Hcur Hprev) in Hv.
      rewrite div_nan_r in Hv by done. congruence.
Qed.

Lemma adj_factor_ratio_is_filled_witness :
  ∃ res,
    returned (get_adj_factor_daily adj_query_only_A cal_jan2017 "B,A"
                20170101 20170131 true) = Ok res
    ∧ cell res "B" 1 = Some 1%float.
Proof.
  eexists. split; [by vm_compute|].
  destruct (adj_factor_ratio_is_filled adj_query_only_A cal_jan2017 "B,A"
              20170101 20170131 _ eq_refl) as [_ Hone].
  apply Hone.
  - intros r Hr. cbn in Hr.
    repeat (apply elem_of_cons in Hr as [->|Hr]; [done|]).
    by apply elem_of_nil in Hr.
  - vm_compute. eauto.
Defined.

Lemma adj_lookup_recorded (raw : list adj_row) (r : adj_row) :
  r ∈ raw →
  (∀ r', r' ∈ raw → adj_symbol r' = adj_symbol r →
         adj_trade_date r' = adj_trade_date r → adj_factor r' = adj_factor r) →
  adj_lookup (drop_duplicates adj_row_same raw) (adj_symbol r) (adj_trade_date r)
  = adj_factor r.
Proof.
  intros Hr Hkey. unfold adj_lookup.
  destruct (last (filter _ _)) as [r0|] eqn:Hl.
  - apply last_Some_elem_of, list_elem_of_filter in Hl as [[Hs Hd] Hin].
    apply Hkey; [|done..]. by eapply drop_duplicates_aux_elem_of.
  - apply last_None in Hl.
    destruct (drop_duplicates_aux_complete adj_row_same [] raw r Hr)
      as [(y & Hy & Hs)|(y & Hy & _)]; [|by apply elem_of_nil in Hy].
    assert (y ∈ filter (λ r0, adj_symbol r0 = adj_symbol r
                              ∧ adj_trade_date r0 = adj_trade_date r)
                  (drop_duplicates adj_row_same raw)) as Hin.
    { apply list_elem_of_filter. split; [|done].
      destruct Hs as [->|Hs]; [done|]. by apply adj_row_same_key in Hs as [-> ->]. }
    rewrite Hl in Hin. by apply elem_of_nil in Hin.
Qed.

(** X12 — A fetched factor that is not NaN is shown unchanged at the row of its
    trade date in the column of its symbol, whether or not the panel was
    re-aligned and filled, provided the fetch holds one factor per symbol
    and trade date: the fills only touch unfilled cells. *)
Theorem adj_factor_recorded_value query cal symbol start_date end_date res r (i : nat) :
  returned (get_adj_factor_daily query cal symbol start_date end_date false) = Ok res →
  r ∈ (query symbol start_date end_date).1 →
  (∀ r', r' ∈ (query symbol start_date end_date).1 →
         adj_symbol r' = adj_symbol r → adj_trade_date r' = adj_trade_date r →
         adj_factor r' = adj_factor r) →
  PrimFloat.is_nan (adj_factor r) = false →
  df_index res !! i = Some (adj_trade_date r) →
  cell res (adj_symbol r) i = Some (adj_factor r).
Proof.
  rewrite adj_get_returned. intros Hres Hr Hkey Hn Hi.
  pose proof (adj_lookup_recorded _ r Hr Hkey) as Hlook.
  set (rows := drop_duplicates adj_row_same (query symbol start_date end_date).1) in *.
  destruct (adj_align cal symbol rows) as [res'|] eqn:Ha; [|done].
  injection Hres as ->.
  destruct (adj_align_Ok _ _ _ _ Ha) as (lo & hi & placed & _ & _ & _ & Hp & ->).
  destruct (adj_placed rows _ placed Hp) as (Hidx & Hcols & Hsub & Hcell).
  assert (adj_symbol r ∈ symbol_arr symbol) as Hc.
  { destruct (drop_duplicates_aux_complete adj_row_same [] _ r Hr)
      as [(y & Hy & Hs)|(y & Hy & _)]; [|by apply elem_of_nil in Hy].
    replace (adj_symbol r) with (adj_symbol y); [by apply Hsub|].
    destruct Hs as [->|Hs]; [done|]. by apply adj_row_same_key in Hs as [-> _]. }
  revert Hi. unfold cell. case_bool_decide; intros Hi.
  - rewrite !df_map_cols_assoc, reindex_assoc, (Hcell _ Hc), Hidx. cbn.
    rewrite adj_reindex_col. cbn in Hi.
    apply (bfill_lookup_notnull (A:=float)); [|done].
    apply (ffill_from_lookup_notnull (A:=float)); [|done].
    by rewrite list_lookup_fmap, Hi, <-Hlook.
  - rewrite (Hcell _ Hc). cbn. rewrite Hidx in Hi.
    by rewrite list_lookup_fmap, Hi, <-Hlook.
Qed.

Lemma adj_factor_recorded_value_witness :
  ∃ res,
    returned (get_adj_factor_daily adj_query_sparse cal_jan2017 "A,B"
                20170101 20170131 false) = Ok res
    ∧ cell res "A" 3 = Some 2%float.
Proof.
  eexists. split; [by vm_compute|].
  apply (adj_factor_recorded_value adj_query_sparse cal_jan2017 "A,B"
           20170101 20170131 _ (mkAdj "A" 20170106 2) 3).
  - by vm_compute.
  - elem_solve.
  - intros r' Hr'. cbn in Hr'.
    repeat (apply elem_of_cons in Hr' as [->|Hr']; [by cbn; intros; simplify_eq|]).
    by apply elem_of_nil in Hr'.
  - reflexivity.
  - reflexivity.
Defined.

(** ** [get_index_weights] and [get_index_weights_daily] *)

Lemma weights_daily_empty_range query next cal fuel index start_date end_date :
  get_trade_date_range cal start_date end_date = [] →
  get_index_weights_daily query next cal fuel index start_date end_date
  = Some (raise (IndexError "index 0 is out of bounds")).
Proof. intros Hnil. unfold get_index_weights_daily. by rewrite Hnil. Qed.

Lemma head_last_Some {A} (l : list A) :
  l ≠ [] → ∃ x y, head l = Some x ∧ last l = Some y.
Proof.
  intros Hl. destruct l as [|x l]; [done|]. exists x.
  destruct (last (x :: l)) as [y|] eqn:Hy; [eauto|].
  by apply last_None in Hy.
Qed.



Lemma weights_loop_ext query query' next index index' end_date fuel td st :
  (∀ td, query (index_code index) td = query' (index_code index') td) →
  weights_loop query next index end_date fuel td st
  = weights_loop query' next index' end_date fuel td st.
Proof.
  intros Hq. revert td st. induction fuel as [|fuel IH]; intros td st; cbn [weights_loop].
  - done.
  - case_bool_decide; [done|].
    rewrite !get_index_weights_eq, Hq.
    unfold mbind, io_mbind, io_bind, mret, io_mret, io_ret. cbn.
    by rewrite IH.
Qed.

Lemma weights_daily_ext query query' next cal fuel index index' start_date end_date :
  (∀ td, query (index_code index) td = query' (index_code index') td) →
  get_index_weights_daily query next cal fuel index start_date end_date
  = get_index_weights_daily query' next cal fuel index' start_date end_date.
Proof.
  intros Hq. unfold get_index_weights_daily.
  destruct (head _) as [s0|]; [|done]. destruct (last _) as [e0|]; [|done].
  by rewrite (weights_loop_ext query query' next index index').
Qed.

(** X14 — The index code ["000300.SH"] is an alias of ["399300.SZ"]: a single
    snapshot and the daily panel are the same under both codes. *)
Theorem index_weights_csi300_alias query next cal fuel start_date end_date td :
  get_index_weights query "000300.SH" td = get_index_weights query "399300.SZ" td
  ∧ get_index_weights_daily query next cal fuel "000300.SH" start_date end_date
    = get_index_weights_daily query next cal fuel "399300.SZ" start_date end_date.
Proof.
  split.
  - by rewrite !get_index_weights_eq.
  - by apply weights_daily_ext.
Qed.

(** X15 — The remote view is never asked under the code ["000300.SH"]: two views
    that agree on every other code give the same outcome, whatever index is
    requested. *)
Theorem index_weights_never_query_000300
    query query' next cal fuel index start_date end_date :
  (∀ code td, code ≠ "000300.SH" → query code td = query' code td) →
  get_index_weights_daily query next cal fuel index start_date end_date
  = get_index_weights_daily query' next cal fuel index start_date end_date.
Proof.
  intros Hq. apply weights_daily_ext. intros td. apply Hq.
  unfold index_code. by case_bool_decide.
Qed.

Lemma index_weights_never_query_000300_witness :
  get_index_weights_daily weights_query_oct2017 next_business_month_begin
    cal_oct2017 5 "000300.SH" 20170928 20171011
  = get_index_weights_daily
      (λ code td, if bool_decide (code = "000300.SH") then ([], "-1,no such index")
                  else weights_query_oct2017 code td)
      next_business_month_begin cal_oct2017 5 "000300.SH" 20170928 20171011.
Proof.
  apply (index_weights_never_query_000300 weights_query_oct2017).
  intros code td Hcode. by rewrite bool_decide_eq_false_2.
Defined.

(** X16 — A panel returned by [get_index_weights_daily] has one cell per
    row label in every column, and its cells lie in its columns. *)
Theorem index_weights_daily_rectangular
    query next cal fuel index start_date end_date m res :
  get_index_weights_daily query next cal fuel index start_date end_date = Some m →
  returned m = Ok res →
  rectangular res
  ∧ ∀ c (i : nat),
      is_Some (cell res c i)
      ↔ c ∈ df_columns res ∧ (i < length (df_index res))%nat.
Proof.
  intros Hm Hres.
  assert (rectangular res) as Hrect.
  { destruct (decide (get_trade_date_range cal start_date end_date = []))
      as [Hnil|Hne].
    { rewrite weights_daily_empty_range in Hm by done. by injection Hm as <-. }
    destruct (head_last_Some _ Hne) as (s0 & e0 & Hs & He).
    destruct (weights_daily_returned _ _ _ _ _ _ _ _ _ _ Hm Hs He) as [_ Hret].
    rewrite Hret in Hres. repeat case_bool_decide; try done.
    injection Hres as <-.
    apply (rectangular_loc_rows (A:=float)).
    apply rectangular_map_cols; [apply ffill_length|].
    apply (rectangular_update (A:=float)), rectangular_full. }
  split; [done|]. intros c i. by apply rectangular_cell.
Qed.

Lemma index_weights_daily_rectangular_witness :
  ∃ m res,
    get_index_weights_daily weights_query_oct2017 next_business_month_begin
      cal_oct2017 5 "000300.SH" 20170928 20171011 = Some m
    ∧ returned m = Ok res
    ∧ rectangular res.
Proof.
  eexists. eexists. split; [by vm_compute|]. split; [by vm_compute|].
  eapply proj1, (index_weights_daily_rectangular weights_query_oct2017
           next_business_month_begin cal_oct2017 5 "000300.SH" 20170928 20171011).
  - by vm_compute.
  - by vm_compute.
Defined.

(** ** [get_industry_daily] *)




(** ** The arguments of [get_industry_raw] *)




(** ** [_dic2url] *)

Lemma join_pair (sep k v : string) : join sep [k; v] = (k ++ sep ++ v)%string.
Proof. done. Qed.

Lemma has_char_app (c : ascii) (s t : string) :
  has_char c (s ++ t) = has_char c s || has_char c t.
Proof.
  induction s as [|a s IH]; [done|].
  change (Ascii.eqb a c || has_char c (s ++ t)
          = Ascii.eqb a c || has_char c s || has_char c t).
  by rewrite IH, orb_assoc.
Qed.

Lemma split_on_no_char (c : ascii) (s : string) :
  has_char c s = false → split_on c s = [s].
Proof.
  induction s as [|a s IH]; [done|]. cbn [split_on has_char].
  intros [Ha Hs]%orb_false_iff. by rewrite Ha, IH.
Qed.

Lemma split_on_app (c : ascii) (x rest : string) :
  has_char c x = false →
  split_on c (x ++ String c rest) = x :: split_on c rest.
Proof.
  induction x as [|a x IH].
  - intros _. change (split_on c (String c rest) = EmptyString :: split_on c rest).
    cbn [split_on]. by rewrite Ascii.eqb_refl.
  - intros [Ha Hx]%orb_false_iff.
    change (split_on c (String a (x ++ String c rest))
            = String a x :: split_on c rest).
    cbn [split_on]. by rewrite Ha, IH.
Qed.

Lemma cut_at_app (c : ascii) (k v : string) :
  has_char c k = false → cut_at c (k ++ String c v) = (k, v).
Proof.
  induction k as [|a k IH].
  - intros _. change (cut_at c (String c v) = (EmptyString, v)).
    cbn [cut_at]. by rewrite Ascii.eqb_refl.
  - intros [Ha Hk]%orb_false_iff.
    change (cut_at c (String a (k ++ String c v)) = (String a k, v)).
    cbn [cut_at]. by rewrite Ha, IH.
Qed.

Lemma split_on_join (c : ascii) (l : list string) :
  l ≠ [] → Forall (λ x, has_char c x = false) l →
  split_on c (join (String c EmptyString) l) = l.
Proof.
  intros Hne Hl. induction Hl as [|x l Hx Hl IH]; [done|].
  destruct l as [|y l]; [by apply split_on_no_char|].
  change (join (String c EmptyString) (x :: y :: l))
    with (x ++ String c (join (String c EmptyString) (y :: l)))%string.
  rewrite split_on_app by done. by rewrite IH.
Qed.

Lemma url2items_dic2url d : plain_items d → url2items (_dic2url d) = d.
Proof.
  intros Hd. unfold url2items, _dic2url.
  destruct d as [|kv d]; [done|].
  set (items := (λ kv : string * string, join "=" [kv.1; kv.2]) <$> kv :: d).
  assert (Forall (λ x, has_char "&" x = false) items) as Hitems.
  { apply Forall_fmap. eapply Forall_impl; [exact Hd|].
    intros [k v] (Hk & _ & Hv). unfold compose. cbv beta. cbn [fst snd] in *.
    by rewrite join_pair, !has_char_app, Hk, Hv. }
  assert (split_on "&" (join "&" items) = items) as Hsplit
    by (by apply split_on_join).
  rewrite bool_decide_eq_false_2.
  - rewrite Hsplit. unfold items. rewrite <-list_fmap_compose.
    rewrite <-(list_fmap_id (kv :: d)) at 2.
    apply Forall_fmap_ext. eapply Forall_impl; [exact Hd|].
    intros [k v] (_ & Hk & _). unfold compose. cbv beta. cbn [fst snd id] in *.
    rewrite join_pair. by apply cut_at_app.
  - intros Hnil. rewrite Hnil in Hsplit. unfold items in Hsplit.
    destruct kv as [k v]. csimpl in Hsplit. injection Hsplit as Hk _.
    by destruct k.
Qed.

(** X19 — When no key holds a ['&'] or a ['='] and no value a ['&'], the text of
    [_dic2url] can be read back into the items it was made of, in their
    order, by splitting at ['&'] and then at the first ['=']; two such
    item lists with the same text are therefore the same list. *)
Theorem dic2url_round_trip d :
  plain_items d →
  url2items (_dic2url d) = d
  ∧ ∀ d', plain_items d' → _dic2url d' = _dic2url d → d' = d.
Proof.
  intros Hd. split; [by apply url2items_dic2url|].
  intros d' Hd' Heq.
  by rewrite <-(url2items_dic2url d'), Heq, url2items_dic2url.
Qed.

Lemma dic2url_round_trip_witness :
  let d := [("symbol", "600030.SH,000001.SZ"); ("start_date", "20170101");
            ("end_date", EmptyString)] in
  _dic2url d = "symbol=600030.SH,000001.SZ&start_date=20170101&end_date="
  ∧ url2items (_dic2url d) = d.
Proof.
  intros d. split; [reflexivity|].
  refine (proj1 (dic2url_round_trip d _)).
  unfold plain_items, d.
  repeat (apply Forall_cons; split; [by vm_compute|]). by apply Forall_nil.
Defined.

(** Nothing is escaped: a value that holds the separators reads as
    further items. *)
Example dic2url_separator_in_value :
  _dic2url [("a", "x&b=y")] = _dic2url [("a", "x"); ("b", "y")].
Proof. reflexivity. Qed.

(** ** [DataService.subscribe] *)

Section subscribe_facts.
Context {F S : Type}.
Context (add_subscriber : F → string → S → S).

(** The publisher after the given registrations, in their order. *)
Let registered (self : S) (regs : list (string * F)) : S :=
  foldl (λ s p, add_subscriber p.2 p.1 s) self regs.

Lemma subscribe_loop_app (callback : gmap string F) before rest funcs self :
  Forall2 (λ t f, subscribe_target callback t = Ok f) before funcs →
  subscribe_loop add_subscriber callback (before ++ rest) self
  = subscribe_loop add_subscriber callback rest
      (registered self (zip before funcs)).
Proof.
  intros Hb. revert self.
  induction Hb as [|t f before funcs Ht _ IH]; intros self; [done|].
  cbn [app subscribe_loop]. rewrite Ht. by rewrite IH.
Qed.

Lemma subscribe_target_pair (callback : gmap string F) sec data_type func :
  has_char "/" sec = false → has_char "/" data_type = false →
  callback !! (if bool_decide (data_type = "tick") then "on_tick" else "on_bar")
  = Some func →
  subscribe_target callback (join "/" [sec; data_type]) = Ok func.
Proof.
  intros Hsec Hty Hcb. unfold subscribe_target.
  rewrite join_pair.
  change (sec ++ "/" ++ data_type)%string with (sec ++ String "/" data_type)%string.
  rewrite split_on_app, split_on_no_char by done.
  by rewrite Hcb.
Qed.

(** X20 — A target text made of pieces [sec/data_type] joined by commas, as in
    the docstring, registers every piece once, in the order of the text,
    under the whole piece as topic: with the callback ['on_tick'] when
    the data type is ["tick"], with ['on_bar'] for every other data
    type. *)
Theorem subscribe_registers_each_target
    (callback : gmap string F) (items : list (string * string))
    (funcs : list F) (self : S) :
  items ≠ [] →
  Forall (λ p, has_char "," p.1 = false ∧ has_char "/" p.1 = false
               ∧ has_char "," p.2 = false ∧ has_char "/" p.2 = false) items →
  Forall2 (λ p func,
             callback !! (if bool_decide (p.2 = "tick") then "on_tick" else "on_bar")
             = Some func) items funcs →
  let targets := (λ p, join "/" [p.1; p.2]) <$> items in
  subscribe add_subscriber callback (join "," targets) self
  = (foldl (λ s p, add_subscriber p.2 p.1 s) self (zip targets funcs), Ok tt).
Proof.
  intros Hne Hplain Hcb targets. unfold subscribe.
  rewrite split_on_join.
  - rewrite <-(app_nil_r targets) at 1.
    rewrite (subscribe_loop_app callback targets [] funcs); [done|].
    unfold targets. apply Forall2_fmap_l. clear Hne targets.
    induction Hcb as [|[sec ty] func items funcs Hf _ IH]; [constructor|].
    apply Forall_cons in Hplain as [(_ & Hsec & _ & Hty) Hplain].
    constructor; [|by apply IH]. cbn [fst snd] in *.
    by apply subscribe_target_pair.
  - unfold targets. by destruct items.
  - unfold targets. apply Forall_fmap. eapply Forall_impl; [exact Hplain|].
    intros [sec ty] (Hsec & _ & Hty & _). unfold compose. cbv beta.
    cbn [fst snd] in *. by rewrite join_pair, !has_char_app, Hsec, Hty.
Qed.

(** X21 — The loop has no rollback: when a target cannot be taken apart or its
    callback is missing, the exception leaves the call with the targets
    in front of it registered. *)
Theorem subscribe_keeps_earlier_targets
    (callback : gmap string F) (targets : string) before target after funcs
    (e : exn) (self : S) :
  split_on "," targets = before ++ target :: after →
  Forall2 (λ t func, subscribe_target callback t = Ok func) before funcs →
  subscribe_target callback target = Raise e →
  subscribe add_subscriber callback targets self
  = (foldl (λ s p, add_subscriber p.2 p.1 s) self (zip before funcs), Raise e).
Proof.
  intros Hsplit Hb He. unfold subscribe. rewrite Hsplit.
  rewrite (subscribe_loop_app callback before _ funcs) by done.
  cbn [subscribe_loop]. by rewrite He.
Qed.
End subscribe_facts.

Lemma subscribe_registers_each_target_witness :
  subscribe (λ (f : string) (topic : string) (subs : list (string * string)),
               subs ++ [(f, topic)])
    {["on_tick" := "func1"; "on_bar" := "func2"]}
    "000001.SH/tick,cu1709.SHF/1m" []
  = ([("func1", "000001.SH/tick"); ("func2", "cu1709.SHF/1m")], Ok tt).
Proof.
  apply (subscribe_registers_each_target
           (λ (f : string) (topic : string) (subs : list (string * string)),
              subs ++ [(f, topic)])
           {["on_tick" := "func1"; "on_bar" := "func2"]}
           [("000001.SH", "tick"); ("cu1709.SHF", "1m")] ["func1"; "func2"] []).
  - done.
  - repeat (apply Forall_cons; split; [by vm_compute|]). by apply Forall_nil.
  - repeat (apply Forall2_cons; split; [by vm_compute|]). by apply Forall2_nil.
Defined.

Lemma subscribe_keeps_earlier_targets_witness :
  subscribe (λ (f : string) (topic : string) (subs : list (string * string)),
               subs ++ [(f, topic)])
    {["on_tick" := "func1"]} "000001.SH/tick,cu1709.SHF/1m" []
  = ([("func1", "000001.SH/tick")], Raise (KeyError "on_bar")).
Proof.
  apply (subscribe_keeps_earlier_targets
           (λ (f : string) (topic : string) (subs : list (string * string)),
              subs ++ [(f, topic)])
           {["on_tick" := "func1"]} "000001.SH/tick,cu1709.SHF/1m"
           ["000001.SH/tick"] "cu1709.SHF/1m" [] ["func1"]).
  - by vm_compute.
  - apply Forall2_cons; split; [by vm_compute|]. by apply Forall2_nil.
  - by vm_compute.
Defined.

(** An empty target text is one empty target, which cannot be taken
    apart. *)
Example subscribe_empty_text :
  subscribe (λ (f : string) (topic : string) (subs : list (string * string)),
               subs ++ [(f, topic)])
    {["on_tick" := "func1"; "on_bar" := "func2"]} EmptyString []
  = ([], Raise (ValueError "need more than 1 value to unpack")).
Proof. by vm_compute. Qed.

(** ** [Singleton] and the construction of [RemoteDataService] *)

(** X22 — [Singleton.__call__] builds at most one instance per class: once a
    call has returned an instance, every later call for that class returns
    the same instance without running the constructor, whatever the
    arguments, and the entries of other classes are not touched.  A
    constructor that raises leaves the dict as it was. *)
Theorem singleton_call_once {Cls Inst : Type} `{Countable Cls}
    (instances instances' : gmap Cls Inst) (cls : Cls) (construct : io Inst)
    (out : list string) (r : result Inst) :
  singleton_call instances cls construct = (instances', (out, r)) →
  match r with
  | Ok inst =>
      instances' !! cls = Some inst
      ∧ (∀ cls', cls' ≠ cls → instances' !! cls' = instances !! cls')
      ∧ (∀ construct',
           singleton_call instances' cls construct' = (instances', ([], Ok inst)))
  | Raise e =>
      instances' = instances ∧ instances !! cls = None
      ∧ construct = (out, Raise e)
  end.
Proof.
  unfold singleton_call.
  destruct (instances !! cls) as [inst0|] eqn:Hcls.
  - intros Heq. simplify_eq. split_and!; [done..|].
    intros construct'. by rewrite Hcls.
  - destruct construct as [out0 [inst|e]]; intros Heq; simplify_eq.
    + split_and!.
      * apply lookup_insert_eq.
      * intros cls' Hne. by apply lookup_insert_ne.
      * intros construct'. by rewrite lookup_insert_eq.
    + done.
Qed.

Lemma singleton_call_once_witness :
  singleton_call ({["RemoteDataService" := 1%nat]} : gmap string nat)
    "RemoteDataService" (raise (ValueError "never run"))
  = ({["RemoteDataService" := 1%nat]}, ([], Ok 1%nat)).
Proof.
  pose proof (singleton_call_once (∅ : gmap string nat)
                {["RemoteDataService" := 1%nat]} "RemoteDataService"
                (["built"], Ok 1%nat) ["built"] (Ok 1%nat)) as Honce.
  destruct Honce as (_ & _ & Hlater); [by vm_compute|].
  apply Hlater.
Defined.

(** X23 — [RemoteDataService.__init__] returns an object exactly when the
    configuration has an address, a user name and a password; a refused
    login is only printed.  Without one of the three entries it raises a
    ValueError before any login. *)
Theorem remote_init_outcome get login :
  let call := remote_init get login in
  ((∃ s, returned call = Ok s)
   ↔ is_Some (get "remote.address") ∧ is_Some (get "remote.username")
     ∧ is_Some (get "remote.password"))
  ∧ (∀ ex, returned call = Raise ex →
       ex = ValueError "no address, username or password available!"
       ∧ printed call = [])
  ∧ (∀ s, returned call = Ok s →
       ∃ username password,
         get "remote.address" = Some (api_address s)
         ∧ get "remote.username" = Some username
         ∧ get "remote.password" = Some password
         ∧ printed call
           = [if truthy (login (api_address s) username password).1
              then "DataAPI login success."
              else (login (api_address s) username password).2]).
Proof.
  intros call. unfold call, remote_init.
  destruct (get "remote.address") as [address|];
    destruct (get "remote.username") as [username|];
    destruct (get "remote.password") as [password|];
    try (split_and!;
         [split; [by intros [? ?]|by intros ([? ?] & [? ?] & [? ?])]
         |by intros ex [= <-]|done]).
  destruct (login address username password) as [r msg] eqn:Hlogin.
  split_and!.
  - split; [eauto|]. intros _. destruct (truthy r); by eexists.
  - intros ex. by destruct (truthy r).
  - intros s Hs. exists username, password.
    assert (s = mkRemote address) as ->
      by (destruct (truthy r); cbn in Hs; congruence).
    cbn [api_address]. rewrite Hlogin. cbn [fst snd].
    split_and!; [done..|]. by destruct (truthy r).
Qed.

Lemma remote_init_outcome_witness :
  ∃ s,
    returned (remote_init
                (λ key, if bool_decide (key = "proxy") then None else Some key)
                (λ _ _ _, (None, "-1,login refused"))) = Ok s
    ∧ printed (remote_init
                 (λ key, if bool_decide (key = "proxy") then None else Some key)
                 (λ _ _ _, (None, "-1,login refused"))) = ["-1,login refused"].
Proof.
  eexists. split; [by vm_compute|].
  destruct (remote_init_outcome
              (λ key, if bool_decide (key = "proxy") then None else Some key)
              (λ _ _ _, (None, "-1,login refused"))) as (_ & _ & Hok).
  destruct (Hok _ eq_refl) as (username & password & _ & _ & _ & Hout).
  exact Hout.
Defined.

(** X24 — A service whose login was refused is kept all the same: the call
    [RemoteDataService()] registers it, and every later call returns that
    object without reading the configuration or logging in again.  When
    the configuration lacks an entry, nothing is registered. *)
Theorem remote_service_refused_login_is_kept
    get login address username password (r : option string) msg :
  get "remote.address" = Some address →
  get "remote.username" = Some username →
  get "remote.password" = Some password →
  login address username password = (r, msg) →
  truthy r = false →
  RemoteDataService ∅ get login
  = ({["RemoteDataService" := mkRemote address]}, ([msg], Ok (mkRemote address)))
  ∧ (∀ get' login',
       RemoteDataService {["RemoteDataService" := mkRemote address]} get' login'
       = ({["RemoteDataService" := mkRemote address]}, ([], Ok (mkRemote address))))
  ∧ (∀ get', get' "remote.password" = None →
       RemoteDataService ∅ get' login
       = (∅, ([], Raise (ValueError "no address, username or password available!")))).
Proof.
  intros Ha Hu Hp Hlogin Hr. unfold RemoteDataService, singleton_call, remote_init.
  split_and!.
  - rewrite lookup_empty, Ha, Hu, Hp, Hlogin, Hr. cbn. by rewrite insert_empty.
  - intros get' login'. by rewrite lookup_singleton_eq.
  - intros get' Hnone. rewrite lookup_empty, Hnone.
    by destruct (get' "remote.address"), (get' "remote.username").
Qed.

Lemma remote_service_refused_login_is_kept_witness :
  RemoteDataService ∅ (λ key, Some key) (λ _ _ _, (None, "-1,login refused"))
  = ({["RemoteDataService" := mkRemote "remote.address"]},
     (["-1,login refused"], Ok (mkRemote "remote.address"))).
Proof.
  refine (proj1 (remote_service_refused_login_is_kept
                   (λ key, Some key) (λ _ _ _, (None, "-1,login refused"))
                   "remote.address" "remote.username" "remote.password"
                   None "-1,login refused" _ _ _ _ _)); reflexivity.
Defined.
